(** * Legacy-data migration of the VRM0 document

    A shallow embedding of [io_scene_vrm/editor/vrm0/migration.py] and the
    properties of its reader, field migrators, collider-graph reconstruction
    and orchestrator.

    Conventions of the embedding.
    - A Python value that reaches the migrators is either a decoded JSON
      value ([json], with [JNull] standing for [None]) or a custom property
      of the rig ([idprop]).
    - The document records are plain records; a host collection property is
      a list, [add()] appends an element and the statements that follow it
      update that element.
    - An assignment the host rejects raises; a migrator that contains such
      an assignment returns an [outcome], which carries the exception and
      the record as it was mutated up to that point.
    - Numeric values are carried as assigned; the precision in which the
      host stores them is not modelled. A float property refuses an [int]
      that has no double: the refusal is modelled where the migrators
      store the weight of a bind and the vector of a material value
      ([assign_float]); the humanoid, look-at and bone-group migrators are
      modelled on numbers the host accepts.
    - Modelled from the spec: the references of the document (bone, mesh
      and material references), its names and its comments hold a string
      and accept any [str] (section 3, where a reference is not validated
      when it is set). The string properties of the meta record are
      declared in [vrm0/property_group.py], which is not part of the
      sources: what they accept is the host's to say ([meta_accepts]). *)

From Stdlib Require Import ZArith String List Bool Lia.
From stdpp Require Import base option list strings pretty gmap.

Local Open Scope string_scope.
Local Open Scope Z_scope.
Local Open Scope list_scope.
Local Set Warnings "-register-all".

(** ** Python values *)

(** A Python [int] or a finite [float] (mantissa times two to the exponent). *)
Inductive number :=
| PyInt (z : Z)
| PyFloat (mantissa exponent : Z).

(** What [json.loads] builds. [JObj] holds the items of a dict in iteration
    order. *)
Inductive json :=
| JNull
| JBool (b : bool)
| JNum (n : number)
| JStr (s : string)
| JArr (items : list json)
| JObj (pairs : list (string * json)).

(** [d.get(key)]: the value under [key], [None] when there is none. *)
Fixpoint dict_get (key : string) (d : list (string * json)) : json :=
  match d with
  | [] => JNull
  | (k, v) :: d' => if String.eqb k key then v else dict_get key d'
  end.

(** [d[key] = v]: a key already present keeps its position. *)
Fixpoint dict_set (key : string) (v : json) (d : list (string * json))
  : list (string * json) :=
  match d with
  | [] => [(key, v)]
  | (k, w) :: d' =>
      if String.eqb k key then (k, v) :: d' else (k, w) :: dict_set key v d'
  end.

(** [collections.OrderedDict(pairs)]. *)
Definition OrderedDict (pairs : list (string * json)) : list (string * json) :=
  fold_left (fun d kv => dict_set kv.1 kv.2 d) pairs [].

(** The effect of [object_pairs_hook=collections.OrderedDict]: the decoder
    hands the pairs of every object, innermost first, to the hook. *)
Fixpoint object_pairs_hook (v : json) : json :=
  match v with
  | JArr items => JArr (map object_pairs_hook items)
  | JObj pairs =>
      JObj (OrderedDict
              (map (fun kv => match kv with
                              | (k, w) => (k, object_pairs_hook w)
                              end) pairs))
  | _ => v
  end.

(** No object of the document repeats a key. *)
Fixpoint distinct_keys (v : json) : Prop :=
  match v with
  | JArr items => fold_right (fun w P => distinct_keys w /\ P) True items
  | JObj pairs =>
      NoDup (map fst pairs)
      /\ fold_right (fun kv P => distinct_keys kv.2 /\ P) True pairs
  | _ => True
  end.

(** [isinstance(v, str)]. *)
Definition as_str (v : json) : option string :=
  match v with JStr s => Some s | _ => None end.

(** [isinstance(v, (int, float))]. [bool] is a subclass of [int]: [True]
    and [False] pass the test and count as 1 and 0. *)
Definition as_number (v : json) : option number :=
  match v with
  | JNum n => Some n
  | JBool b => Some (PyInt (if b then 1 else 0))
  | _ => None
  end.

(** [isinstance(v, bool)]. *)
Definition as_bool (v : json) : option bool :=
  match v with JBool b => Some b | _ => None end.

(** The one-character strings a [str] yields when iterated. Strings are
    held in UTF-8: a character is a byte together with the continuation
    bytes (binary 10xxxxxx) that follow it. *)
Definition is_continuation (c : Ascii.ascii) : bool :=
  (128 <=? Ascii.nat_of_ascii c)%nat && (Ascii.nat_of_ascii c <? 192)%nat.

Definition continues (s : string) : bool :=
  match s with
  | String c _ => is_continuation c
  | EmptyString => false
  end.

Fixpoint string_chars (s : string) : list string :=
  match s with
  | EmptyString => []
  | String c s' =>
      match string_chars s' with
      | char :: chars =>
          if continues s' then String c char :: chars
          else String c EmptyString :: char :: chars
      | [] => [String c EmptyString]
      end
  end.

(** [isinstance(v, abc.Iterable)] together with what [for x in v] visits:
    the items of a list, the keys of a dict, the characters of a str. *)
Definition as_iterable (v : json) : option (list json) :=
  match v with
  | JArr items => Some items
  | JObj pairs => Some (map (fun kv => JStr kv.1) pairs)
  | JStr s => Some (map JStr (string_chars s))
  | _ => None
  end.

(** ** Exceptions *)

Inductive exn := TypeError | AttributeError | RecursionError | ValueError.

(** The result of running a block on a record: it completed, or an
    exception left it with the record as mutated so far. *)
Inductive outcome (S : Type) :=
| Done (s : S)
| Raised (e : exn) (s : S).
Arguments Done {S} s.
Arguments Raised {S} e s.

(** Sequencing of blocks on one record: an exception skips what follows. *)
Definition and_then {S} (o : outcome S) (k : S -> outcome S) : outcome S :=
  match o with
  | Done s => k s
  | Raised e s => Raised e s
  end.

Notation "o >>> k" := (and_then o k) (at level 50, left associativity).

(** Running a block on a component of a record. *)
Definition zoom {S A} (get : S -> A) (put : A -> S -> S)
  (f : A -> outcome A) (s : S) : outcome S :=
  match f (get s) with
  | Done a => Done (put a s)
  | Raised e a => Raised e (put a s)
  end.

(** A [for] loop whose body may raise. *)
Fixpoint for_each {X S} (body : X -> S -> outcome S) (xs : list X) (s : S)
  : outcome S :=
  match xs with
  | [] => Done s
  | x :: xs' =>
      match body x s with
      | Done s' => for_each body xs' s'
      | Raised e s' => Raised e s'
      end
  end.

Definition completed {S} (o : outcome S) : Prop :=
  match o with Done _ => True | Raised _ _ => False end.

Definition final {S} (o : outcome S) : S :=
  match o with Done s => s | Raised _ s => s end.

(** ** The host's data: custom properties, data blocks, scene objects *)

(** A text data block ([bpy.types.Text]); [text_lines] are the bodies of
    its lines. *)
Record Text := { text_lines : list string }.

(** A custom property as [obj.get(key)] returns it. *)
Inductive idprop :=
| IDStr (s : string)
| IDInt (z : Z)
| IDTextBlock (t : Text)
| IDOther.

(** A mesh data block; [shape_keys] is [None] for a mesh without shape
    keys, otherwise the names of [shape_keys.key_blocks]. *)
Record Mesh := { shape_keys : option (list string) }.

(** [bpy.data]: data blocks by name. *)
Record BlendData := {
  texts : gmap string Text;
  images : gset string;
  meshes : gmap string Mesh;
  materials : gset string;
}.

(** A child object of the rig. *)
Record Object := {
  object_name : string;
  object_type : string;
  empty_display_type : string;
  parent_type : string;
  parent_bone : string;
}.

(** ** The normalized VRM0 document *)

Record Meta := {
  allowed_user_name : string;
  author : string;
  commercial_ussage_name : string;
  contact_information : string;
  license_name : string;
  other_license_url : string;
  other_permission_url : string;
  reference : string;
  sexual_ussage_name : string;
  title : string;
  version : string;
  violent_ussage_name : string;
  texture : option string;
}.

(** One entry of [humanoid.human_bones]: the role [bone] and the value of
    its bone reference [node]. *)
Record HumanBone := {
  bone : string;
  node : string;
}.

Record Humanoid := {
  human_bones : list HumanBone;
  arm_stretch : number;
  leg_stretch : number;
  upper_arm_twist : number;
  lower_arm_twist : number;
  upper_leg_twist : number;
  lower_leg_twist : number;
  feet_spacing : number;
  has_translation_dof : bool;
  last_bone_names : list string;
}.

Record MeshAnnotation := {
  annotation_mesh : string;
  first_person_flag : string;
}.

Record LookAt := {
  curve : list number;
  x_range : number;
  y_range : number;
}.

Record FirstPerson := {
  first_person_bone : string;
  first_person_bone_offset : number * number * number;
  mesh_annotations : list MeshAnnotation;
  look_at_type_name : string;
  look_at_horizontal_inner : LookAt;
  look_at_horizontal_outer : LookAt;
  look_at_vertical_down : LookAt;
  look_at_vertical_up : LookAt;
}.

Record Bind := {
  bind_mesh : string;
  bind_index : string;
  weight : number;
}.

Record MaterialValue := {
  material : option string;
  property_name : string;
  target_value : list number;
}.

Record BlendShapeGroup := {
  group_name : string;
  preset_name : string;
  binds : list Bind;
  material_values : list MaterialValue;
  is_binary : bool;
}.

Record Collider := { blender_object : option Object }.

Record ColliderGroup := {
  collider_group_name : string;
  uuid : string;
  collider_group_node : string;
  colliders : list Collider;
}.

Record BoneGroup := {
  comment : string;
  stiffiness : number;
  gravity_power : number;
  gravity_dir : number * number * number;
  drag_force : number;
  center : string;
  hit_radius : number;
  bones : list string;
  bone_group_collider_groups : list string;
}.

Record SecondaryAnimation := {
  collider_groups : list ColliderGroup;
  bone_groups : list BoneGroup;
}.

Record Vrm0 := {
  meta : Meta;
  humanoid : Humanoid;
  first_person : FirstPerson;
  blend_shape_groups : list BlendShapeGroup;
  secondary_animation : SecondaryAnimation;
}.

(** [armature.data.vrm_addon_extension]. *)
Record Extension := {
  addon_version : Z * Z * Z;
  vrm0 : Vrm0;
}.

(** The rig object, [armature : bpy.types.Object], as the migration sees
    it. *)
Record ArmatureObject := {
  object_props : gmap string idprop;   (* armature.get(key) *)
  data_props : gmap string idprop;     (* armature.data.get(key) *)
  data_bones : list string;            (* names in armature.data.bones *)
  children : list Object;              (* armature.children *)
}.

(** The mutable state of a migration: the rig's document and the number of
    identifiers drawn from [uuid.uuid4()] so far. *)
Record Rig := {
  armature : ArmatureObject;
  ext : Extension;
  uuid_draws : nat;
}.

(** ** Field updates *)

(** [set_f v r] is the record [r] after the assignment [r.f = v]. *)

Definition set_allowed_user_name v (r : Meta) : Meta :=
  {| allowed_user_name := v; author := author r; commercial_ussage_name :=
     commercial_ussage_name r; contact_information := contact_information r;
     license_name := license_name r; other_license_url := other_license_url
     r; other_permission_url := other_permission_url r; reference :=
     reference r; sexual_ussage_name := sexual_ussage_name r; title := title
     r; version := version r; violent_ussage_name := violent_ussage_name r;
     texture := texture r |}.

Definition set_author v (r : Meta) : Meta :=
  {| allowed_user_name := allowed_user_name r; author := v;
     commercial_ussage_name := commercial_ussage_name r; contact_information
     := contact_information r; license_name := license_name r;
     other_license_url := other_license_url r; other_permission_url :=
     other_permission_url r; reference := reference r; sexual_ussage_name :=
     sexual_ussage_name r; title := title r; version := version r;
     violent_ussage_name := violent_ussage_name r; texture := texture r |}.

Definition set_commercial_ussage_name v (r : Meta) : Meta :=
  {| allowed_user_name := allowed_user_name r; author := author r;
     commercial_ussage_name := v; contact_information := contact_information
     r; license_name := license_name r; other_license_url :=
     other_license_url r; other_permission_url := other_permission_url r;
     reference := reference r; sexual_ussage_name := sexual_ussage_name r;
     title := title r; version := version r; violent_ussage_name :=
     violent_ussage_name r; texture := texture r |}.

Definition set_contact_information v (r : Meta) : Meta :=
  {| allowed_user_name := allowed_user_name r; author := author r;
     commercial_ussage_name := commercial_ussage_name r; contact_information
     := v; license_name := license_name r; other_license_url :=
     other_license_url r; other_permission_url := other_permission_url r;
     reference := reference r; sexual_ussage_name := sexual_ussage_name r;
     title := title r; version := version r; violent_ussage_name :=
     violent_ussage_name r; texture := texture r |}.

Definition set_license_name v (r : Meta) : Meta :=
  {| allowed_user_name := allowed_user_name r; author := author r;
     commercial_ussage_name := commercial_ussage_name r; contact_information
     := contact_information r; license_name := v; other_license_url :=
     other_license_url r; other_permission_url := other_permission_url r;
     reference := reference r; sexual_ussage_name := sexual_ussage_name r;
     title := title r; version := version r; violent_ussage_name :=
     violent_ussage_name r; texture := texture r |}.

Definition set_other_license_url v (r : Meta) : Meta :=
  {| allowed_user_name := allowed_user_name r; author := author r;
     commercial_ussage_name := commercial_ussage_name r; contact_information
     := contact_information r; license_name := license_name r;
     other_license_url := v; other_permission_url := other_permission_url r;
     reference := reference r; sexual_ussage_name := sexual_ussage_name r;
     title := title r; version := version r; violent_ussage_name :=
     violent_ussage_name r; texture := texture r |}.

Definition set_other_permission_url v (r : Meta) : Meta :=
  {| allowed_user_name := allowed_user_name r; author := author r;
     commercial_ussage_name := commercial_ussage_name r; contact_information
     := contact_information r; license_name := license_name r;
     other_license_url := other_license_url r; other_permission_url := v;
     reference := reference r; sexual_ussage_name := sexual_ussage_name r;
     title := title r; version := version r; violent_ussage_name :=
     violent_ussage_name r; texture := texture r |}.

Definition set_reference v (r : Meta) : Meta :=
  {| allowed_user_name := allowed_user_name r; author := author r;
     commercial_ussage_name := commercial_ussage_name r; contact_information
     := contact_information r; license_name := license_name r;
     other_license_url := other_license_url r; other_permission_url :=
     other_permission_url r; reference := v; sexual_ussage_name :=
     sexual_ussage_name r; title := title r; version := version r;
     violent_ussage_name := violent_ussage_name r; texture := texture r |}.

Definition set_sexual_ussage_name v (r : Meta) : Meta :=
  {| allowed_user_name := allowed_user_name r; author := author r;
     commercial_ussage_name := commercial_ussage_name r; contact_information
     := contact_information r; license_name := license_name r;
     other_license_url := other_license_url r; other_permission_url :=
     other_permission_url r; reference := reference r; sexual_ussage_name :=
     v; title := title r; version := version r; violent_ussage_name :=
     violent_ussage_name r; texture := texture r |}.

Definition set_title v (r : Meta) : Meta :=
  {| allowed_user_name := allowed_user_name r; author := author r;
     commercial_ussage_name := commercial_ussage_name r; contact_information
     := contact_information r; license_name := license_name r;
     other_license_url := other_license_url r; other_permission_url :=
     other_permission_url r; reference := reference r; sexual_ussage_name :=
     sexual_ussage_name r; title := v; version := version r;
     violent_ussage_name := violent_ussage_name r; texture := texture r |}.

Definition set_version v (r : Meta) : Meta :=
  {| allowed_user_name := allowed_user_name r; author := author r;
     commercial_ussage_name := commercial_ussage_name r; contact_information
     := contact_information r; license_name := license_name r;
     other_license_url := other_license_url r; other_permission_url :=
     other_permission_url r; reference := reference r; sexual_ussage_name :=
     sexual_ussage_name r; title := title r; version := v;
     violent_ussage_name := violent_ussage_name r; texture := texture r |}.

Definition set_violent_ussage_name v (r : Meta) : Meta :=
  {| allowed_user_name := allowed_user_name r; author := author r;
     commercial_ussage_name := commercial_ussage_name r; contact_information
     := contact_information r; license_name := license_name r;
     other_license_url := other_license_url r; other_permission_url :=
     other_permission_url r; reference := reference r; sexual_ussage_name :=
     sexual_ussage_name r; title := title r; version := version r;
     violent_ussage_name := v; texture := texture r |}.

Definition set_texture v (r : Meta) : Meta :=
  {| allowed_user_name := allowed_user_name r; author := author r;
     commercial_ussage_name := commercial_ussage_name r; contact_information
     := contact_information r; license_name := license_name r;
     other_license_url := other_license_url r; other_permission_url :=
     other_permission_url r; reference := reference r; sexual_ussage_name :=
     sexual_ussage_name r; title := title r; version := version r;
     violent_ussage_name := violent_ussage_name r; texture := v |}.

Definition set_node v (r : HumanBone) : HumanBone :=
  {| bone := bone r; node := v |}.

Definition set_human_bones v (r : Humanoid) : Humanoid :=
  {| human_bones := v; arm_stretch := arm_stretch r; leg_stretch :=
     leg_stretch r; upper_arm_twist := upper_arm_twist r; lower_arm_twist :=
     lower_arm_twist r; upper_leg_twist := upper_leg_twist r;
     lower_leg_twist := lower_leg_twist r; feet_spacing := feet_spacing r;
     has_translation_dof := has_translation_dof r; last_bone_names :=
     last_bone_names r |}.

Definition set_arm_stretch v (r : Humanoid) : Humanoid :=
  {| human_bones := human_bones r; arm_stretch := v; leg_stretch :=
     leg_stretch r; upper_arm_twist := upper_arm_twist r; lower_arm_twist :=
     lower_arm_twist r; upper_leg_twist := upper_leg_twist r;
     lower_leg_twist := lower_leg_twist r; feet_spacing := feet_spacing r;
     has_translation_dof := has_translation_dof r; last_bone_names :=
     last_bone_names r |}.

Definition set_leg_stretch v (r : Humanoid) : Humanoid :=
  {| human_bones := human_bones r; arm_stretch := arm_stretch r; leg_stretch
     := v; upper_arm_twist := upper_arm_twist r; lower_arm_twist :=
     lower_arm_twist r; upper_leg_twist := upper_leg_twist r;
     lower_leg_twist := lower_leg_twist r; feet_spacing := feet_spacing r;
     has_translation_dof := has_translation_dof r; last_bone_names :=
     last_bone_names r |}.

Definition set_upper_arm_twist v (r : Humanoid) : Humanoid :=
  {| human_bones := human_bones r; arm_stretch := arm_stretch r; leg_stretch
     := leg_stretch r; upper_arm_twist := v; lower_arm_twist :=
     lower_arm_twist r; upper_leg_twist := upper_leg_twist r;
     lower_leg_twist := lower_leg_twist r; feet_spacing := feet_spacing r;
     has_translation_dof := has_translation_dof r; last_bone_names :=
     last_bone_names r |}.

Definition set_lower_arm_twist v (r : Humanoid) : Humanoid :=
  {| human_bones := human_bones r; arm_stretch := arm_stretch r; leg_stretch
     := leg_stretch r; upper_arm_twist := upper_arm_twist r; lower_arm_twist
     := v; upper_leg_twist := upper_leg_twist r; lower_leg_twist :=
     lower_leg_twist r; feet_spacing := feet_spacing r; has_translation_dof
     := has_translation_dof r; last_bone_names := last_bone_names r |}.

Definition set_upper_leg_twist v (r : Humanoid) : Humanoid :=
  {| human_bones := human_bones r; arm_stretch := arm_stretch r; leg_stretch
     := leg_stretch r; upper_arm_twist := upper_arm_twist r; lower_arm_twist
     := lower_arm_twist r; upper_leg_twist := v; lower_leg_twist :=
     lower_leg_twist r; feet_spacing := feet_spacing r; has_translation_dof
     := has_translation_dof r; last_bone_names := last_bone_names r |}.

Definition set_lower_leg_twist v (r : Humanoid) : Humanoid :=
  {| human_bones := human_bones r; arm_stretch := arm_stretch r; leg_stretch
     := leg_stretch r; upper_arm_twist := upper_arm_twist r; lower_arm_twist
     := lower_arm_twist r; upper_leg_twist := upper_leg_twist r;
     lower_leg_twist := v; feet_spacing := feet_spacing r;
     has_translation_dof := has_translation_dof r; last_bone_names :=
     last_bone_names r |}.

Definition set_feet_spacing v (r : Humanoid) : Humanoid :=
  {| human_bones := human_bones r; arm_stretch := arm_stretch r; leg_stretch
     := leg_stretch r; upper_arm_twist := upper_arm_twist r; lower_arm_twist
     := lower_arm_twist r; upper_leg_twist := upper_leg_twist r;
     lower_leg_twist := lower_leg_twist r; feet_spacing := v;
     has_translation_dof := has_translation_dof r; last_bone_names :=
     last_bone_names r |}.

Definition set_has_translation_dof v (r : Humanoid) : Humanoid :=
  {| human_bones := human_bones r; arm_stretch := arm_stretch r; leg_stretch
     := leg_stretch r; upper_arm_twist := upper_arm_twist r; lower_arm_twist
     := lower_arm_twist r; upper_leg_twist := upper_leg_twist r;
     lower_leg_twist := lower_leg_twist r; feet_spacing := feet_spacing r;
     has_translation_dof := v; last_bone_names := last_bone_names r |}.

Definition set_last_bone_names v (r : Humanoid) : Humanoid :=
  {| human_bones := human_bones r; arm_stretch := arm_stretch r; leg_stretch
     := leg_stretch r; upper_arm_twist := upper_arm_twist r; lower_arm_twist
     := lower_arm_twist r; upper_leg_twist := upper_leg_twist r;
     lower_leg_twist := lower_leg_twist r; feet_spacing := feet_spacing r;
     has_translation_dof := has_translation_dof r; last_bone_names := v |}.

Definition set_annotation_mesh v (r : MeshAnnotation) : MeshAnnotation :=
  {| annotation_mesh := v; first_person_flag := first_person_flag r |}.

Definition set_first_person_flag v (r : MeshAnnotation) : MeshAnnotation :=
  {| annotation_mesh := annotation_mesh r; first_person_flag := v |}.

Definition set_curve v (r : LookAt) : LookAt :=
  {| curve := v; x_range := x_range r; y_range := y_range r |}.

Definition set_x_range v (r : LookAt) : LookAt :=
  {| curve := curve r; x_range := v; y_range := y_range r |}.

Definition set_y_range v (r : LookAt) : LookAt :=
  {| curve := curve r; x_range := x_range r; y_range := v |}.

Definition set_first_person_bone v (r : FirstPerson) : FirstPerson :=
  {| first_person_bone := v; first_person_bone_offset :=
     first_person_bone_offset r; mesh_annotations := mesh_annotations r;
     look_at_type_name := look_at_type_name r; look_at_horizontal_inner :=
     look_at_horizontal_inner r; look_at_horizontal_outer :=
     look_at_horizontal_outer r; look_at_vertical_down :=
     look_at_vertical_down r; look_at_vertical_up := look_at_vertical_up r
     |}.

Definition set_first_person_bone_offset v (r : FirstPerson) : FirstPerson :=
  {| first_person_bone := first_person_bone r; first_person_bone_offset :=
     v; mesh_annotations := mesh_annotations r; look_at_type_name :=
     look_at_type_name r; look_at_horizontal_inner :=
     look_at_horizontal_inner r; look_at_horizontal_outer :=
     look_at_horizontal_outer r; look_at_vertical_down :=
     look_at_vertical_down r; look_at_vertical_up := look_at_vertical_up r
     |}.

Definition set_mesh_annotations v (r : FirstPerson) : FirstPerson :=
  {| first_person_bone := first_person_bone r; first_person_bone_offset :=
     first_person_bone_offset r; mesh_annotations := v; look_at_type_name :=
     look_at_type_name r; look_at_horizontal_inner :=
     look_at_horizontal_inner r; look_at_horizontal_outer :=
     look_at_horizontal_outer r; look_at_vertical_down :=
     look_at_vertical_down r; look_at_vertical_up := look_at_vertical_up r
     |}.

Definition set_look_at_type_name v (r : FirstPerson) : FirstPerson :=
  {| first_person_bone := first_person_bone r; first_person_bone_offset :=
     first_person_bone_offset r; mesh_annotations := mesh_annotations r;
     look_at_type_name := v; look_at_horizontal_inner :=
     look_at_horizontal_inner r; look_at_horizontal_outer :=
     look_at_horizontal_outer r; look_at_vertical_down :=
     look_at_vertical_down r; look_at_vertical_up := look_at_vertical_up r
     |}.

Definition set_look_at_horizontal_inner v (r : FirstPerson) : FirstPerson :=
  {| first_person_bone := first_person_bone r; first_person_bone_offset :=
     first_person_bone_offset r; mesh_annotations := mesh_annotations r;
     look_at_type_name := look_at_type_name r; look_at_horizontal_inner :=
     v; look_at_horizontal_outer := look_at_horizontal_outer r;
     look_at_vertical_down := look_at_vertical_down r; look_at_vertical_up
     := look_at_vertical_up r |}.

Definition set_look_at_horizontal_outer v (r : FirstPerson) : FirstPerson :=
  {| first_person_bone := first_person_bone r; first_person_bone_offset :=
     first_person_bone_offset r; mesh_annotations := mesh_annotations r;
     look_at_type_name := look_at_type_name r; look_at_horizontal_inner :=
     look_at_horizontal_inner r; look_at_horizontal_outer := v;
     look_at_vertical_down := look_at_vertical_down r; look_at_vertical_up
     := look_at_vertical_up r |}.

Definition set_look_at_vertical_down v (r : FirstPerson) : FirstPerson :=
  {| first_person_bone := first_person_bone r; first_person_bone_offset :=
     first_person_bone_offset r; mesh_annotations := mesh_annotations r;
     look_at_type_name := look_at_type_name r; look_at_horizontal_inner :=
     look_at_horizontal_inner r; look_at_horizontal_outer :=
     look_at_horizontal_outer r; look_at_vertical_down := v;
     look_at_vertical_up := look_at_vertical_up r |}.

Definition set_look_at_vertical_up v (r : FirstPerson) : FirstPerson :=
  {| first_person_bone := first_person_bone r; first_person_bone_offset :=
     first_person_bone_offset r; mesh_annotations := mesh_annotations r;
     look_at_type_name := look_at_type_name r; look_at_horizontal_inner :=
     look_at_horizontal_inner r; look_at_horizontal_outer :=
     look_at_horizontal_outer r; look_at_vertical_down :=
     look_at_vertical_down r; look_at_vertical_up := v |}.

Definition set_bind_mesh v (r : Bind) : Bind :=
  {| bind_mesh := v; bind_index := bind_index r; weight := weight r |}.

Definition set_bind_index v (r : Bind) : Bind :=
  {| bind_mesh := bind_mesh r; bind_index := v; weight := weight r |}.

Definition set_weight v (r : Bind) : Bind :=
  {| bind_mesh := bind_mesh r; bind_index := bind_index r; weight := v |}.

Definition set_material v (r : MaterialValue) : MaterialValue :=
  {| material := v; property_name := property_name r; target_value :=
     target_value r |}.

Definition set_property_name v (r : MaterialValue) : MaterialValue :=
  {| material := material r; property_name := v; target_value :=
     target_value r |}.

Definition set_target_value v (r : MaterialValue) : MaterialValue :=
  {| material := material r; property_name := property_name r; target_value
     := v |}.

Definition set_group_name v (r : BlendShapeGroup) : BlendShapeGroup :=
  {| group_name := v; preset_name := preset_name r; binds := binds r;
     material_values := material_values r; is_binary := is_binary r |}.

Definition set_preset_name v (r : BlendShapeGroup) : BlendShapeGroup :=
  {| group_name := group_name r; preset_name := v; binds := binds r;
     material_values := material_values r; is_binary := is_binary r |}.

Definition set_binds v (r : BlendShapeGroup) : BlendShapeGroup :=
  {| group_name := group_name r; preset_name := preset_name r; binds := v;
     material_values := material_values r; is_binary := is_binary r |}.

Definition set_material_values v (r : BlendShapeGroup) : BlendShapeGroup :=
  {| group_name := group_name r; preset_name := preset_name r; binds :=
     binds r; material_values := v; is_binary := is_binary r |}.

Definition set_is_binary v (r : BlendShapeGroup) : BlendShapeGroup :=
  {| group_name := group_name r; preset_name := preset_name r; binds :=
     binds r; material_values := material_values r; is_binary := v |}.

Definition set_collider_group_name v (r : ColliderGroup) : ColliderGroup :=
  {| collider_group_name := v; uuid := uuid r; collider_group_node :=
     collider_group_node r; colliders := colliders r |}.

Definition set_uuid v (r : ColliderGroup) : ColliderGroup :=
  {| collider_group_name := collider_group_name r; uuid := v;
     collider_group_node := collider_group_node r; colliders := colliders r
     |}.

Definition set_collider_group_node v (r : ColliderGroup) : ColliderGroup :=
  {| collider_group_name := collider_group_name r; uuid := uuid r;
     collider_group_node := v; colliders := colliders r |}.

Definition set_colliders v (r : ColliderGroup) : ColliderGroup :=
  {| collider_group_name := collider_group_name r; uuid := uuid r;
     collider_group_node := collider_group_node r; colliders := v |}.

Definition set_comment v (r : BoneGroup) : BoneGroup :=
  {| comment := v; stiffiness := stiffiness r; gravity_power :=
     gravity_power r; gravity_dir := gravity_dir r; drag_force := drag_force
     r; center := center r; hit_radius := hit_radius r; bones := bones r;
     bone_group_collider_groups := bone_group_collider_groups r |}.

Definition set_stiffiness v (r : BoneGroup) : BoneGroup :=
  {| comment := comment r; stiffiness := v; gravity_power := gravity_power
     r; gravity_dir := gravity_dir r; drag_force := drag_force r; center :=
     center r; hit_radius := hit_radius r; bones := bones r;
     bone_group_collider_groups := bone_group_collider_groups r |}.

Definition set_gravity_power v (r : BoneGroup) : BoneGroup :=
  {| comment := comment r; stiffiness := stiffiness r; gravity_power := v;
     gravity_dir := gravity_dir r; drag_force := drag_force r; center :=
     center r; hit_radius := hit_radius r; bones := bones r;
     bone_group_collider_groups := bone_group_collider_groups r |}.

Definition set_gravity_dir v (r : BoneGroup) : BoneGroup :=
  {| comment := comment r; stiffiness := stiffiness r; gravity_power :=
     gravity_power r; gravity_dir := v; drag_force := drag_force r; center
     := center r; hit_radius := hit_radius r; bones := bones r;
     bone_group_collider_groups := bone_group_collider_groups r |}.

Definition set_drag_force v (r : BoneGroup) : BoneGroup :=
  {| comment := comment r; stiffiness := stiffiness r; gravity_power :=
     gravity_power r; gravity_dir := gravity_dir r; drag_force := v; center
     := center r; hit_radius := hit_radius r; bones := bones r;
     bone_group_collider_groups := bone_group_collider_groups r |}.

Definition set_center v (r : BoneGroup) : BoneGroup :=
  {| comment := comment r; stiffiness := stiffiness r; gravity_power :=
     gravity_power r; gravity_dir := gravity_dir r; drag_force := drag_force
     r; center := v; hit_radius := hit_radius r; bones := bones r;
     bone_group_collider_groups := bone_group_collider_groups r |}.

Definition set_hit_radius v (r : BoneGroup) : BoneGroup :=
  {| comment := comment r; stiffiness := stiffiness r; gravity_power :=
     gravity_power r; gravity_dir := gravity_dir r; drag_force := drag_force
     r; center := center r; hit_radius := v; bones := bones r;
     bone_group_collider_groups := bone_group_collider_groups r |}.

Definition set_bones v (r : BoneGroup) : BoneGroup :=
  {| comment := comment r; stiffiness := stiffiness r; gravity_power :=
     gravity_power r; gravity_dir := gravity_dir r; drag_force := drag_force
     r; center := center r; hit_radius := hit_radius r; bones := v;
     bone_group_collider_groups := bone_group_collider_groups r |}.

Definition set_bone_group_collider_groups v (r : BoneGroup) : BoneGroup :=
  {| comment := comment r; stiffiness := stiffiness r; gravity_power :=
     gravity_power r; gravity_dir := gravity_dir r; drag_force := drag_force
     r; center := center r; hit_radius := hit_radius r; bones := bones r;
     bone_group_collider_groups := v |}.

Definition set_collider_groups v (r : SecondaryAnimation) : SecondaryAnimation :=
  {| collider_groups := v; bone_groups := bone_groups r |}.

Definition set_bone_groups v (r : SecondaryAnimation) : SecondaryAnimation :=
  {| collider_groups := collider_groups r; bone_groups := v |}.

Definition set_meta v (r : Vrm0) : Vrm0 :=
  {| meta := v; humanoid := humanoid r; first_person := first_person r;
     blend_shape_groups := blend_shape_groups r; secondary_animation :=
     secondary_animation r |}.

Definition set_humanoid v (r : Vrm0) : Vrm0 :=
  {| meta := meta r; humanoid := v; first_person := first_person r;
     blend_shape_groups := blend_shape_groups r; secondary_animation :=
     secondary_animation r |}.

Definition set_first_person v (r : Vrm0) : Vrm0 :=
  {| meta := meta r; humanoid := humanoid r; first_person := v;
     blend_shape_groups := blend_shape_groups r; secondary_animation :=
     secondary_animation r |}.

Definition set_blend_shape_groups v (r : Vrm0) : Vrm0 :=
  {| meta := meta r; humanoid := humanoid r; first_person := first_person r;
     blend_shape_groups := v; secondary_animation := secondary_animation r
     |}.

Definition set_secondary_animation v (r : Vrm0) : Vrm0 :=
  {| meta := meta r; humanoid := humanoid r; first_person := first_person r;
     blend_shape_groups := blend_shape_groups r; secondary_animation := v
     |}.

Definition set_vrm0 v (r : Extension) : Extension :=
  {| addon_version := addon_version r; vrm0 := v |}.

Definition set_ext v (r : Rig) : Rig :=
  {| armature := armature r; ext := v; uuid_draws := uuid_draws r |}.

Definition set_uuid_draws v (r : Rig) : Rig :=
  {| armature := armature r; ext := ext r; uuid_draws := v |}.

(** What [json.loads] does with a text: it returns the document, with the
    pairs of each object in textual order, it rejects the text as malformed
    with [json.JSONDecodeError], or it raises something else, as it does on
    a text nested deeper than the interpreter recurses ([RecursionError])
    or holding an integer longer than the interpreter converts
    ([ValueError]). *)
Inductive decoded :=
| Decoded (v : json)
| JSONDecodeError
| DecoderRaised (e : exn).

(** ** What the migration module imports

    [migration.py] relies on the standard library ([json], [uuid]), on
    [common/convert.py] and [common/human_bone.py], and on the property
    groups declared in [vrm0/property_group.py]. None of these is part of
    the module; they are collected in one record, and every definition below
    is parameterised by it.

    The four methods taken from the property groups carry in their types the
    frame the design gives them: each rewrites the record it is invoked on
    and only reads the rig. *)
Record Host := {
  (** [json.loads] before the pairs hook; see [decoded]. *)
  json_decode : string -> decoded;
  (** [uuid.uuid4().hex] at the n-th draw. *)
  uuid4_hex : nat -> string;
  (** [HumanBoneSpecifications.all_names]. *)
  all_names : list string;
  (** [convert.vrm_json_vector3_to_tuple], [convert.vrm_json_curve_to_list]. *)
  vrm_json_vector3_to_tuple : json -> option (number * number * number);
  vrm_json_curve_to_list : json -> option (list number);
  (** The identifiers the two enum properties accept. *)
  preset_name_items : list string;
  first_person_flag_items : list string;
  (** Whether the string property of the meta record with the given name
      accepts the given string: a plain string property accepts every
      string, an enum its identifiers. *)
  meta_accepts : string -> string -> bool;
  (** The declared defaults of the scalar properties of a new element. *)
  default_mesh_annotation : MeshAnnotation;
  default_bind : Bind;
  default_material_value : MaterialValue;
  default_target_value : number;
  default_blend_shape_group : BlendShapeGroup;
  default_bone_group : BoneGroup;
  (** [Vrm0HumanoidPropertyGroup.fixup_human_bones]. *)
  fixup_human_bones : ArmatureObject -> list HumanBone -> list HumanBone;
  (** [refresh] of a collider group and of a bone group. *)
  collider_group_refresh : ArmatureObject -> ColliderGroup -> ColliderGroup;
  bone_group_refresh : ArmatureObject -> BoneGroup -> BoneGroup;
  (** [Vrm0HumanoidPropertyGroup.check_last_bone_names_and_update], from
      the cache it finds to the cache it leaves. *)
  check_last_bone_names_and_update :
    ArmatureObject -> list string -> list string;
}.

(** [collection.add()]: the new element has the declared scalar defaults
    and empty collections. *)
Definition add_bind (H : Host) : Bind := default_bind H.

Definition add_mesh_annotation (H : Host) : MeshAnnotation :=
  default_mesh_annotation H.

Definition add_material_value (H : Host) : MaterialValue :=
  set_target_value [] (default_material_value H).

Definition add_blend_shape_group (H : Host) : BlendShapeGroup :=
  set_binds [] (set_material_values [] (default_blend_shape_group H)).

Definition add_bone_group (H : Host) : BoneGroup :=
  set_bones [] (set_bone_group_collider_groups [] (default_bone_group H)).

(** [x = xs.add()] followed by a block on [x]. *)
Definition add_then {X} (new : X) (block : X -> outcome X) (xs : list X)
  : outcome (list X) :=
  match block new with
  | Done x => Done (xs ++ [x])
  | Raised e x => Raised e (xs ++ [x])
  end.

(** [if isinstance(v, T): r.f = v], with [o] the outcome of the test. *)
Definition assign_if {A R} (o : option A) (set : A -> R -> R) (r : R) : R :=
  match o with
  | Some a => set a r
  | None => r
  end.

(** Assignment to a string property: anything but a [str] is refused. *)
Definition assign_string {R} (v : json) (set : string -> R -> R) (r : R)
  : outcome R :=
  match v with
  | JStr s => Done (set s r)
  | _ => Raised TypeError r
  end.

(** Assignment to an enum property: anything but one of its identifiers is
    refused. *)
Definition assign_enum {R} (items : list string) (v : json)
  (set : string -> R -> R) (r : R) : outcome R :=
  match v with
  | JStr s => if bool_decide (s ∈ items) then Done (set s r)
              else Raised TypeError r
  | _ => Raised TypeError r
  end.

(** Assignment to a string property of the meta record. *)
Definition assign_meta {R} (H : Host) (property : string) (v : string)
  (set : string -> R -> R) (r : R) : outcome R :=
  if meta_accepts H property v then Done (set v r) else Raised TypeError r.

(** Assignment to a float property. The host converts the value to a
    double and refuses, with [TypeError], an [int] that has none: one that
    rounds to two to the power 1024 or beyond. *)
Definition float_property_accepts (v : number) : bool :=
  match v with
  | PyInt z => Z.abs z <? 2 ^ 1024 - 2 ^ 970
  | PyFloat _ _ => true
  end.

Definition assign_float {R} (v : number) (set : number -> R -> R) (r : R)
  : outcome R :=
  if float_property_accepts v then Done (set v r) else Raised TypeError r.

(** ** The legacy data reader *)

(** [isinstance(x, str)] on a custom property. *)
Definition idprop_str (p : option idprop) : option string :=
  match p with
  | Some (IDStr s) => Some s
  | _ => None
  end.

(** The reader returns a value, [inr], or raises, [inl]: of what the
    decoder raises only [json.JSONDecodeError] is suppressed. *)
Definition read_textblock_json (H : Host) (bpy : BlendData)
  (armature : ArmatureObject) (armature_key : string) : exn + json :=
  let text_key := object_props armature !! armature_key in
  let textblock :=
    match text_key with
    | Some (IDTextBlock t) => Some t
    | Some (IDStr s) => texts bpy !! s
    | _ => None
    end in
  match textblock with
  | None => inr JNull
  | Some textblock =>
      let textblock_str := String.concat EmptyString (text_lines textblock) in
      match json_decode H textblock_str with
      | Decoded v => inr (object_pairs_hook v)
      | JSONDecodeError => inr JNull
      | DecoderRaised e => inl e
      end
  end.

(** ** Field migrators *)

(** [v = armature.get(key)] followed by
    [if isinstance(v, str): meta.property = v]. *)
Definition migrate_meta_field (H : Host) (armature : ArmatureObject)
  (key property : string) (set : string -> Meta -> Meta) (meta : Meta)
  : outcome Meta :=
  match idprop_str (object_props armature !! key) with
  | Some v => assign_meta H property v set meta
  | None => Done meta
  end.

Definition migrate_vrm0_meta (H : Host) (bpy : BlendData) (meta : Meta)
  (armature : ArmatureObject) : outcome Meta :=
  let field := migrate_meta_field H armature in
  field "allowedUserName" "allowed_user_name" set_allowed_user_name meta
  >>> field "author" "author" set_author
  >>> field "commercialUssageName" "commercial_ussage_name"
        set_commercial_ussage_name
  >>> field "contactInformation" "contact_information"
        set_contact_information
  >>> field "licenseName" "license_name" set_license_name
  >>> field "otherLicenseUrl" "other_license_url" set_other_license_url
  >>> field "otherPermissionUrl" "other_permission_url"
        set_other_permission_url
  >>> field "reference" "reference" set_reference
  >>> field "sexualUssageName" "sexual_ussage_name" set_sexual_ussage_name
  >>> field "title" "title" set_title
  >>> field "version" "version" set_version
  >>> field "violentUssageName" "violent_ussage_name"
        set_violent_ussage_name
  >>> fun meta =>
  match object_props armature !! "texture" with
  | None => Done meta
  | Some (IDStr texture) =>
      if bool_decide (texture ∈ images bpy)
      then Done (set_texture (Some texture) meta)
      else Done meta
  | Some _ => Raised TypeError meta   (* a key that is not a name *)
  end.

Definition migrate_vrm0_humanoid (humanoid : Humanoid) (humanoid_dict : json)
  : Humanoid :=
  match humanoid_dict with
  | JObj d =>
      let humanoid := assign_if (as_number (dict_get "armStretch" d))
                        set_arm_stretch humanoid in
      let humanoid := assign_if (as_number (dict_get "legStretch" d))
                        set_leg_stretch humanoid in
      let humanoid := assign_if (as_number (dict_get "upperArmTwist" d))
                        set_upper_arm_twist humanoid in
      let humanoid := assign_if (as_number (dict_get "lowerArmTwist" d))
                        set_lower_arm_twist humanoid in
      let humanoid := assign_if (as_number (dict_get "upperLegTwist" d))
                        set_upper_leg_twist humanoid in
      let humanoid := assign_if (as_number (dict_get "lowerLegTwist" d))
                        set_lower_leg_twist humanoid in
      let humanoid := assign_if (as_number (dict_get "feetSpacing" d))
                        set_feet_spacing humanoid in
      assign_if (as_bool (dict_get "hasTranslationDoF" d))
        set_has_translation_dof humanoid
  | _ => humanoid
  end.

(** The body of the loop over [meshAnnotations], on the element just added. *)
Definition migrate_mesh_annotation (H : Host) (bpy : BlendData)
  (mesh_annotation_dict : json) (mesh_annotation : MeshAnnotation)
  : outcome MeshAnnotation :=
  match mesh_annotation_dict with
  | JObj d =>
      let mesh_annotation :=
        match dict_get "mesh" d with
        | JStr mesh =>
            match meshes bpy !! mesh with
            | Some _ => set_annotation_mesh mesh mesh_annotation
            | None => mesh_annotation
            end
        | _ => mesh_annotation
        end in
      match dict_get "firstPersonFlag" d with
      | JStr first_person_flag =>
          assign_enum (first_person_flag_items H) (JStr first_person_flag)
            set_first_person_flag mesh_annotation
      | _ => Done mesh_annotation
      end
  | _ => Done mesh_annotation
  end.

(** The body of the loop over the four look-at curves. *)
Definition migrate_look_at (H : Host) (look_at : LookAt) (look_at_dict : json)
  : LookAt :=
  match look_at_dict with
  | JObj d =>
      let look_at := assign_if (vrm_json_curve_to_list H (dict_get "curve" d))
                       set_curve look_at in
      let look_at := assign_if (as_number (dict_get "xRange" d))
                       set_x_range look_at in
      assign_if (as_number (dict_get "yRange" d)) set_y_range look_at
  | _ => look_at
  end.

Definition migrate_vrm0_first_person (H : Host) (bpy : BlendData)
  (first_person : FirstPerson) (first_person_dict : json)
  : outcome FirstPerson :=
  match first_person_dict with
  | JObj d =>
      let first_person := assign_if (as_str (dict_get "firstPersonBone" d))
                            set_first_person_bone first_person in
      let first_person :=
        match vrm_json_vector3_to_tuple H
                (dict_get "firstPersonBoneOffset" d) with
        | Some (x, y, z) =>
            (* Axis confusing *)
            set_first_person_bone_offset (x, z, y) first_person
        | None => first_person
        end in
      match as_iterable (dict_get "meshAnnotations" d) with
      | Some mesh_annotation_dicts =>
          zoom mesh_annotations set_mesh_annotations
            (for_each (fun mesh_annotation_dict =>
                         add_then (add_mesh_annotation H)
                           (migrate_mesh_annotation H bpy mesh_annotation_dict))
               mesh_annotation_dicts)
            first_person
      | None => Done first_person
      end
      >>> fun first_person =>
      let first_person :=
        match dict_get "lookAtTypeName" d with
        | JStr look_at_type_name =>
            if String.eqb look_at_type_name "Bone"
               || String.eqb look_at_type_name "BlendShape"
            then set_look_at_type_name look_at_type_name first_person
            else first_person
        | _ => first_person
        end in
      let first_person :=
        set_look_at_horizontal_inner
          (migrate_look_at H (look_at_horizontal_inner first_person)
             (dict_get "lookAtHorizontalInner" d)) first_person in
      let first_person :=
        set_look_at_horizontal_outer
          (migrate_look_at H (look_at_horizontal_outer first_person)
             (dict_get "lookAtHorizontalOuter" d)) first_person in
      let first_person :=
        set_look_at_vertical_down
          (migrate_look_at H (look_at_vertical_down first_person)
             (dict_get "lookAtVerticalDown" d)) first_person in
      let first_person :=
        set_look_at_vertical_up
          (migrate_look_at H (look_at_vertical_up first_person)
             (dict_get "lookAtVerticalUp" d)) first_person in
      Done first_person
  | _ => Done first_person
  end.

(** The body of the loop over [binds], on the element just added. A mesh
    without shape keys has [shape_keys = None], and reading its
    [key_blocks] raises; the weight goes to a float property. *)
Definition migrate_bind (bpy : BlendData) (bind_dict : json) (bind : Bind)
  : outcome Bind :=
  match bind_dict with
  | JObj d =>
      match dict_get "mesh" d with
      | JStr mesh =>
          match meshes bpy !! mesh with
          | Some mesh_data =>
              let bind := set_bind_mesh mesh bind in
              match dict_get "index" d with
              | JStr index =>
                  match shape_keys mesh_data with
                  | Some key_blocks =>
                      if bool_decide (index ∈ key_blocks)
                      then Done (set_bind_index index bind)
                      else Done bind
                  | None => Raised AttributeError bind
                  end
              | _ => Done bind
              end
          | None => Done bind
          end
      | _ => Done bind
      end
      >>> fun bind =>
      match as_number (dict_get "weight" d) with
      | Some weight => assign_float weight set_weight bind
      | None => Done bind
      end
  | _ => Done bind
  end.

(** The body of the loop over [materialValues], on the element just added.
    An element of [targetValue] adds an entry to the vector and then
    assigns its value. *)
Definition migrate_material_value (H : Host) (bpy : BlendData)
  (material_value_dict : json) (material_value : MaterialValue)
  : outcome MaterialValue :=
  match material_value_dict with
  | JObj d =>
      let material_value :=
        match dict_get "materialName" d with
        | JStr material_name =>
            if bool_decide (material_name ∈ materials bpy)
            then set_material (Some material_name) material_value
            else material_value
        | _ => material_value
        end in
      let material_value := assign_if (as_str (dict_get "propertyName" d))
                              set_property_name material_value in
      match as_iterable (dict_get "targetValue" d) with
      | Some target_value_vector =>
          zoom target_value set_target_value
            (for_each (fun v =>
                         let v := match as_number v with
                                  | Some n => n
                                  | None => PyInt 0
                                  end in
                         add_then (default_target_value H)
                           (assign_float v (fun v _ => v)))
               target_value_vector)
            material_value
      | None => Done material_value
      end
  | _ => Done material_value
  end.

(** The body of the loop over the blend-shape groups, on the group just
    added. [name] and [presetName] are assigned whenever they are not
    [None]. *)
Definition migrate_blend_shape_group (H : Host) (bpy : BlendData)
  (blend_shape_group_dict : json) (blend_shape_group : BlendShapeGroup)
  : outcome BlendShapeGroup :=
  match blend_shape_group_dict with
  | JObj d =>
      match dict_get "name" d with
      | JNull => Done blend_shape_group
      | name => assign_string name set_group_name blend_shape_group
      end
      >>> (fun blend_shape_group =>
      match dict_get "presetName" d with
      | JNull => Done blend_shape_group
      | preset_name =>
          assign_enum (preset_name_items H) preset_name set_preset_name
            blend_shape_group
      end)
      >>> (fun blend_shape_group =>
      match as_iterable (dict_get "binds" d) with
      | Some bind_dicts =>
          zoom binds set_binds
            (for_each (fun bind_dict =>
                         add_then (add_bind H) (migrate_bind bpy bind_dict))
               bind_dicts)
            blend_shape_group
      | None => Done blend_shape_group
      end)
      >>> (fun blend_shape_group =>
      match as_iterable (dict_get "materialValues" d) with
      | Some material_value_dicts =>
          zoom material_values set_material_values
            (for_each (fun material_value_dict =>
                         add_then (add_material_value H)
                           (migrate_material_value H bpy material_value_dict))
               material_value_dicts)
            blend_shape_group
      | None => Done blend_shape_group
      end)
      >>> (fun blend_shape_group =>
      Done (assign_if (as_bool (dict_get "isBinary" d)) set_is_binary
              blend_shape_group))
  | _ => Done blend_shape_group
  end.

Definition migrate_vrm0_blend_shape_groups (H : Host) (bpy : BlendData)
  (blend_shape_groups : list BlendShapeGroup) (blend_shape_group_dicts : json)
  : outcome (list BlendShapeGroup) :=
  match as_iterable blend_shape_group_dicts with
  | Some dicts =>
      for_each (fun blend_shape_group_dict =>
                  add_then (add_blend_shape_group H)
                    (migrate_blend_shape_group H bpy blend_shape_group_dict))
        dicts blend_shape_groups
  | None => Done blend_shape_groups
  end.

(** ** Collider and bone-group reconstruction *)

(** The filter of the scan over [armature.children]. *)
Definition is_collider_object (armature : ArmatureObject) (child : Object)
  : bool :=
  String.eqb (object_type child) "EMPTY"
  && String.eqb (empty_display_type child) "SPHERE"
  && String.eqb (parent_type child) "BONE"
  && bool_decide (parent_bone child ∈ data_bones armature).

(** [if key not in d: d[key] = []] followed by [d[key].append(o)], on a
    dict kept in insertion order. *)
Fixpoint dict_append (key : string) (o : Object)
  (d : list (string * list Object)) : list (string * list Object) :=
  match d with
  | [] => [(key, [o])]
  | (k, os) :: d' =>
      if String.eqb k key then (k, os ++ [o]) :: d'
      else (k, os) :: dict_append key o d'
  end.

Definition bone_name_to_collider_objects (armature : ArmatureObject)
  : list (string * list Object) :=
  fold_left
    (fun d collider_object =>
       dict_append (parent_bone collider_object) collider_object d)
    (filter (fun child => is_collider_object armature child = true)
       (children armature))
    [].

(** The collider group built for one item of the dict, with the identifier
    of the given draw. A new group has the empty name. *)
Definition new_collider_group (H : Host) (draw : nat)
  (item : string * list Object) : ColliderGroup :=
  {| collider_group_name := EmptyString;
     uuid := uuid4_hex H draw;
     collider_group_node := item.1;
     colliders :=
       map (fun collider_object =>
              {| blender_object := Some collider_object |}) item.2 |}.

(** The loop over the items of the dict; each turn draws one identifier. *)
Fixpoint new_collider_groups (H : Host) (draw : nat)
  (items : list (string * list Object)) : list ColliderGroup :=
  match items with
  | [] => []
  | item :: items' =>
      new_collider_group H draw item :: new_collider_groups H (S draw) items'
  end.

(** The loop over the collider groups for one legacy name: the first group
    whose node is the name is referenced, by its name. *)
Fixpoint add_collider_group_name (collider_group_node_name : string)
  (collider_groups : list ColliderGroup) (names : list string) : list string :=
  match collider_groups with
  | [] => names
  | collider_group :: rest =>
      if negb (String.eqb (collider_group_node collider_group)
                 collider_group_node_name)
      then add_collider_group_name collider_group_node_name rest names
      else names ++ [collider_group_name collider_group]
  end.

(** The body of the loop over the legacy bone groups, on the bone group
    just added; [collider_groups] are the collider groups of the document
    at that point. A new bone reference is empty. *)
Definition migrate_bone_group (H : Host) (collider_groups : list ColliderGroup)
  (bone_group_dict : json) (bone_group : BoneGroup) : BoneGroup :=
  match bone_group_dict with
  | JObj d =>
      let bone_group := assign_if (as_str (dict_get "comment" d))
                          set_comment bone_group in
      let bone_group := assign_if (as_number (dict_get "stiffiness" d))
                          set_stiffiness bone_group in
      let bone_group := assign_if (as_number (dict_get "gravityPower" d))
                          set_gravity_power bone_group in
      let bone_group :=
        match vrm_json_vector3_to_tuple H (dict_get "gravityDir" d) with
        | Some (x, y, z) =>
            (* Axis confusing *)
            set_gravity_dir (x, z, y) bone_group
        | None => bone_group
        end in
      let bone_group := assign_if (as_number (dict_get "dragForce" d))
                          set_drag_force bone_group in
      let bone_group := assign_if (as_str (dict_get "center" d))
                          set_center bone_group in
      let bone_group := assign_if (as_number (dict_get "hitRadius" d))
                          set_hit_radius bone_group in
      let bone_group :=
        match as_iterable (dict_get "bones" d) with
        | Some bone_names =>
            fold_left
              (fun bone_group bone =>
                 let bone_prop := match bone with
                                  | JStr s => s
                                  | _ => EmptyString
                                  end in
                 set_bones (bones bone_group ++ [bone_prop]) bone_group)
              bone_names bone_group
        | None => bone_group
        end in
      match as_iterable (dict_get "colliderGroups" d) with
      | Some collider_group_node_names =>
          fold_left
            (fun bone_group collider_group_node_name =>
               match collider_group_node_name with
               | JStr name =>
                   set_bone_group_collider_groups
                     (add_collider_group_name name collider_groups
                        (bone_group_collider_groups bone_group))
                     bone_group
               | _ => bone_group
               end)
            collider_group_node_names bone_group
      | None => bone_group
      end
  | _ => bone_group
  end.

(** The result is the record and the number of identifiers drawn. *)
Definition migrate_vrm0_secondary_animation (H : Host)
  (secondary_animation : SecondaryAnimation) (bone_group_dicts : json)
  (armature : ArmatureObject) (draws : nat) : SecondaryAnimation * nat :=
  let items := bone_name_to_collider_objects armature in
  let secondary_animation :=
    set_collider_groups
      (collider_groups secondary_animation
       ++ new_collider_groups H draws items) secondary_animation in
  let secondary_animation :=
    set_collider_groups
      (map (collider_group_refresh H armature)
         (collider_groups secondary_animation)) secondary_animation in
  let bone_group_dicts :=
    match as_iterable bone_group_dicts with
    | Some dicts => dicts
    | None => []
    end in
  let secondary_animation :=
    fold_left
      (fun secondary_animation bone_group_dict =>
         set_bone_groups
           (bone_groups secondary_animation
            ++ [migrate_bone_group H (collider_groups secondary_animation)
                  bone_group_dict (add_bone_group H)])
           secondary_animation)
      bone_group_dicts secondary_animation in
  (set_bone_groups
     (map (bone_group_refresh H armature) (bone_groups secondary_animation))
     secondary_animation,
   (draws + length items)%nat).

(** ** The orchestrator *)

(** [tuple(v) >= w] on triples: the lexicographic order. *)
Definition tuple_ge (v w : Z * Z * Z) : bool :=
  match v, w with
  | (v1, v2, v3), (w1, w2, w3) =>
      (w1 <? v1)
      || ((v1 =? w1) && ((w2 <? v2) || ((v2 =? w2) && (w3 <=? v3))))
  end.

Definition rig_vrm0 (rig : Rig) : Vrm0 := vrm0 (ext rig).

Definition set_rig_vrm0 (v : Vrm0) (rig : Rig) : Rig :=
  set_ext (set_vrm0 v (ext rig)) rig.

(** The inner loop of the legacy scan: the first entry of [human_bones]
    for the role receives the bone name. *)
Fixpoint set_human_bone_node (human_bone_name bpy_bone_name : string)
  (human_bones : list HumanBone) : list HumanBone :=
  match human_bones with
  | [] => []
  | human_bone :: rest =>
      if String.eqb (bone human_bone) human_bone_name
      then set_node bpy_bone_name human_bone :: rest
      else human_bone :: set_human_bone_node human_bone_name bpy_bone_name rest
  end.

(** The scan of the legacy per-role custom properties of [armature.data],
    over the roles [names] still to visit; the state of the loop is the
    list of bone names assigned so far and [human_bones]. *)
Fixpoint migrate_human_bone_props (names : list string)
  (armature : ArmatureObject) (assigned_bpy_bone_names : list string)
  (human_bones : list HumanBone) : list string * list HumanBone :=
  match names with
  | [] => (assigned_bpy_bone_names, human_bones)
  | human_bone_name :: names' =>
      match idprop_str (data_props armature !! human_bone_name) with
      | Some bpy_bone_name =>
          if String.eqb bpy_bone_name EmptyString
             || bool_decide (bpy_bone_name ∈ assigned_bpy_bone_names)
          then migrate_human_bone_props names' armature
                 assigned_bpy_bone_names human_bones
          else migrate_human_bone_props names' armature
                 (assigned_bpy_bone_names ++ [bpy_bone_name])
                 (set_human_bone_node human_bone_name bpy_bone_name
                    human_bones)
      | None =>
          migrate_human_bone_props names' armature
            assigned_bpy_bone_names human_bones
      end
  end.

(** A call [migrator(record, read_textblock_json(armature, key))]: the
    argument is evaluated first, and when the reader raises the migrator
    is not entered. *)
Definition with_textblock_json (H : Host) (bpy : BlendData)
  (armature : ArmatureObject) (key : string)
  (migrator : json -> Rig -> outcome Rig) (rig : Rig) : outcome Rig :=
  match read_textblock_json H bpy armature key with
  | inl e => Raised e rig
  | inr legacy => migrator legacy rig
  end.

Definition migrate_legacy_custom_properties (H : Host) (bpy : BlendData)
  (rig : Rig) : outcome Rig :=
  let armature := armature rig in
  if tuple_ge (addon_version (ext rig)) (2, 0, 1) then Done rig
  else
    zoom rig_vrm0 set_rig_vrm0
      (zoom meta set_meta
         (fun meta => migrate_vrm0_meta H bpy meta armature))
      rig
    >>> with_textblock_json H bpy armature "blendshape_group"
          (fun blend_shape_group_dicts =>
             zoom rig_vrm0 set_rig_vrm0
               (zoom blend_shape_groups set_blend_shape_groups
                  (fun groups =>
                     migrate_vrm0_blend_shape_groups H bpy groups
                       blend_shape_group_dicts)))
    >>> with_textblock_json H bpy armature "firstPerson_params"
          (fun first_person_dict =>
             zoom rig_vrm0 set_rig_vrm0
               (zoom first_person set_first_person
                  (fun first_person =>
                     migrate_vrm0_first_person H bpy first_person
                       first_person_dict)))
    >>> with_textblock_json H bpy armature "humanoid_params"
          (fun humanoid_dict rig =>
             Done (set_rig_vrm0
                     (set_humanoid
                        (migrate_vrm0_humanoid (humanoid (rig_vrm0 rig))
                           humanoid_dict)
                        (rig_vrm0 rig)) rig))
    >>> with_textblock_json H bpy armature "spring_bone"
          (fun bone_group_dicts rig =>
             let (secondary_animation, draws) :=
               migrate_vrm0_secondary_animation H
                 (secondary_animation (rig_vrm0 rig)) bone_group_dicts
                 armature (uuid_draws rig) in
             Done (set_uuid_draws draws
                     (set_rig_vrm0
                        (set_secondary_animation secondary_animation
                           (rig_vrm0 rig)) rig)))
    >>> (fun rig =>
           let humanoid := humanoid (rig_vrm0 rig) in
           Done (set_rig_vrm0
                   (set_humanoid
                      (set_human_bones
                         (migrate_human_bone_props (all_names H) armature []
                            (human_bones humanoid)).2 humanoid)
                      (rig_vrm0 rig)) rig)).

Definition is_unnecessary (vrm0 : Vrm0) : bool :=
  negb (String.eqb (first_person_bone (first_person vrm0)) EmptyString)
  || forallb (fun human_bone =>
                negb (String.eqb (bone human_bone) "head")
                || String.eqb (node human_bone) EmptyString)
       (human_bones (humanoid vrm0)).

(** [migrate(vrm0, armature)], for [vrm0] the document of [armature]
    itself. *)
Definition migrate (H : Host) (bpy : BlendData) (rig : Rig) : outcome Rig :=
  let armature := armature rig in
  let vrm0 := rig_vrm0 rig in
  let vrm0 :=
    set_humanoid
      (set_human_bones
         (fixup_human_bones H armature (human_bones (humanoid vrm0)))
         (humanoid vrm0)) vrm0 in
  let vrm0 :=
    set_secondary_animation
      (set_collider_groups
         (map (collider_group_refresh H armature)
            (collider_groups (secondary_animation vrm0)))
         (secondary_animation vrm0)) vrm0 in
  let vrm0 :=
    set_secondary_animation
      (set_bone_groups
         (map (bone_group_refresh H armature)
            (bone_groups (secondary_animation vrm0)))
         (secondary_animation vrm0)) vrm0 in
  let vrm0 :=
    if String.eqb (first_person_bone (first_person vrm0)) EmptyString
    then
      match find (fun human_bone => String.eqb (bone human_bone) "head")
              (human_bones (humanoid vrm0)) with
      | Some human_bone =>
          set_first_person
            (set_first_person_bone (node human_bone) (first_person vrm0)) vrm0
      | None => vrm0
      end
    else vrm0 in
  migrate_legacy_custom_properties H bpy (set_rig_vrm0 vrm0 rig)
  >>> (fun rig =>
         let vrm0 := rig_vrm0 rig in
         let humanoid := set_last_bone_names [] (humanoid vrm0) in
         let humanoid :=
           set_last_bone_names
             (check_last_bone_names_and_update H armature
                (last_bone_names humanoid)) humanoid in
         Done (set_rig_vrm0 (set_humanoid humanoid vrm0) rig)).

(** ** A host for the examples *)

(** Modelled from the spec: [HumanBoneSpecifications.all_names], of
    [common/human_bone.py]; the closed role set, here the three roles the
    design names. *)
Definition example_all_names : list string :=
  ["head"; "hips"; "leftUpperArm"].

(** Modelled from the spec: [fixup_human_bones], of
    [vrm0/property_group.py]; it restores the invariant of the humanoid
    record, one entry per role of the closed set: entries of unknown or
    repeated roles are dropped and missing roles are appended unassigned. *)
Fixpoint keep_first_per_role (roles seen : list string)
  (human_bones : list HumanBone) : list HumanBone :=
  match human_bones with
  | [] => []
  | hb :: rest =>
      if bool_decide (bone hb ∈ roles) && negb (bool_decide (bone hb ∈ seen))
      then hb :: keep_first_per_role roles (bone hb :: seen) rest
      else keep_first_per_role roles seen rest
  end.

Definition example_fixup_human_bones (roles : list string)
  (_ : ArmatureObject) (human_bones : list HumanBone) : list HumanBone :=
  let kept := keep_first_per_role roles [] human_bones in
  kept
  ++ map (fun role => {| bone := role; node := EmptyString |})
       (filter (fun role => role ∉ map bone kept) roles).

(** Modelled from the spec: [refresh] of a collider group, of
    [vrm0/property_group.py]; it recomputes what is derived, here the name
    under which bone groups refer to the group, its generated identifier. *)
Definition example_collider_group_refresh (_ : ArmatureObject)
  (g : ColliderGroup) : ColliderGroup :=
  set_collider_group_name (uuid g) g.

(** Modelled from the spec: [refresh] of a bone group, of
    [vrm0/property_group.py]; the cached geometry it recomputes is not part
    of the record. *)
Definition example_bone_group_refresh (_ : ArmatureObject) (g : BoneGroup)
  : BoneGroup := g.

(** Modelled from the spec: [check_last_bone_names_and_update], of
    [vrm0/property_group.py]; it re-derives the cache of last known bone
    names from the live rig. *)
Definition example_check_last_bone_names_and_update
  (armature : ArmatureObject) (_ : list string) : list string :=
  data_bones armature.

(** Modelled from the spec: [convert.vrm_json_vector3_to_tuple], of
    [common/convert.py]; a legacy vector is an object with the components
    [x], [y], [z], a component that is not a number counting as 0. *)
Definition example_vector3_to_tuple (v : json)
  : option (number * number * number) :=
  match v with
  | JObj d =>
      let component key := default (PyInt 0) (as_number (dict_get key d)) in
      Some (component "x", component "y", component "z")
  | _ => None
  end.

(** Modelled from the spec: [convert.vrm_json_curve_to_list], of
    [common/convert.py]; the control points of a curve as a list of
    numbers. *)
Definition example_curve_to_list (v : json) : option (list number) :=
  match as_iterable v with
  | Some items => Some (map (fun w => default (PyInt 0) (as_number w)) items)
  | None => None
  end.

(** The text [{"b": 1, "a": {"z": true, "y": null}}]. *)
Definition nested_document_text : string :=
  String.concat (String (Ascii.ascii_of_nat 34) EmptyString)
    ["{"; "b"; ": 1, "; "a"; ": {"; "z"; ": true, "; "y"; ": null}}"].

Definition nested_document : json :=
  JObj [("b", JNum (PyInt 1)); ("a", JObj [("z", JBool true); ("y", JNull)])].

(** The decoder of the examples knows the documents the examples use, and
    rejects any other text as malformed; on a text that starts by opening
    more than ten thousand arrays it raises [RecursionError], as
    [json.loads] does on a text nested that deep. *)
Definition example_documents : list (string * json) :=
  [ ("null", JNull);
    ("[{}]", JArr [JObj []]);
    (nested_document_text, nested_document) ].

Fixpoint opening_brackets (s : string) : N :=
  match s with
  | String c s' =>
      if Ascii.eqb c (Ascii.ascii_of_nat 91) then N.succ (opening_brackets s')
      else 0%N
  | EmptyString => 0%N
  end.

Definition example_json_decode (s : string) : decoded :=
  if (10000 <? opening_brackets s)%N then DecoderRaised RecursionError
  else
    match find (fun entry => String.eqb entry.1 s) example_documents with
    | Some entry => Decoded entry.2
    | None => JSONDecodeError
    end.

(** Modelled from the spec: the string properties of the meta record, of
    [vrm0/property_group.py]. The spec gives the record no constraint: the
    properties of the examples hold any string, but for the permission of
    use, which the examples take to be an enum of three identifiers so
    that one property refuses a value. *)
Definition example_meta_accepts (property v : string) : bool :=
  if String.eqb property "allowed_user_name"
  then bool_decide (v ∈ ["OnlyAuthor"; "ExplicitlyLicensedPerson";
                          "Everyone"])
  else true.

(** The n-th identifier of the examples: n in decimal. *)
Definition example_uuid4_hex (n : nat) : string := pretty n.

Definition zero3 : number * number * number := (PyInt 0, PyInt 0, PyInt 0).

Definition example_host : Host :=
  {| json_decode := example_json_decode;
     uuid4_hex := example_uuid4_hex;
     all_names := example_all_names;
     vrm_json_vector3_to_tuple := example_vector3_to_tuple;
     vrm_json_curve_to_list := example_curve_to_list;
     preset_name_items :=
       ["unknown"; "neutral"; "a"; "i"; "u"; "e"; "o"; "blink"; "joy";
        "angry"; "sorrow"; "fun"; "lookup"; "lookdown"; "lookleft";
        "lookright"; "blink_l"; "blink_r"];
     first_person_flag_items :=
       ["Auto"; "FirstPersonOnly"; "ThirdPersonOnly"; "Both"];
     meta_accepts := example_meta_accepts;
     default_mesh_annotation :=
       {| annotation_mesh := EmptyString; first_person_flag := "Auto" |};
     default_bind :=
       {| bind_mesh := EmptyString; bind_index := EmptyString; weight := PyInt 0 |};
     default_material_value :=
       {| material := None; property_name := EmptyString; target_value := [] |};
     default_target_value := PyInt 0;
     default_blend_shape_group :=
       {| group_name := EmptyString; preset_name := "unknown"; binds := [];
          material_values := []; is_binary := false |};
     default_bone_group :=
       {| comment := EmptyString; stiffiness := PyInt 0; gravity_power := PyInt 0;
          gravity_dir := zero3; drag_force := PyInt 0; center := EmptyString;
          hit_radius := PyInt 0; bones := [];
          bone_group_collider_groups := [] |};
     fixup_human_bones := example_fixup_human_bones example_all_names;
     collider_group_refresh := example_collider_group_refresh;
     bone_group_refresh := example_bone_group_refresh;
     check_last_bone_names_and_update :=
       example_check_last_bone_names_and_update |}.

(** ** Inputs of the examples *)

Definition example_data : BlendData :=
  {| texts := {[ "blendshape_group.json" := {| text_lines := ["[{"; "}]"] |} ]};
     images := ∅;
     meshes := {[ "Face" := {| shape_keys := Some ["smile"] |} ]};
     materials := {[ "Skin" ]} |}.

Definition example_meta : Meta :=
  {| allowed_user_name := EmptyString; author := EmptyString;
     commercial_ussage_name := EmptyString;
     contact_information := EmptyString; license_name := EmptyString;
     other_license_url := EmptyString; other_permission_url := EmptyString;
     reference := EmptyString; sexual_ussage_name := EmptyString;
     title := EmptyString; version := EmptyString;
     violent_ussage_name := EmptyString; texture := None |}.

Definition example_humanoid : Humanoid :=
  {| human_bones := [];
     arm_stretch := PyFloat 1 (-4); leg_stretch := PyFloat 1 (-4);
     upper_arm_twist := PyFloat 1 (-1); lower_arm_twist := PyFloat 1 (-1);
     upper_leg_twist := PyFloat 1 (-1); lower_leg_twist := PyFloat 1 (-1);
     feet_spacing := PyInt 0; has_translation_dof := false;
     last_bone_names := [] |}.

Definition example_look_at : LookAt :=
  {| curve := []; x_range := PyInt 90; y_range := PyInt 10 |}.

Definition example_first_person : FirstPerson :=
  {| first_person_bone := EmptyString;
     first_person_bone_offset := zero3;
     mesh_annotations := [];
     look_at_type_name := "Bone";
     look_at_horizontal_inner := example_look_at;
     look_at_horizontal_outer := example_look_at;
     look_at_vertical_down := example_look_at;
     look_at_vertical_up := example_look_at |}.

(** The document of a rig that has not been migrated: defaults only. *)
Definition example_vrm0 : Vrm0 :=
  {| meta := example_meta;
     humanoid := example_humanoid;
     first_person := example_first_person;
     blend_shape_groups := [];
     secondary_animation := {| collider_groups := []; bone_groups := [] |} |}.

Definition marker (name bone_name : string) : Object :=
  {| object_name := name; object_type := "EMPTY";
     empty_display_type := "SPHERE"; parent_type := "BONE";
     parent_bone := bone_name |}.

(** A rig with three markers on two bones, and another child. *)
Definition example_armature : ArmatureObject :=
  {| object_props := {[ "blendshape_group" := IDStr "blendshape_group.json" ]};
     data_props := ∅;
     data_bones := ["Head"; "Hand"];
     children :=
       [ marker "c1" "Head"; marker "c2" "Hand"; marker "c3" "Head";
         {| object_name := "Body"; object_type := "MESH";
            empty_display_type := "PLAIN_AXES"; parent_type := "OBJECT";
            parent_bone := EmptyString |} ] |}.

Definition example_rig (v : Z * Z * Z) : Rig :=
  {| armature := example_armature;
     ext := {| addon_version := v; vrm0 := example_vrm0 |};
     uuid_draws := 0 |}.

(** The rig of the end-to-end scenario: version (1, 0, 0), no attachment,
    and the custom property [head] of the armature data naming the bone
    [Head]. *)
Definition head_only_rig : Rig :=
  {| armature :=
       {| object_props := ∅;
          data_props := {[ "head" := IDStr "Head" ]};
          data_bones := ["Head"];
          children := [] |};
     ext := {| addon_version := (1, 0, 0); vrm0 := example_vrm0 |};
     uuid_draws := 0 |}.

(** Running the orchestrator a second time on what the first run left. *)
Definition migrate_twice (H : Host) (bpy : BlendData) (rig : Rig)
  : outcome Rig :=
  migrate H bpy rig >>> migrate H bpy.





(** A blend-shape group whose [name] is a number. *)
Definition misnamed_group_dict : json :=
  JObj [("name", JNum (PyInt 5)); ("isBinary", JBool true)].

(** ** Vocabulary of the statements *)

(** The bone reference of a role: the [node] of the first entry of
    [human_bones] for the role. *)
Definition role_node (role : string) (human_bones : list HumanBone)
  : option string :=
  node <$> find (fun human_bone => String.eqb (bone human_bone) role)
             human_bones.

(** The legacy custom property of the role names the bone: it is a
    non-empty string. *)
Definition names_bone (armature : ArmatureObject) (role bone_name : string)
  : Prop :=
  data_props armature !! role = Some (IDStr bone_name)
  /\ bone_name <> EmptyString.

(** A rig whose legacy properties give the bone [Head] to two roles. *)
Definition contested_armature : ArmatureObject :=
  {| object_props := ∅;
     data_props := {[ "head" := IDStr "Head"; "hips" := IDStr "Head";
                      "leftUpperArm" := IDStr "Arm" ]};
     data_bones := ["Head"; "Arm"];
     children := [] |}.

Definition unassigned_human_bones : list HumanBone :=
  [ {| bone := "hips"; node := EmptyString |};
    {| bone := "head"; node := EmptyString |};
    {| bone := "leftUpperArm"; node := EmptyString |} ].

(** The test of the loop that resolves a legacy collider-group name: the
    node of the group is the name. *)
Definition node_matches (name : string) (g : ColliderGroup) : bool :=
  String.eqb (collider_group_node g) name.

(** The children of the rig that the scan takes for collider markers, in
    scan order, and those of them parented to a given bone. *)
Definition collider_objects (armature : ArmatureObject) : list Object :=
  filter (fun child => is_collider_object armature child = true)
    (children armature).

Definition collider_objects_of (armature : ArmatureObject) (bone_name : string)
  : list Object :=
  filter (fun child => parent_bone child = bone_name)
    (collider_objects armature).

(** A legacy bone group that refers to the collider groups of two bones
    with markers, of a bone without, and to something that is no name. *)
Definition example_bone_group_names : list json :=
  [JStr "Hand"; JStr "Tail"; JNum (PyInt 5); JStr "Head"].

Definition example_bone_group_dict : list (string * json) :=
  [("comment", JStr "hair"); ("colliderGroups", JArr example_bone_group_names)].

(** The custom property [key] of the rig designates the text attachment:
    it is the text data block itself, or the name of one in [bpy.data]. *)
Definition designates (bpy : BlendData) (armature : ArmatureObject)
  (key : string) (t : Text) : Prop :=
  object_props armature !! key = Some (IDTextBlock t)
  \/ exists name,
      object_props armature !! key = Some (IDStr name)
      /\ texts bpy !! name = Some t.

(** A rig for the reader: an attachment by reference, one by name, a name
    without a text, a property of another type, and a text that is not
    JSON. *)
Definition reader_data : BlendData :=
  {| texts := {[ "params.json" := {| text_lines := [nested_document_text] |};
                 "notes.txt" := {| text_lines := ["{"; "oops"] |} ]};
     images := ∅; meshes := ∅; materials := ∅ |}.

Definition reader_armature : ArmatureObject :=
  {| object_props :=
       {[ "by_reference" := IDTextBlock {| text_lines := ["[{"; "}]"] |};
          "by_name" := IDStr "params.json";
          "dangling" := IDStr "gone.json";
          "number" := IDInt 3;
          "malformed" := IDStr "notes.txt" ]};
     data_props := ∅; data_bones := []; children := [] |}.

(** A text that is well-formed JSON, a hundred thousand arrays one in
    another, and a rig whose [spring_bone] attachment it is. *)
Definition deeply_nested_text : string :=
  String.concat EmptyString
    (repeat "[" (N.to_nat 100000) ++ repeat "]" (N.to_nat 100000)).

Definition deeply_nested_data : BlendData :=
  {| texts := {[ "spring_bone.json" :=
                   {| text_lines := [deeply_nested_text] |} ]};
     images := ∅; meshes := ∅; materials := ∅ |}.

Definition deeply_nested_armature : ArmatureObject :=
  {| object_props := {[ "spring_bone" := IDStr "spring_bone.json" ]};
     data_props := ∅; data_bones := []; children := [] |}.


(** A rig at version (1, 0, 0) with no custom property at all and two
    markers on one bone. *)
Definition marker_rig : Rig :=
  {| armature :=
       {| object_props := ∅; data_props := ∅; data_bones := ["Head"];
          children := [marker "c1" "Head"; marker "c2" "Head"] |};
     ext := {| addon_version := (1, 0, 0); vrm0 := example_vrm0 |};
     uuid_draws := 0 |}.

(** The collider groups of the document an outcome leaves. *)
Definition collider_groups_left (o : outcome Rig) : list ColliderGroup :=
  collider_groups (secondary_animation (rig_vrm0 (final o))).

(** A rig past the version gate whose document holds a collider group, a
    bone group and an assigned head role, but no first-person bone yet. *)
Definition migrated_rig : Rig :=
  {| armature := example_armature;
     ext :=
       {| addon_version := (2, 0, 1);
          vrm0 :=
            set_secondary_animation
              {| collider_groups :=
                   [{| collider_group_name := "stale"; uuid := "7";
                       collider_group_node := "Head"; colliders := [] |}];
                 bone_groups := [add_bone_group example_host] |}
              (set_humanoid
                 (set_human_bones
                    [{| bone := "head"; node := "Head" |}] example_humanoid)
                 example_vrm0) |};
     uuid_draws := 8 |}.

(** The first-person bone of the document an outcome leaves. *)
Definition first_person_bone_left (o : outcome Rig) : string :=
  first_person_bone (first_person (rig_vrm0 (final o))).

(** The bone reference of the head role in the document an outcome
    leaves. *)
Definition head_node_left (o : outcome Rig) : option string :=
  role_node "head" (human_bones (humanoid (rig_vrm0 (final o)))).

(** The legacy keys the humanoid migrator reads. *)
Definition humanoid_keys : list string :=
  ["armStretch"; "legStretch"; "upperArmTwist"; "lowerArmTwist";
   "upperLegTwist"; "lowerLegTwist"; "feetSpacing"; "hasTranslationDoF"].

(** The entries of [human_bones] for the head role. *)
Definition head_entries (human_bones : list HumanBone) : list HumanBone :=
  filter (fun human_bone => bone human_bone = "head") human_bones.

(** The string fields of the meta record, each with the custom property of
    the rig that feeds it and the name of the property that holds it. *)
Definition meta_string_fields : list (string * string * (Meta -> string)) :=
  [ ("allowedUserName", "allowed_user_name", allowed_user_name);
    ("author", "author", author);
    ("commercialUssageName", "commercial_ussage_name",
     commercial_ussage_name);
    ("contactInformation", "contact_information", contact_information);
    ("licenseName", "license_name", license_name);
    ("otherLicenseUrl", "other_license_url", other_license_url);
    ("otherPermissionUrl", "other_permission_url", other_permission_url);
    ("reference", "reference", reference);
    ("sexualUssageName", "sexual_ussage_name", sexual_ussage_name);
    ("title", "title", title);
    ("version", "version", version);
    ("violentUssageName", "violent_ussage_name", violent_ussage_name) ].

(** The host accepts every legacy meta property of the rig that is a
    string. *)
Definition meta_accepted (H : Host) (armature : ArmatureObject) : Prop :=
  forall key property get v,
    (key, property, get) ∈ meta_string_fields ->
    object_props armature !! key = Some (IDStr v) ->
    meta_accepts H property v = true.


(** A rig with legacy meta properties: a title, an author that is no
    string, and a texture that names no image. *)
Definition meta_armature : ArmatureObject :=
  {| object_props :=
       {[ "title" := IDStr "Alicia"; "author" := IDInt 7;
          "texture" := IDStr "thumbnail.png" ]};
     data_props := ∅; data_bones := []; children := [] |}.

(** A rig whose permission of use is none the host knows. *)
Definition misallowed_armature : ArmatureObject :=
  {| object_props :=
       {[ "allowedUserName" := IDStr "Nobody"; "title" := IDStr "Alicia" ]};
     data_props := ∅; data_bones := []; children := [] |}.

(** Data with a mesh that has no shape keys, and a bind on it. *)
Definition shapeless_data : BlendData :=
  {| texts := ∅; images := ∅;
     meshes := {[ "Body" := {| shape_keys := None |} ]}; materials := ∅ |}.

Definition shapeless_bind_dict : list (string * json) :=
  [("mesh", JStr "Body"); ("index", JStr "smile");
   ("weight", JNum (PyInt 1))].

(** A bind on a mesh that has the shape key, with a weight beyond the
    range of a double. *)
Definition overweight_bind_dict : list (string * json) :=
  [("mesh", JStr "Face"); ("index", JStr "smile");
   ("weight", JNum (PyInt (10 ^ 400)))].


(** The bones assigned to the roles: the non-empty bone references of
    [human_bones], in order. *)
Definition assigned_nodes (human_bones : list HumanBone) : list string :=
  filter (fun bone_name => bone_name <> EmptyString) (map node human_bones).

(** The invariant of the scan on human bones that start unassigned: a
    bone reference that is set holds a name in the list of assigned names,
    the one the property of its role gives, and no name is held twice. *)
Definition scan_invariant (armature : ArmatureObject)
  (assigned : list string) (hbs : list HumanBone) : Prop :=
  (forall hb, hb ∈ hbs -> node hb <> EmptyString ->
              node hb ∈ assigned
              /\ data_props armature !! bone hb = Some (IDStr (node hb)))
  /\ NoDup (assigned_nodes hbs).

(** * The scene queries of [editor/search.py] and [editor/extension.py]

    Objects, collections and armature data are told apart by their names,
    which are unique in a blend file: where the source compares two of them
    or uses one as a key, the model compares names. A test of truth on an
    object or a collection is a test for [None]. *)

(** ** [editor/extension.py] *)

Definition SPEC_VERSION_VRM0 : string := "0.0".
Definition SPEC_VERSION_VRM1 : string := "1.0-beta".

(** The identifiers of [spec_version_items]. *)
Definition spec_version_items : list string :=
  [SPEC_VERSION_VRM0; SPEC_VERSION_VRM1].

(** [is_vrm0] and [is_vrm1], on the [spec_version] of the extension. *)
Definition is_vrm0 (spec_version : string) : bool :=
  String.eqb spec_version SPEC_VERSION_VRM0.

Definition is_vrm1 (spec_version : string) : bool :=
  String.eqb spec_version SPEC_VERSION_VRM1.

(** ** The scene *)

(** Armature data of [bpy.data.armatures]: its user count, the
    [spec_version] of its [vrm_addon_extension] ([None] when the data has
    no such attribute) and the names of its bones. *)
Record ArmatureData := {
  users : nat;
  vrm_addon_extension : option string;
  bone_names : list string;
}.

Inductive constraint_class :=
| CopyRotationConstraint
| DampedTrackConstraint
| OtherConstraint.

(** An object of the scene and a constraint of an object or of a pose
    bone. [data] is the armature data of an object of type [ARMATURE];
    [pose_bones] are the names and constraints of [pose.bones]. *)
Inductive SceneObject := {
  name : string;
  type : string;
  visible : bool;                       (* visible_get() *)
  parent : option SceneObject;
  users_collection : list string;
  data : option ArmatureData;
  constraints : list Constraint;
  pose_bones : list (string * list Constraint);
}
with Constraint := {
  class : constraint_class;
  is_valid : bool;
  mute : bool;
  target : option SceneObject;
  subtarget : string;
  mix_mode : string;
  use_x : bool;
  use_y : bool;
  use_z : bool;
  invert_x : bool;
  invert_y : bool;
  invert_z : bool;
  owner_space : string;
  target_space : string;
  head_tail : number;
}.

(** A collection of the scene and its child collections. *)
Inductive Collection := {
  collection_name : string;
  collection_children : list Collection;
}.

(** What the queries read of the context and of [bpy.data]. [preferences]
    is [export_invisibles] of the add-on preferences, [None] when
    [get_preferences] returns no [VrmAddonPreferences]. *)
Record Context := {
  preferences : option bool;
  data_objects : list SceneObject;          (* bpy.data.objects *)
  data_armatures : list ArmatureData;       (* bpy.data.armatures *)
  selectable_objects : list SceneObject;
  selected_objects : list SceneObject;
  active_object : option SceneObject;
  view_layer_active : option SceneObject;   (* view_layer.objects.active *)
  scene_collection : Collection;            (* bpy.context.scene.collection *)
}.

(** [obj.type == "ARMATURE"]. *)
Definition is_armature (obj : SceneObject) : bool :=
  String.eqb (type obj) "ARMATURE".

(** [obj in objs]. *)
Definition object_in (obj : SceneObject) (objs : list SceneObject) : bool :=
  existsb (fun o => String.eqb (name o) (name obj)) objs.

(** [subtarget in target.data.bones]; an object of type [ARMATURE] has
    armature data. *)
Definition has_bone (obj : SceneObject) (bone_name : string) : bool :=
  match data obj with
  | Some armature_data => bool_decide (bone_name ∈ bone_names armature_data)
  | None => false
  end.

(** ** Candidates and armatures *)

Definition object_candidates (context : Context) : list SceneObject :=
  match preferences context with
  | Some true => data_objects context
  | _ => selectable_objects context
  end.

Definition armature_exists (context : Context) : bool :=
  existsb (fun armature => negb (users armature =? 0)%nat)
    (data_armatures context)
  && existsb is_armature (object_candidates context).

(** The inner loop of [multiple_armatures_exist]: whether a second object
    of type [ARMATURE] is met. *)
Fixpoint second_armature_object (first_obj_exists : bool)
  (objs : list SceneObject) : bool :=
  match objs with
  | [] => false
  | obj :: objs' =>
      if is_armature obj then
        if first_obj_exists then true
        else second_armature_object true objs'
      else second_armature_object first_obj_exists objs'
  end.

(** The outer loop: the second armature data in use decides. *)
Fixpoint multiple_armatures_loop (context : Context)
  (first_data_exists : bool) (armatures : list ArmatureData) : bool :=
  match armatures with
  | [] => false
  | armature_data :: armatures' =>
      if (users armature_data =? 0)%nat
      then multiple_armatures_loop context first_data_exists armatures'
      else if negb first_data_exists
      then multiple_armatures_loop context true armatures'
      else second_armature_object false (object_candidates context)
  end.

Definition multiple_armatures_exist (context : Context) : bool :=
  multiple_armatures_loop context false (data_armatures context).

(** ** Objects to export *)

Definition exclusion_types : list string := ["LIGHT"; "CAMERA"].

Definition export_objects (context : Context)
  (export_invisibles export_only_selections : bool) : list SceneObject :=
  let selected_objects :=
    if export_only_selections then selected_objects context
    else if export_invisibles then data_objects context
    else selectable_objects context in
  fold_left
    (fun objects obj =>
       if bool_decide (type obj ∈ exclusion_types) then objects
       else if negb export_invisibles && negb (visible obj) then objects
       else objects ++ [obj])
    selected_objects [].

(** ** Constraints *)

(** [abs(x) < float_info.epsilon], the epsilon of a double being two to
    the power -52. *)
Definition below_epsilon (x : number) : bool :=
  match x with
  | PyInt z => Z.abs z =? 0
  | PyFloat m e =>
      if 0 <=? e + 52 then Z.abs m * 2 ^ (e + 52) <? 1
      else Z.abs m <? 2 ^ (- (e + 52))
  end.

(** The three kinds of constraint that are exported. Each is valid, not
    muted, and has a target among [objs]; a target that is an armature
    must have the bone [subtarget]. *)
Definition is_roll_constraint (constraint : Constraint)
  (objs : list SceneObject) : bool :=
  match class constraint, target constraint with
  | CopyRotationConstraint, Some target_object =>
      is_valid constraint
      && negb (mute constraint)
      && object_in target_object objs
      && String.eqb (mix_mode constraint) "ADD"
      && (Nat.b2n (use_x constraint) + Nat.b2n (use_y constraint)
          + Nat.b2n (use_z constraint) =? 1)%nat
      && String.eqb (owner_space constraint) "LOCAL"
      && String.eqb (target_space constraint) "LOCAL"
      && (negb (is_armature target_object)
          || has_bone target_object (subtarget constraint))
  | _, _ => false
  end.

Definition is_aim_constraint (constraint : Constraint)
  (objs : list SceneObject) : bool :=
  match class constraint, target constraint with
  | DampedTrackConstraint, Some target_object =>
      is_valid constraint
      && negb (mute constraint)
      && object_in target_object objs
      && (negb (is_armature target_object)
          || (has_bone target_object (subtarget constraint)
              && below_epsilon (head_tail constraint)))
  | _, _ => false
  end.

Definition is_rotation_constraint (constraint : Constraint)
  (objs : list SceneObject) : bool :=
  match class constraint, target constraint with
  | CopyRotationConstraint, Some target_object =>
      is_valid constraint
      && negb (mute constraint)
      && object_in target_object objs
      && negb (invert_x constraint)
      && negb (invert_y constraint)
      && negb (invert_z constraint)
      && String.eqb (mix_mode constraint) "ADD"
      && use_x constraint
      && use_y constraint
      && use_z constraint
      && String.eqb (owner_space constraint) "LOCAL"
      && String.eqb (target_space constraint) "LOCAL"
      && (negb (is_armature target_object)
          || has_bone target_object (subtarget constraint))
  | _, _ => false
  end.

Record ExportConstraint := {
  roll_constraints : gmap string Constraint;
  aim_constraints : gmap string Constraint;
  rotation_constraints : gmap string Constraint;
}.

Definition no_constraints : ExportConstraint :=
  {| roll_constraints := ∅; aim_constraints := ∅;
     rotation_constraints := ∅ |}.

(** What [d[key].append(constraint)] can raise: [KeyError] when the key
    is missing, and [AttributeError] when the value found, a constraint,
    has no [append]. *)
Inductive constraint_error := KeyError | NoAppend.

Definition append_to_entry (d : gmap string Constraint) (key : string)
  : constraint_error :=
  match d !! key with
  | None => KeyError
  | Some _ => NoAppend
  end.

(** The inner loop of [export_object_constraints], over the constraints
    of the object [key]. *)
Fixpoint export_constraints_of_object (objs : list SceneObject) (key : string)
  (found : ExportConstraint) (cs : list Constraint)
  : constraint_error + ExportConstraint :=
  match cs with
  | [] => inr found
  | constraint :: cs' =>
      if is_roll_constraint constraint objs
      then inl (append_to_entry (roll_constraints found) key)
      else if is_aim_constraint constraint objs
      then inl (append_to_entry (aim_constraints found) key)
      else if is_rotation_constraint constraint objs
      then inl (append_to_entry (rotation_constraints found) key)
      else export_constraints_of_object objs key found cs'
  end.

(** The outer loop, over the objects still to visit. *)
Fixpoint export_object_constraints_loop (objs : list SceneObject)
  (found : ExportConstraint) (todo : list SceneObject)
  : constraint_error + ExportConstraint :=
  match todo with
  | [] => inr found
  | obj :: todo' =>
      match export_constraints_of_object objs (name obj) found
              (constraints obj) with
      | inl e => inl e
      | inr found' => export_object_constraints_loop objs found' todo'
      end
  end.

Definition export_object_constraints (objs : list SceneObject)
  : constraint_error + ExportConstraint :=
  export_object_constraints_loop objs no_constraints objs.

(** The inner loop of [export_bone_constraints], over the constraints of
    the bone [key]: the first constraint of one of the three kinds is
    recorded under the name of the bone. *)
Fixpoint export_constraints_of_bone (objs : list SceneObject) (key : string)
  (found : ExportConstraint) (cs : list Constraint) : ExportConstraint :=
  match cs with
  | [] => found
  | constraint :: cs' =>
      if is_roll_constraint constraint objs
      then {| roll_constraints := <[key := constraint]> (roll_constraints found);
              aim_constraints := aim_constraints found;
              rotation_constraints := rotation_constraints found |}
      else if is_aim_constraint constraint objs
      then {| roll_constraints := roll_constraints found;
              aim_constraints := <[key := constraint]> (aim_constraints found);
              rotation_constraints := rotation_constraints found |}
      else if is_rotation_constraint constraint objs
      then {| roll_constraints := roll_constraints found;
              aim_constraints := aim_constraints found;
              rotation_constraints :=
                <[key := constraint]> (rotation_constraints found) |}
      else export_constraints_of_bone objs key found cs'
  end.

Definition export_bone_constraints (objs : list SceneObject)
  (armature : SceneObject) : ExportConstraint :=
  fold_left
    (fun found bone =>
       export_constraints_of_bone objs bone.1 found bone.2)
    (pose_bones armature) no_constraints.

(** ** Vocabulary of the statements on the scene *)

(** The armature data in use and the armature objects of a list. *)
Definition live_armatures (armatures : list ArmatureData)
  : list ArmatureData :=
  filter (fun armature_data => users armature_data <> 0%nat) armatures.

Definition armature_objects (objs : list SceneObject) : list SceneObject :=
  filter (fun obj => is_armature obj = true) objs.

(** A constraint of one of the three exported kinds. *)
Definition is_export_constraint (objs : list SceneObject)
  (constraint : Constraint) : bool :=
  is_roll_constraint constraint objs
  || is_aim_constraint constraint objs
  || is_rotation_constraint constraint objs.

(** The first constraint of a list that is of one of the three kinds, when
    it is of the kind given: what a loop that stops at the first such
    constraint records for that kind. *)
Definition first_of_kind (kind : Constraint -> list SceneObject -> bool)
  (objs : list SceneObject) (cs : list Constraint) : option Constraint :=
  match find (is_export_constraint objs) cs with
  | Some constraint => if kind constraint objs then Some constraint else None
  | None => None
  end.

(** A plain object of the scene. *)
Definition plain_object (object_name object_type : string) : SceneObject :=
  {| name := object_name; type := object_type; visible := true;
     parent := None; users_collection := []; data := None;
     constraints := []; pose_bones := [] |}.

(** A copy-rotation constraint on the given axes, additive and local. *)
Definition copy_rotation (target_object : SceneObject) (x y z : bool)
  : Constraint :=
  {| class := CopyRotationConstraint; is_valid := true; mute := false;
     target := Some target_object; subtarget := EmptyString;
     mix_mode := "ADD"; use_x := x; use_y := y; use_z := z;
     invert_x := false; invert_y := false; invert_z := false;
     owner_space := "LOCAL"; target_space := "LOCAL";
     head_tail := PyInt 0 |}.

Definition example_cube : SceneObject := plain_object "Cube" "MESH".

(** An object with a roll constraint on the cube, and an armature whose
    pose bones carry a roll and a rotation constraint. *)
Definition constrained_object : SceneObject :=
  {| name := "Wheel"; type := "MESH"; visible := true; parent := None;
     users_collection := []; data := None;
     constraints := [copy_rotation example_cube true false false];
     pose_bones := [] |}.

Definition constrained_armature : SceneObject :=
  {| name := "Armature"; type := "ARMATURE"; visible := true;
     parent := None; users_collection := [];
     data := Some {| users := 1; vrm_addon_extension := Some "0.0";
                     bone_names := ["arm"; "hand"; "head"] |};
     constraints := [];
     pose_bones :=
       [ ("arm", [copy_rotation example_cube false false false;
                  copy_rotation example_cube false true false]);
         ("hand", [copy_rotation example_cube true true true]);
         ("head", []) ] |}.

(** A context with two armature data in use, one unused, and two armature
    objects among the selectable objects. *)
Definition two_armatures_context : Context :=
  {| preferences := Some false;
     data_objects := [];
     data_armatures :=
       [ {| users := 0; vrm_addon_extension := None; bone_names := [] |};
         {| users := 1; vrm_addon_extension := Some "0.0";
            bone_names := [] |};
         {| users := 2; vrm_addon_extension := Some "1.0-beta";
            bone_names := [] |} ];
     selectable_objects :=
       [ plain_object "A" "ARMATURE"; example_cube;
         plain_object "B" "ARMATURE" ];
     selected_objects := [];
     active_object := None;
     view_layer_active := None;
     scene_collection :=
       {| collection_name := "Scene Collection";
          collection_children := [] |} |}.

(** ** Distances between objects *)

(** The walk of [object_distance] from a collection towards the scene
    collection: [collection] is put in front of [path] and replaced by its
    parent in [collection_child_to_parent], a dictionary keyed by the name
    of the collection, until there is none. Whether the walk ends is up to
    the dictionary; [fuel] bounds its steps and [None] is a walk that has
    not ended within them. *)
Fixpoint collection_path (fuel : nat)
  (collection_child_to_parent : gmap string (option string))
  (collection : option string) (path : list string) {struct fuel}
  : option (list string) :=
  match collection with
  | None => Some path
  | Some c =>
      match fuel with
      | O => None
      | S fuel' =>
          collection_path fuel' collection_child_to_parent
            (mjoin (collection_child_to_parent !! c)) (c :: path)
      end
  end.

(** The path of the first collection of the object that is a key of the
    dictionary, and the empty path when there is none. *)
Definition collection_path_of (fuel : nat)
  (collection_child_to_parent : gmap string (option string))
  (obj : SceneObject) : option (list string) :=
  match filter (fun collection =>
                  is_Some (collection_child_to_parent !! collection))
               (users_collection obj) with
  | [] => Some []
  | collection :: _ =>
      collection_path fuel collection_child_to_parent (Some collection) []
  end.

(** The loop that pops the first elements of two paths while they are
    equal. *)
Fixpoint pop_common_prefix {A} (eqb : A -> A -> bool) (l r : list A)
  : list A * list A :=
  match l, r with
  | x :: l', y :: r' =>
      if eqb x y then pop_common_prefix eqb l' r' else (l, r)
  | _, _ => (l, r)
  end.

(** The object and its ancestors, the outermost first, in front of
    [path]. *)
Fixpoint parent_path (obj : SceneObject) (path : list SceneObject)
  : list SceneObject :=
  match parent obj with
  | Some parent_object => parent_path parent_object (obj :: path)
  | None => obj :: path
  end.

(** [left == right] on objects. *)
Definition same_object (left right : SceneObject) : bool :=
  String.eqb (name left) (name right).

Definition object_distance (fuel : nat) (left right : SceneObject)
  (collection_child_to_parent : gmap string (option string))
  : option (nat * nat * nat * nat) :=
  match collection_path_of fuel collection_child_to_parent left with
  | None => None
  | Some left_collection_path =>
      match collection_path_of fuel collection_child_to_parent right with
      | None => None
      | Some right_collection_path =>
          let collection_paths :=
            pop_common_prefix String.eqb
              left_collection_path right_collection_path in
          let parent_paths :=
            pop_common_prefix same_object
              (parent_path left []) (parent_path right []) in
          Some (length parent_paths.1, length parent_paths.2,
                length collection_paths.1, length collection_paths.2)
      end
  end.

(** ** The current armature *)

(** The loop of [current_armature] over the stack [collections], its top
    first: the collection on top is popped, its children are pushed one
    after the other and entered in the dictionary with it as their
    parent. *)
Fixpoint collect_child_to_parent (fuel : nat) (collections : list Collection)
  (collection_child_to_parent : gmap string (option string)) {struct fuel}
  : option (gmap string (option string)) :=
  match collections with
  | [] => Some collection_child_to_parent
  | parent_collection :: collections' =>
      match fuel with
      | O => None
      | S fuel' =>
          let pushed :=
            fold_left
              (fun state child =>
                 (child :: state.1,
                  <[collection_name child :=
                      Some (collection_name parent_collection)]> state.2))
              (collection_children parent_collection)
              (collections', collection_child_to_parent) in
          collect_child_to_parent fuel' pushed.1 pushed.2
      end
  end.

(** [object_to_distance[obj] = distance]: the dictionary, in the order of
    insertion, is keyed by the object; the entry of an object that is
    already a key is replaced where it is. *)
Fixpoint set_distance (obj : SceneObject) (distance : nat * nat * nat * nat)
  (object_to_distance : list (SceneObject * (nat * nat * nat * nat)))
  : list (SceneObject * (nat * nat * nat * nat)) :=
  match object_to_distance with
  | [] => [(obj, distance)]
  | (key, value) :: object_to_distance' =>
      if same_object key obj then (key, distance) :: object_to_distance'
      else (key, value) :: set_distance obj distance object_to_distance'
  end.

Fixpoint object_distances (fuel : nat) (active_object : SceneObject)
  (collection_child_to_parent : gmap string (option string))
  (objects : list SceneObject)
  (object_to_distance : list (SceneObject * (nat * nat * nat * nat)))
  : option (list (SceneObject * (nat * nat * nat * nat))) :=
  match objects with
  | [] => Some object_to_distance
  | obj :: objects' =>
      match object_distance fuel active_object obj
              collection_child_to_parent with
      | None => None
      | Some distance =>
          object_distances fuel active_object collection_child_to_parent
            objects' (set_distance obj distance object_to_distance)
      end
  end.

(** [<] on the tuples [(distance, obj.name, obj)] that are sorted: on the
    distances, then on the names, strings being ordered by their code
    points, which is the order of their UTF-8 bytes. The names of two
    entries of the dictionary differ, so the objects themselves are never
    compared. *)
Definition distance_compare (a b : nat * nat * nat * nat) : comparison :=
  let '(a1, a2, a3, a4) := a in
  let '(b1, b2, b3, b4) := b in
  match Nat.compare a1 b1 with
  | Eq => match Nat.compare a2 b2 with
          | Eq => match Nat.compare a3 b3 with
                  | Eq => Nat.compare a4 b4
                  | c => c
                  end
          | c => c
          end
  | c => c
  end.

Definition entry_ltb (a b : nat * nat * nat * nat * string * SceneObject)
  : bool :=
  match distance_compare a.1.1 b.1.1 with
  | Lt => true
  | Gt => false
  | Eq => String.ltb a.1.2 b.1.2
  end.

(** [sorted], a stable sort that compares with [<] only: an entry is put
    behind the entries that are less than it. *)
Fixpoint insert_sorted (x : nat * nat * nat * nat * string * SceneObject)
  (l : list (nat * nat * nat * nat * string * SceneObject))
  : list (nat * nat * nat * nat * string * SceneObject) :=
  match l with
  | [] => [x]
  | y :: l' => if entry_ltb y x then y :: insert_sorted x l' else x :: l
  end.

Definition sorted (l : list (nat * nat * nat * nat * string * SceneObject))
  : list (nat * nat * nat * nat * string * SceneObject) :=
  fold_right insert_sorted [] l.

(** [current_armature]: [Some None] is the [None] it returns, and [None]
    a run that has not ended within [fuel] steps of one of its loops. *)
Definition current_armature (fuel : nat) (context : Context)
  : option (option SceneObject) :=
  let objects := armature_objects (object_candidates context) in
  match objects with
  | [] => Some None
  | [obj] => Some (Some obj)
  | first_object :: _ =>
      let active_object :=
        match active_object context with
        | Some obj => Some obj
        | None => view_layer_active context
        end in
      match active_object with
      | None => Some (Some first_object)
      | Some active_object =>
          let scene_collection := scene_collection context in
          match collect_child_to_parent fuel [scene_collection]
                  {[ collection_name scene_collection := None ]} with
          | None => None
          | Some collection_child_to_parent =>
              match object_distances fuel active_object
                      collection_child_to_parent objects [] with
              | None => None
              | Some object_to_distance =>
                  let sorted_objs :=
                    map snd
                      (sorted
                         (map (fun '(obj, distance) =>
                                 (distance, name obj, obj))
                              object_to_distance)) in
                  Some (head sorted_objs)
              end
          end
      end
  end.

(** [current_armature_is_vrm0] and [current_armature_is_vrm1]. Reading
    [vrm_addon_extension] of data that has none raises. *)
Definition current_armature_is_vrm0 (fuel : nat) (context : Context)
  : option (exn + bool) :=
  let live_armature_datum := live_armatures (data_armatures context) in
  match live_armature_datum with
  | [] => Some (inr false)
  | _ =>
      if forallb
           (fun armature_data =>
              match vrm_addon_extension armature_data with
              | Some spec_version => is_vrm0 spec_version
              | None => false
              end)
           live_armature_datum
         && existsb is_armature (object_candidates context)
      then Some (inr true)
      else
        match current_armature fuel context with
        | None => None
        | Some None => Some (inr false)
        | Some (Some armature) =>
            match data armature ≫= vrm_addon_extension with
            | Some spec_version => Some (inr (is_vrm0 spec_version))
            | None => Some (inl AttributeError)
            end
        end
  end.

Definition current_armature_is_vrm1 (fuel : nat) (context : Context)
  : option (exn + bool) :=
  let live_armature_datum := live_armatures (data_armatures context) in
  match live_armature_datum with
  | [] => Some (inr false)
  | _ =>
      if forallb
           (fun armature_data =>
              match vrm_addon_extension armature_data with
              | Some spec_version => is_vrm1 spec_version
              | None => false
              end)
           live_armature_datum
         && existsb is_armature (object_candidates context)
      then Some (inr true)
      else
        match current_armature fuel context with
        | None => None
        | Some None => Some (inr false)
        | Some (Some armature) =>
            match data armature ≫= vrm_addon_extension with
            | Some spec_version => Some (inr (is_vrm1 spec_version))
            | None => Some (inl AttributeError)
            end
        end
  end.

(** ** Vocabulary of the statements on the current armature *)

(** The collection and the collections below it. *)
Fixpoint collections_of (collection : Collection) : list Collection :=
  collection :: flat_map collections_of (collection_children collection).

(** The active object [current_armature] measures the distances from. *)
Definition active_object_of (context : Context) : option SceneObject :=
  match active_object context with
  | Some obj => Some obj
  | None => view_layer_active context
  end.

(** The data of every candidate armature is armature data in use. *)
Definition armatures_use_live_data (context : Context) : Prop :=
  forall obj,
    obj ∈ armature_objects (object_candidates context) ->
    exists armature_data,
      data obj = Some armature_data
      /\ armature_data ∈ live_armatures (data_armatures context).

(** Collections are told apart by their names: two collections of the same
    name below [root] are the same collection. *)
Definition names_identify (root : Collection) : Prop :=
  forall c1 c2,
    c1 ∈ collections_of root -> c2 ∈ collections_of root ->
    collection_name c1 = collection_name c2 -> c1 = c2.

(** What the loop of [current_armature] keeps of the dictionary: a key is
    the name of a collection below [root], and its value, if any, the name
    of a collection that has it as a child. *)
Definition child_to_parent_of (root : Collection)
  (collection_child_to_parent : gmap string (option string)) : Prop :=
  forall c v,
    collection_child_to_parent !! c = Some v ->
    exists child,
      child ∈ collections_of root /\ collection_name child = c
      /\ forall p, v = Some p ->
           exists parent_collection,
             parent_collection ∈ collections_of root
             /\ child ∈ collection_children parent_collection
             /\ collection_name parent_collection = p.

(** A scene with nested collections, an armature in each of two of them,
    and a mesh that is a child of the first armature. The second armature
    is the active object. *)
Definition nested_scene_collection : Collection :=
  {| collection_name := "Scene Collection";
     collection_children :=
       [ {| collection_name := "Characters";
            collection_children :=
              [ {| collection_name := "Rigs";
                   collection_children := [] |} ] |};
         {| collection_name := "Props"; collection_children := [] |} ] |}.

Definition first_armature : SceneObject :=
  {| name := "Armature"; type := "ARMATURE"; visible := true;
     parent := None; users_collection := ["Rigs"];
     data := Some {| users := 1; vrm_addon_extension := Some "0.0";
                     bone_names := [] |};
     constraints := []; pose_bones := [] |}.

Definition second_armature : SceneObject :=
  {| name := "Armature.001"; type := "ARMATURE"; visible := true;
     parent := None; users_collection := ["Props"];
     data := Some {| users := 1; vrm_addon_extension := Some "1.0-beta";
                     bone_names := [] |};
     constraints := []; pose_bones := [] |}.

Definition body_mesh : SceneObject :=
  {| name := "Body"; type := "MESH"; visible := true;
     parent := Some first_armature; users_collection := ["Rigs"];
     data := None; constraints := []; pose_bones := [] |}.

Definition nested_child_to_parent : gmap string (option string) :=
  <["Rigs" := Some "Characters"]>
    (<["Props" := Some "Scene Collection"]>
       (<["Characters" := Some "Scene Collection"]>
          {[ "Scene Collection" := None ]})).

Definition nested_context : Context :=
  {| preferences := None;
     data_objects := [];
     data_armatures :=
       [ {| users := 1; vrm_addon_extension := Some "0.0";
            bone_names := [] |};
         {| users := 1; vrm_addon_extension := Some "1.0-beta";
            bone_names := [] |} ];
     selectable_objects := [first_armature; body_mesh; second_armature];
     selected_objects := [];
     active_object := None;
     view_layer_active := Some second_armature;
     scene_collection := nested_scene_collection |}.

(** * Properties *)

(** ** Generic facts *)

Lemma fold_left_invariant {A B} (P : A -> Prop) (f : A -> B -> A) l a :
  P a -> (forall a b, P a -> P (f a b)) -> P (fold_left f l a).
Proof.
  intros Ha Hf. revert a Ha.
  induction l as [|b l IH]; simpl; auto.
Qed.

Lemma for_each_invariant {X S} (P : S -> Prop) (body : X -> S -> outcome S)
  xs s :
  P s -> (forall x s, P s -> P (final (body x s))) ->
  P (final (for_each body xs s)).
Proof.
  intros Hs Hbody. revert s Hs.
  induction xs as [|x xs IH]; simpl; intros s Hs; [exact Hs|].
  specialize (Hbody x s Hs).
  destruct (body x s) as [s'|e s']; simpl in *; auto.
Qed.

Lemma final_zoom {S A} (get : S -> A) (put : A -> S -> S) f (s : S) :
  final (zoom get put f s) = put (final (f (get s))) s.
Proof. unfold zoom. destruct (f (get s)); reflexivity. Qed.

Lemma tuple_ge_spec v1 v2 v3 w1 w2 w3 :
  tuple_ge (v1, v2, v3) (w1, w2, w3) = true
  <-> w1 < v1 \/ (v1 = w1 /\ (w2 < v2 \/ (v2 = w2 /\ w3 <= v3))).
Proof. unfold tuple_ge. lia. Qed.

(** ** The version gate *)

(** C1. A rig whose stored [addon_version] is at least (2, 0, 1) in the
    order of tuples passes through the version-gated legacy migration
    unchanged: the entry point returns at the gate, before the meta,
    blend-shape, first-person, humanoid and secondary-animation migrators
    and before the scan of the per-role custom properties, so the document
    it leaves is the document it found. *)
Theorem migrate_legacy_custom_properties_up_to_date
  (H : Host) (bpy : BlendData) (rig : Rig) (v1 v2 v3 : Z) :
  addon_version (ext rig) = (v1, v2, v3) ->
  2 < v1 \/ (v1 = 2 /\ (0 < v2 \/ (v2 = 0 /\ 1 <= v3))) ->
  migrate_legacy_custom_properties H bpy rig = Done rig.
Proof.
  intros Hv Hge. unfold migrate_legacy_custom_properties.
  rewrite Hv. apply tuple_ge_spec in Hge. rewrite Hge. reflexivity.
Qed.

Lemma migrate_legacy_custom_properties_up_to_date_witness :
  migrate_legacy_custom_properties example_host example_data
    (example_rig (2, 0, 1)) = Done (example_rig (2, 0, 1)).
Proof.
  apply (migrate_legacy_custom_properties_up_to_date
           example_host example_data (example_rig (2, 0, 1)) 2 0 1).
  - reflexivity.
  - lia.
Defined.

Lemma and_then_invariant {S} (P : S -> Prop) (o : outcome S) k :
  P (final o) -> (forall s, P s -> P (final (k s))) -> P (final (o >>> k)).
Proof. destruct o as [s|e s]; simpl; auto. Qed.

Lemma assign_if_invariant {A R} (P : R -> Prop) (o : option A) set (r : R) :
  P r -> (forall a r, P r -> P (set a r)) -> P (assign_if o set r).
Proof. destruct o; simpl; auto. Qed.

(** ** Axis reordering *)






(** ** Material-value binds *)







(** ** Fields of the wrong type *)

(** The humanoid migrator tests every field before assigning it: a value
    that fails the test of its field leaves the field as it was. *)
Lemma humanoid_mismatch_skipped (humanoid : Humanoid) d :
  let humanoid' := migrate_vrm0_humanoid humanoid (JObj d) in
  (as_number (dict_get "armStretch" d) = None ->
   arm_stretch humanoid' = arm_stretch humanoid)
  /\ (as_number (dict_get "legStretch" d) = None ->
      leg_stretch humanoid' = leg_stretch humanoid)
  /\ (as_number (dict_get "upperArmTwist" d) = None ->
      upper_arm_twist humanoid' = upper_arm_twist humanoid)
  /\ (as_number (dict_get "lowerArmTwist" d) = None ->
      lower_arm_twist humanoid' = lower_arm_twist humanoid)
  /\ (as_number (dict_get "upperLegTwist" d) = None ->
      upper_leg_twist humanoid' = upper_leg_twist humanoid)
  /\ (as_number (dict_get "lowerLegTwist" d) = None ->
      lower_leg_twist humanoid' = lower_leg_twist humanoid)
  /\ (as_number (dict_get "feetSpacing" d) = None ->
      feet_spacing humanoid' = feet_spacing humanoid)
  /\ (as_bool (dict_get "hasTranslationDoF" d) = None ->
      has_translation_dof humanoid' = has_translation_dof humanoid).
Proof.
  unfold migrate_vrm0_humanoid.
  repeat split; intros Hnone; rewrite Hnone; simpl;
    repeat (apply assign_if_invariant; [|intros ? ? Hr; exact Hr]);
    reflexivity.
Qed.

(** A bind whose [mesh], [index] or [weight] fails its test keeps the
    field, and a field that fails its test raises nothing. *)
Lemma bind_mismatch_skipped (bpy : BlendData) d (bind : Bind) :
  let result := migrate_bind bpy (JObj d) bind in
  (as_str (dict_get "mesh" d) = None ->
   bind_mesh (final result) = bind_mesh bind
   /\ bind_index (final result) = bind_index bind)
  /\ (as_str (dict_get "index" d) = None ->
      bind_index (final result) = bind_index bind)
  /\ (as_number (dict_get "weight" d) = None ->
      weight (final result) = weight bind)
  /\ (as_str (dict_get "mesh" d) = None
      \/ as_str (dict_get "index" d) = None ->
      as_number (dict_get "weight" d) = None -> completed result).
Proof.
  unfold migrate_bind, assign_float. cbv zeta.
  destruct (dict_get "mesh" d) as [ | | |mesh| | ]; simpl;
    try (destruct (as_number (dict_get "weight" d)) as [w|];
         [destruct (float_property_accepts w)|];
         repeat split; try discriminate; try reflexivity;
         intros; exact I).
  destruct (meshes bpy !! mesh) as [mesh_data|]; simpl.
  - destruct (dict_get "index" d) as [ | | |index| | ]; simpl;
      try (destruct (as_number (dict_get "weight" d)) as [w|];
           [destruct (float_property_accepts w)|];
           repeat split; try discriminate; try reflexivity;
           intros; exact I).
    destruct (shape_keys mesh_data); simpl;
      [destruct (bool_decide _); simpl|];
      (destruct (as_number (dict_get "weight" d)) as [w|];
       [destruct (float_property_accepts w)|];
       repeat split; try discriminate; try reflexivity;
       intros [Hm|Hi]; discriminate).
  - destruct (as_number (dict_get "weight" d)) as [w|];
      [destruct (float_property_accepts w)|];
      repeat split; try discriminate; try reflexivity;
      try (intros [Hm|Hi]; discriminate); intros; exact I.
Qed.

(** C6. A blend-shape group whose legacy [name] is the number 5: the
    migrator assigns it to the string property all the same, the host
    refuses the value, and the exception leaves the migrator with the new
    group added and the rest of the dictionary unread. *)
Theorem misnamed_group_raises
  (H : Host) (bpy : BlendData) (groups : list BlendShapeGroup) :
  migrate_vrm0_blend_shape_groups H bpy groups (JArr [misnamed_group_dict])
  = Raised TypeError (groups ++ [add_blend_shape_group H]).
Proof. reflexivity. Qed.

(** ** The scan of the legacy per-role properties *)

Lemma role_node_set_human_bone_node role r b hbs :
  role_node role (set_human_bone_node r b hbs)
  = if decide (r = role) then (fun _ => b) <$> role_node role hbs
    else role_node role hbs.
Proof.
  unfold role_node. induction hbs as [|hb hbs IH]; simpl.
  - destruct (decide _); reflexivity.
  - destruct (String.eqb_spec (bone hb) r) as [Hr|Hr]; simpl.
    + destruct (decide (r = role)) as [->|Hne].
      * rewrite Hr, String.eqb_refl. reflexivity.
      * destruct (String.eqb_spec (bone hb) role); [congruence|reflexivity].
    + destruct (String.eqb_spec (bone hb) role) as [Hrole|Hrole].
      * destruct (decide (r = role)); [congruence|reflexivity].
      * exact IH.
Qed.

Lemma idprop_str_names_bone a role b :
  names_bone a role b
  <-> idprop_str (data_props a !! role) = Some b /\ b <> EmptyString.
Proof.
  unfold names_bone, idprop_str.
  destruct (data_props a !! role) as [[]|]; split; intros [Hp Hb];
    split; congruence.
Qed.

Lemma migrate_human_bone_props_app l1 l2 a assigned hbs :
  migrate_human_bone_props (l1 ++ l2) a assigned hbs
  = migrate_human_bone_props l2 a
      (migrate_human_bone_props l1 a assigned hbs).1
      (migrate_human_bone_props l1 a assigned hbs).2.
Proof.
  revert assigned hbs. induction l1 as [|r l1 IH]; intros; simpl; auto.
  destruct (idprop_str _); [destruct (_ || _)|]; apply IH.
Qed.

(** The names assigned after a stretch of the scan: those assigned before
    and those a role of the stretch names. *)
Lemma migrate_human_bone_props_assigned l a assigned hbs b :
  b ∈ (migrate_human_bone_props l a assigned hbs).1
  <-> b ∈ assigned \/ exists r, r ∈ l /\ names_bone a r b.
Proof.
  revert assigned hbs. induction l as [|r l IH]; intros assigned hbs; simpl.
  - split; [auto|]. intros [?|(r & Hr & _)]; [done|]. inversion Hr.
  - destruct (idprop_str (data_props a !! r)) as [b'|] eqn:Hp.
    + destruct (String.eqb_spec b' EmptyString) as [Hempty|Hempty]; simpl.
      * rewrite IH. split.
        -- intros [?|(r' & Hr' & Hn)]; [auto|].
           right. exists r'. split; [right; exact Hr'|exact Hn].
        -- intros [?|(r' & Hr' & Hn)]; [auto|].
           apply elem_of_cons in Hr' as [->|Hr'].
           ++ apply idprop_str_names_bone in Hn as [Hn Hb]. congruence.
           ++ right. exists r'. auto.
      * destruct (bool_decide_reflect (b' ∈ assigned)) as [Hin|Hin].
        -- rewrite IH. split.
           ++ intros [?|(r' & Hr' & Hn)]; [auto|].
              right. exists r'. split; [right; exact Hr'|exact Hn].
           ++ intros [?|(r' & Hr' & Hn)]; [auto|].
              apply elem_of_cons in Hr' as [->|Hr'].
              ** apply idprop_str_names_bone in Hn as [Hn Hb].
                 left. congruence.
              ** right. exists r'. auto.
        -- rewrite IH, elem_of_app, list_elem_of_singleton. split.
           ++ intros [[?| ->]|(r' & Hr' & Hn)]; [auto| |].
              ** right. exists r. split; [left|].
                 apply idprop_str_names_bone. auto.
              ** right. exists r'. split; [right; exact Hr'|exact Hn].
           ++ intros [?|(r' & Hr' & Hn)]; [auto|].
              apply elem_of_cons in Hr' as [->|Hr'].
              ** apply idprop_str_names_bone in Hn as [Hn Hb].
                 left. right. congruence.
              ** right. exists r'. auto.
    + rewrite IH. split.
      * intros [?|(r' & Hr' & Hn)]; [auto|].
        right. exists r'. split; [right; exact Hr'|exact Hn].
      * intros [?|(r' & Hr' & Hn)]; [auto|].
        apply elem_of_cons in Hr' as [->|Hr'].
        -- apply idprop_str_names_bone in Hn as [Hn Hb]. congruence.
        -- right. exists r'. auto.
Qed.

(** A stretch of the scan that does not visit the role leaves its bone
    reference alone. *)
Lemma migrate_human_bone_props_other l a assigned hbs role :
  role ∉ l ->
  role_node role (migrate_human_bone_props l a assigned hbs).2
  = role_node role hbs.
Proof.
  revert assigned hbs. induction l as [|r l IH]; intros assigned hbs Hnot;
    simpl; [reflexivity|].
  apply not_elem_of_cons in Hnot as [Hne Hnot].
  destruct (idprop_str _); [destruct (_ || _)|]; rewrite IH by exact Hnot;
    try reflexivity.
  rewrite role_node_set_human_bone_node.
  destruct (decide _); [congruence|reflexivity].
Qed.

(** C9. The scan visits the roles of the closed set in order, each once.
    For a role whose legacy property names a bone (a non-empty string):
    when no role visited earlier names the same bone, the role is assigned
    that bone; when some earlier role names it, the role is skipped and its
    bone reference stays as it was. A role whose property names no bone is
    left alone as well. So a role receives at most the one name found for
    it, and of the roles that name one bone only the earliest receives
    it. *)
Theorem legacy_scan_first_role_wins
  (armature : ArmatureObject) (earlier later : list string) (role : string)
  (human_bones : list HumanBone) :
  NoDup (earlier ++ role :: later) ->
  let scanned :=
    (migrate_human_bone_props (earlier ++ role :: later) armature []
       human_bones).2 in
  (forall bone_name,
      names_bone armature role bone_name ->
      (forall r, r ∈ earlier -> ~ names_bone armature r bone_name) ->
      role_node role scanned
      = (fun _ => bone_name) <$> role_node role human_bones)
  /\ (forall bone_name r,
         names_bone armature role bone_name ->
         r ∈ earlier -> names_bone armature r bone_name ->
         role_node role scanned = role_node role human_bones)
  /\ ((forall bone_name, ~ names_bone armature role bone_name) ->
      role_node role scanned = role_node role human_bones).
Proof.
  intros Hnodup scanned. subst scanned.
  apply NoDup_app in Hnodup as (_ & Hearlier & Hlater).
  apply NoDup_cons in Hlater as [Hlater _].
  assert (Hpre : role ∉ earlier).
  { intros Hin. apply (Hearlier role Hin). left. }
  rewrite migrate_human_bone_props_app.
  pose proof (migrate_human_bone_props_other earlier armature [] human_bones
                role Hpre) as Hkept.
  pose proof (migrate_human_bone_props_assigned earlier armature []
                human_bones) as Hassigned.
  destruct (migrate_human_bone_props earlier armature [] human_bones)
    as [assigned hbs]. simpl in *.
  repeat split.
  - intros b Hb Hfirst.
    apply idprop_str_names_bone in Hb as [Hp Hne]. rewrite Hp.
    destruct (String.eqb_spec b EmptyString) as [|_]; [done|]. simpl.
    destruct (bool_decide_reflect (b ∈ assigned)) as [Hin|_].
    + apply Hassigned in Hin as [Hin|(r & Hr & Hn)]; [inversion Hin|].
      destruct (Hfirst r Hr Hn).
    + rewrite migrate_human_bone_props_other by exact Hlater.
      rewrite role_node_set_human_bone_node.
      destruct (decide _); [|done]. rewrite Hkept. reflexivity.
  - intros b r Hb Hr Hn.
    apply idprop_str_names_bone in Hb as [Hp Hne]. rewrite Hp.
    destruct (String.eqb_spec b EmptyString) as [|_]; [done|]. simpl.
    destruct (bool_decide_reflect (b ∈ assigned)) as [_|Hout].
    + rewrite migrate_human_bone_props_other by exact Hlater. exact Hkept.
    + destruct Hout. apply Hassigned. right. exists r. auto.
  - intros Hnone.
    destruct (idprop_str (data_props armature !! role)) as [b|] eqn:Hp.
    + destruct (String.eqb_spec b EmptyString) as [|Hne]; simpl.
      * rewrite migrate_human_bone_props_other by exact Hlater. exact Hkept.
      * destruct (Hnone b). apply idprop_str_names_bone. auto.
    + rewrite migrate_human_bone_props_other by exact Hlater. exact Hkept.
Qed.

Lemma legacy_scan_first_role_wins_witness :
  role_node "hips"
    (migrate_human_bone_props ["hips"; "head"; "leftUpperArm"]
       contested_armature [] unassigned_human_bones).2
  = Some "Head"
  /\ role_node "head"
       (migrate_human_bone_props ["hips"; "head"; "leftUpperArm"]
          contested_armature [] unassigned_human_bones).2
     = Some EmptyString.
Proof.
  assert (Hnodup : NoDup ["hips"; "head"; "leftUpperArm"]).
  { apply (bool_decide_unpack _). vm_compute. exact I. }
  split.
  - destruct (legacy_scan_first_role_wins contested_armature []
                ["head"; "leftUpperArm"] "hips" unassigned_human_bones
                Hnodup) as (Hfirst & _ & _).
    apply (Hfirst "Head").
    + split; [vm_compute; reflexivity | discriminate].
    + intros r Hr. inversion Hr.
  - destruct (legacy_scan_first_role_wins contested_armature ["hips"]
                ["leftUpperArm"] "head" unassigned_human_bones
                Hnodup) as (_ & Hlater & _).
    apply (Hlater "Head" "hips").
    + split; [vm_compute; reflexivity | discriminate].
    + left.
    + split; [vm_compute; reflexivity | discriminate].
Defined.

(** ** Collider groups from the markers of the scene *)

Lemma dict_append_keys key o d :
  map fst (dict_append key o d)
  = if bool_decide (key ∈ map fst d) then map fst d else map fst d ++ [key].
Proof.
  induction d as [|[k os] d IH]; simpl; [reflexivity|].
  destruct (String.eqb_spec k key) as [->|Hne]; simpl.
  - rewrite bool_decide_eq_true_2 by left. reflexivity.
  - rewrite IH.
    destruct (bool_decide_reflect (key ∈ map fst d)) as [Hin|Hout].
    + rewrite bool_decide_eq_true_2 by (right; exact Hin). reflexivity.
    + rewrite bool_decide_eq_false_2; [reflexivity|].
      intros Hin. apply elem_of_cons in Hin as [?|?]; congruence.
Qed.

Lemma dict_append_elem key o d b objs :
  NoDup (map fst d) ->
  (b, objs) ∈ dict_append key o d ->
  (b <> key /\ (b, objs) ∈ d)
  \/ (b = key
      /\ ((exists objs0, (key, objs0) ∈ d /\ objs = objs0 ++ [o])
          \/ ((key ∉ map fst d) /\ objs = [o]))).
Proof.
  induction d as [|[k os] d IH]; simpl; intros Hnodup Hin.
  - apply list_elem_of_singleton in Hin. injection Hin as -> ->.
    right. split; [reflexivity|]. right. split; [|reflexivity].
    intros Hnil. inversion Hnil.
  - apply NoDup_cons in Hnodup as [Hk Hnodup].
    destruct (String.eqb_spec k key) as [->|Hne].
    + apply elem_of_cons in Hin as [Hin|Hin].
      * injection Hin as -> ->. right. split; [reflexivity|].
        left. exists os. split; [left|reflexivity].
      * left. split; [|right; exact Hin].
        intros ->. apply Hk.
        apply (list_elem_of_fmap_2 fst) in Hin. exact Hin.
    + apply elem_of_cons in Hin as [Hin|Hin].
      * injection Hin as -> ->. left. split; [exact Hne|left].
      * destruct (IH Hnodup Hin) as [[Hb Hd]|[-> Hcase]].
        -- left. split; [exact Hb|right; exact Hd].
        -- right. split; [reflexivity|].
           destruct Hcase as [(objs0 & Hd & ->)|[Hout ->]].
           ++ left. exists objs0. split; [right; exact Hd|reflexivity].
           ++ right. split; [|reflexivity].
              intros Hin'. apply elem_of_cons in Hin' as [?|?]; congruence.
Qed.

Lemma dict_append_NoDup key o d :
  NoDup (map fst d) -> NoDup (map fst (dict_append key o d)).
Proof.
  intros Hnodup. rewrite dict_append_keys.
  destruct (bool_decide_reflect (key ∈ map fst d)) as [Hin|Hout];
    [exact Hnodup|].
  apply NoDup_app. split; [exact Hnodup|]. split.
  - intros x Hx Hx'. apply list_elem_of_singleton in Hx'. congruence.
  - apply NoDup_singleton.
Qed.

Lemma filter_none {A} (P : A -> Prop) `{forall x, Decision (P x)} l :
  (forall x, x ∈ l -> ~ P x) -> filter P l = [].
Proof.
  induction l as [|x l IH]; intros Hnone; [reflexivity|].
  rewrite filter_cons_False by (apply Hnone; left).
  apply IH. intros y Hy. apply Hnone. right. exact Hy.
Qed.

(** The dict of the scan after the markers [processed]: one key per parent
    bone, and under each key the markers of that bone in scan order. *)
Lemma collider_dict_invariant (processed : list Object) :
  let d := fold_left (fun d o => dict_append (parent_bone o) o d) processed []
  in
  NoDup (map fst d)
  /\ (forall b, b ∈ map fst d <-> b ∈ map parent_bone processed)
  /\ (forall b objs,
         (b, objs) ∈ d ->
         objs = filter (fun o => parent_bone o = b) processed).
Proof.
  induction processed as [|o processed IH] using rev_ind; simpl.
  - split; [apply NoDup_nil_2|]. split.
    + intros b. reflexivity.
    + intros b objs Hin. inversion Hin.
  - rewrite fold_left_app. simpl.
    destruct IH as (Hnodup & Hkeys & Hobjs).
    set (d := fold_left _ processed []) in *.
    split; [apply dict_append_NoDup; exact Hnodup|]. split.
    + intros b. rewrite dict_append_keys, map_app, elem_of_app. simpl.
      rewrite list_elem_of_singleton, <- Hkeys.
      destruct (bool_decide_reflect (parent_bone o ∈ map fst d)) as [Hin|_].
      * split; [auto|]. intros [?| ->]; auto.
      * rewrite elem_of_app, list_elem_of_singleton. reflexivity.
    + intros b objs Hin. rewrite filter_app.
      apply dict_append_elem in Hin as [[Hb Hd]|[-> Hcase]];
        [| |exact Hnodup].
      * rewrite (Hobjs b objs Hd).
        rewrite (filter_cons_False _ o) by congruence.
        rewrite filter_nil, app_nil_r. reflexivity.
      * rewrite (filter_cons_True _ o) by reflexivity. rewrite filter_nil.
        destruct Hcase as [(objs0 & Hd & ->)|[Hout ->]].
        -- rewrite (Hobjs _ objs0 Hd). reflexivity.
        -- rewrite filter_none; [reflexivity|].
           intros o' Ho' Hparent. apply Hout, Hkeys.
           rewrite <- Hparent. apply list_elem_of_fmap_2. exact Ho'.
Qed.

Lemma new_collider_groups_lookup (H : Host) draw items i :
  new_collider_groups H draw items !! i
  = new_collider_group H (draw + i) <$> items !! i.
Proof.
  revert draw i. induction items as [|item items IH]; intros draw i; simpl.
  - destruct i; reflexivity.
  - destruct i as [|i]; simpl.
    + rewrite Nat.add_0_r. reflexivity.
    + rewrite IH. rewrite Nat.add_succ_r. reflexivity.
Qed.

Lemma new_collider_groups_length (H : Host) draw items :
  length (new_collider_groups H draw items) = length items.
Proof.
  revert draw. induction items as [|item items IH]; intros draw; simpl;
    [reflexivity|]. rewrite IH. reflexivity.
Qed.

Lemma bone_groups_appended (H : Host) dicts sa :
  fold_left
    (fun secondary_animation bone_group_dict =>
       set_bone_groups
         (bone_groups secondary_animation
          ++ [migrate_bone_group H (collider_groups secondary_animation)
                bone_group_dict (add_bone_group H)])
         secondary_animation) dicts sa
  = set_bone_groups
      (bone_groups sa
       ++ map (fun bone_group_dict =>
                 migrate_bone_group H (collider_groups sa) bone_group_dict
                   (add_bone_group H)) dicts) sa.
Proof.
  revert sa. induction dicts as [|d dicts IH]; intros sa; simpl.
  - rewrite app_nil_r. destruct sa; reflexivity.
  - rewrite IH. simpl. rewrite <- app_assoc. reflexivity.
Qed.

(** What a pass of the reconstruction leaves: the collider groups of the
    document followed by those built from the markers, all refreshed, and
    the bone groups of the document followed by one per legacy entry,
    migrated against those collider groups, all refreshed. *)
Lemma migrate_vrm0_secondary_animation_result (H : Host) sa dicts a draws :
  let items := bone_name_to_collider_objects a in
  let groups :=
    map (collider_group_refresh H a)
      (collider_groups sa ++ new_collider_groups H draws items) in
  migrate_vrm0_secondary_animation H sa dicts a draws
  = ({| collider_groups := groups;
        bone_groups :=
          map (bone_group_refresh H a)
            (bone_groups sa
             ++ map (fun bone_group_dict =>
                       migrate_bone_group H groups bone_group_dict
                         (add_bone_group H))
                  (default [] (as_iterable dicts))) |},
     (draws + length items)%nat).
Proof.
  unfold migrate_vrm0_secondary_animation. cbv zeta.
  rewrite bone_groups_appended. simpl.
  destruct (as_iterable dicts); reflexivity.
Qed.

(** C4. Reconstruction from the markers of the scene. For a bone with at
    least one marker (a child that is an empty, displayed as a sphere and
    parented to an existing bone), the pass builds exactly one collider
    group: its bone reference is the name of the bone, its identifier is a
    fresh draw of the generator, and its colliders are the markers of that
    bone, one record each, in scan order. The pass builds as many groups
    as there are distinct parent bones among the markers (two for markers
    on two bones), their identifiers are pairwise distinct when the
    generator does not repeat itself, and they follow the groups the
    document already had. *)
Theorem collider_groups_reconstructed
  (H : Host) (armature : ArmatureObject)
  (secondary_animation : SecondaryAnimation) (bone_group_dicts : json)
  (draws : nat) (bone_name : string) :
  let built :=
    new_collider_groups H draws (bone_name_to_collider_objects armature) in
  let result :=
    migrate_vrm0_secondary_animation H secondary_animation bone_group_dicts
      armature draws in
  collider_objects_of armature bone_name <> [] ->
  collider_groups result.1
  = map (collider_group_refresh H armature)
      (collider_groups secondary_animation ++ built)
  /\ (exists i,
         built !! i
         = Some {| collider_group_name := EmptyString;
                   uuid := uuid4_hex H (draws + i);
                   collider_group_node := bone_name;
                   colliders :=
                     map (fun o => {| blender_object := Some o |})
                       (collider_objects_of armature bone_name) |}
         /\ forall j g,
             built !! j = Some g -> collider_group_node g = bone_name ->
             j = i)
  /\ length built
     = length (remove_dups (map parent_bone (collider_objects armature)))
  /\ ((forall n m, uuid4_hex H n = uuid4_hex H m -> n = m) ->
      NoDup (map uuid built)).
Proof.
  intros built result Hsome. subst built result.
  rewrite migrate_vrm0_secondary_animation_result. simpl.
  split; [reflexivity|].
  destruct (collider_dict_invariant (collider_objects armature))
    as (Hnodup & Hkeys & Hobjs).
  change (fold_left _ (collider_objects armature) [])
    with (bone_name_to_collider_objects armature) in *.
  set (items := bone_name_to_collider_objects armature) in *.
  repeat split.
  - assert (Hin : bone_name ∈ map fst items).
    { apply Hkeys. destruct (collider_objects_of armature bone_name)
        as [|o os] eqn:Hof; [done|].
      assert (Ho : o ∈ collider_objects_of armature bone_name)
        by (rewrite Hof; left).
      apply list_elem_of_filter in Ho as [Hparent Ho].
      rewrite <- Hparent. apply list_elem_of_fmap_2. exact Ho. }
    apply list_elem_of_lookup in Hin as [i Hi].
    rewrite list_lookup_fmap in Hi.
    destruct (items !! i) as [[b objs]|] eqn:Hitem; [|discriminate].
    simpl in Hi. injection Hi as ->.
    exists i. split.
    + rewrite new_collider_groups_lookup, Hitem. simpl.
      unfold new_collider_group. simpl.
      rewrite (Hobjs bone_name objs)
        by (apply list_elem_of_lookup; exists i; exact Hitem).
      reflexivity.
    + intros j g Hj Hnode.
      rewrite new_collider_groups_lookup in Hj.
      destruct (items !! j) as [[b' objs']|] eqn:Hitem'; [|discriminate].
      simpl in Hj. injection Hj as <-. simpl in Hnode. subst b'.
      apply (NoDup_lookup (map fst items) j i bone_name Hnodup);
        rewrite list_lookup_fmap; [rewrite Hitem'|rewrite Hitem];
        reflexivity.
  - rewrite new_collider_groups_length, <- (length_map fst items).
    apply Permutation_length, NoDup_Permutation;
      [exact Hnodup|apply NoDup_remove_dups|].
    intros b. rewrite elem_of_remove_dups. apply Hkeys.
  - intros Hinj. apply NoDup_alt. intros i j x Hi Hj.
    rewrite list_lookup_fmap, new_collider_groups_lookup in Hi, Hj.
    destruct (items !! i); [|discriminate].
    destruct (items !! j); [|discriminate].
    simpl in Hi, Hj. injection Hi as <-. injection Hj as Hj.
    apply Hinj in Hj. lia.
Qed.

Lemma collider_groups_reconstructed_witness :
  collider_objects_of example_armature "Head"
  = [marker "c1" "Head"; marker "c3" "Head"]
  /\ (exists i,
         new_collider_groups example_host 0
           (bone_name_to_collider_objects example_armature) !! i
         = Some {| collider_group_name := EmptyString;
                   uuid := uuid4_hex example_host (0 + i);
                   collider_group_node := "Head";
                   colliders :=
                     map (fun o => {| blender_object := Some o |})
                       (collider_objects_of example_armature "Head") |}
         /\ forall j g,
             new_collider_groups example_host 0
               (bone_name_to_collider_objects example_armature) !! j
             = Some g ->
             collider_group_node g = "Head" -> j = i)
  /\ length (new_collider_groups example_host 0
               (bone_name_to_collider_objects example_armature))
     = 2%nat.
Proof.
  assert (Hsome : collider_objects_of example_armature "Head" <> []).
  { vm_compute. discriminate. }
  destruct (collider_groups_reconstructed example_host example_armature
              (secondary_animation example_vrm0) JNull 0 "Head" Hsome)
    as (_ & Hone & Hcount & _).
  split; [vm_compute; reflexivity|].
  split; [exact Hone|]. rewrite Hcount. vm_compute. reflexivity.
Defined.

(** ** Collider-group references of the bone groups *)

Lemma add_collider_group_name_find name groups names :
  add_collider_group_name name groups names
  = names
    ++ match find (node_matches name) groups with
       | Some g => [collider_group_name g]
       | None => []
       end.
Proof.
  induction groups as [|g groups IH]; simpl.
  - symmetry. apply app_nil_r.
  - unfold node_matches at 1.
    destruct (String.eqb (collider_group_node g) name); simpl;
      [reflexivity|exact IH].
Qed.

Lemma collider_group_names_appended groups names bg :
  bone_group_collider_groups
    (fold_left
       (fun bone_group collider_group_node_name =>
          match collider_group_node_name with
          | JStr name =>
              set_bone_group_collider_groups
                (add_collider_group_name name groups
                   (bone_group_collider_groups bone_group)) bone_group
          | _ => bone_group
          end) names bg)
  = bone_group_collider_groups bg
    ++ flat_map
         (fun v =>
            match v with
            | JStr name =>
                match find (node_matches name) groups with
                | Some g => [collider_group_name g]
                | None => []
                end
            | _ => []
            end) names.
Proof.
  revert bg. induction names as [|v names IH]; intros bg; simpl.
  - symmetry. apply app_nil_r.
  - rewrite IH. destruct v; simpl; try reflexivity.
    rewrite add_collider_group_name_find, <- app_assoc. reflexivity.
Qed.

Lemma collider_group_names_kept_by_bones bones0 bg :
  bone_group_collider_groups
    (fold_left
       (fun bone_group bone =>
          let bone_prop := match bone with
                           | JStr s => s
                           | _ => EmptyString
                           end in
          set_bones (bones bone_group ++ [bone_prop]) bone_group) bones0 bg)
  = bone_group_collider_groups bg.
Proof.
  apply (fold_left_invariant
           (fun g => bone_group_collider_groups g
                     = bone_group_collider_groups bg));
    [reflexivity|]. intros g b Hg. exact Hg.
Qed.




(** ** The legacy data reader *)

Lemma dict_set_fresh key v d :
  key ∉ map fst d -> dict_set key v d = d ++ [(key, v)].
Proof.
  induction d as [|[k w] d IH]; simpl; intros Hfresh; [reflexivity|].
  apply not_elem_of_cons in Hfresh as [Hne Hfresh].
  destruct (String.eqb_spec k key); [congruence|].
  rewrite IH by exact Hfresh. reflexivity.
Qed.

Lemma OrderedDict_from_distinct pairs acc :
  NoDup (map fst (acc ++ pairs)) ->
  fold_left (fun d kv => dict_set kv.1 kv.2 d) pairs acc = acc ++ pairs.
Proof.
  revert acc. induction pairs as [|[k v] pairs IH]; intros acc Hnodup; simpl.
  - symmetry. apply app_nil_r.
  - rewrite dict_set_fresh.
    + rewrite IH; rewrite <- app_assoc; [reflexivity|exact Hnodup].
    + rewrite map_app in Hnodup. apply NoDup_app in Hnodup as (_ & Hd & _).
      intros Hin. apply (Hd k Hin). left.
Qed.

(** An object whose keys are distinct keeps its pairs, in textual order. *)
Lemma OrderedDict_distinct pairs :
  NoDup (map fst pairs) -> OrderedDict pairs = pairs.
Proof. intros Hnodup. apply (OrderedDict_from_distinct pairs []), Hnodup. Qed.

Lemma dict_set_keys key v d :
  map fst (dict_set key v d)
  = if bool_decide (key ∈ map fst d) then map fst d else map fst d ++ [key].
Proof.
  induction d as [|[k w] d IH]; simpl; [reflexivity|].
  destruct (String.eqb_spec k key) as [->|Hne]; simpl.
  - rewrite bool_decide_eq_true_2 by left. reflexivity.
  - rewrite IH.
    destruct (bool_decide_reflect (key ∈ map fst d)) as [Hin|Hout].
    + rewrite bool_decide_eq_true_2 by (right; exact Hin). reflexivity.
    + rewrite bool_decide_eq_false_2; [reflexivity|].
      intros Hin. apply elem_of_cons in Hin as [?|?]; congruence.
Qed.

(** With repeated keys, a key stays where it first occurs: the keys of the
    dict are a subsequence of the keys of the text. *)
Lemma OrderedDict_keys_in_order pairs :
  sublist (map fst (OrderedDict pairs)) (map fst pairs).
Proof.
  unfold OrderedDict.
  assert (Hgen : forall acc,
             exists ks,
               map fst (fold_left (fun d kv => dict_set kv.1 kv.2 d) pairs acc)
               = map fst acc ++ ks
               /\ sublist ks (map fst pairs)).
  { induction pairs as [|[k v] pairs IH]; intros acc; simpl.
    - exists []. split; [symmetry; apply app_nil_r|constructor].
    - destruct (IH (dict_set k v acc)) as (ks & Hks & Hsub).
      rewrite dict_set_keys in Hks.
      destruct (bool_decide (k ∈ map fst acc)).
      + exists ks. split; [exact Hks|]. apply sublist_cons. exact Hsub.
      + exists (k :: ks). rewrite <- app_assoc in Hks.
        split; [exact Hks|]. apply sublist_skip. exact Hsub. }
  destruct (Hgen []) as (ks & Hks & Hsub). rewrite Hks. exact Hsub.
Qed.

(** On a document without repeated keys the hook changes nothing, at any
    depth. *)
Lemma object_pairs_hook_distinct :
  forall v, distinct_keys v -> object_pairs_hook v = v.
Proof.
  fix IH 1. intros [ | b | n | s | items | pairs]; simpl; try reflexivity.
  - intros Hitems. f_equal.
    induction items as [|w items IHitems]; simpl; [reflexivity|].
    destruct Hitems as [Hw Hitems].
    rewrite (IH w Hw), (IHitems Hitems). reflexivity.
  - intros [Hnodup Hpairs].
    assert (Hmap : map (fun kv => match kv with
                                  | (k, w) => (k, object_pairs_hook w)
                                  end) pairs = pairs).
    { clear Hnodup.
      induction pairs as [|[k w] pairs IHpairs]; simpl; [reflexivity|].
      destruct Hpairs as [Hw Hpairs]. simpl in Hw.
      rewrite (IH w Hw), (IHpairs Hpairs). reflexivity. }
    rewrite Hmap, OrderedDict_distinct by exact Hnodup. reflexivity.
Qed.

(** C7, refuted as stated. The attachment of the rig is well-formed JSON,
    a hundred thousand arrays one in another. The decoder gives up on it
    with [RecursionError], which is not the exception the reader
    suppresses: the reader raises, where the claim has it return the value
    or [None]. *)
Lemma read_textblock_json_raises_on_deep_nesting :
  designates deeply_nested_data deeply_nested_armature "spring_bone"
    {| text_lines := [deeply_nested_text] |}
  /\ read_textblock_json example_host deeply_nested_data
       deeply_nested_armature "spring_bone"
     = inl RecursionError
  /\ forall v,
       read_textblock_json example_host deeply_nested_data
         deeply_nested_armature "spring_bone"
       <> inr v.
Proof.
  assert (Hraised : read_textblock_json example_host deeply_nested_data
                      deeply_nested_armature "spring_bone"
                    = inl RecursionError) by (vm_compute; reflexivity).
  split; [|split; [exact Hraised|]].
  - right. exists "spring_bone.json". split; reflexivity.
  - intros v. rewrite Hraised. discriminate.
Qed.

(** C7, amended. When the custom property designates a text attachment
    whose joined lines decode as JSON, the reader returns the decoded
    value with every object turned into an ordered dict: a document whose
    objects do not repeat a key comes back as decoded, the pairs of every
    object, nested ones included, in the order of the text. When the
    property is missing, is neither a text nor a string, names no text, or
    the decoder rejects the text as malformed ([json.JSONDecodeError]),
    the reader returns [None] and raises nothing. Any other exception of
    the decoder leaves the reader as it is. *)
Theorem read_textblock_json_contract
  (H : Host) (bpy : BlendData) (armature : ArmatureObject) (key : string) :
  let result := read_textblock_json H bpy armature key in
  (forall t v,
      designates bpy armature key t ->
      json_decode H (String.concat EmptyString (text_lines t)) = Decoded v ->
      result = inr (object_pairs_hook v)
      /\ (distinct_keys v -> result = inr v))
  /\ (forall t,
         designates bpy armature key t ->
         json_decode H (String.concat EmptyString (text_lines t))
         = JSONDecodeError ->
         result = inr JNull)
  /\ (forall t e,
         designates bpy armature key t ->
         json_decode H (String.concat EmptyString (text_lines t))
         = DecoderRaised e ->
         result = inl e)
  /\ (object_props armature !! key = None -> result = inr JNull)
  /\ (forall p,
         object_props armature !! key = Some p ->
         (forall t, p <> IDTextBlock t) -> (forall s, p <> IDStr s) ->
         result = inr JNull)
  /\ (forall name,
         object_props armature !! key = Some (IDStr name) ->
         texts bpy !! name = None -> result = inr JNull).
Proof.
  intros result. subst result. unfold read_textblock_json.
  assert (Hdesignated : forall t,
             designates bpy armature key t ->
             match object_props armature !! key with
             | Some (IDTextBlock t') => Some t'
             | Some (IDStr s) => texts bpy !! s
             | _ => None
             end = Some t).
  { intros t [Hp|(name & Hp & Ht)]; rewrite Hp; [reflexivity|exact Ht]. }
  split; [|split; [|split; [|split; [|split]]]].
  - intros t v Hdesignates Hdecode.
    rewrite (Hdesignated t Hdesignates), Hdecode.
    split; [reflexivity|].
    intros Hdistinct. f_equal. apply object_pairs_hook_distinct, Hdistinct.
  - intros t Hdesignates Hdecode.
    rewrite (Hdesignated t Hdesignates), Hdecode. reflexivity.
  - intros t e Hdesignates Hdecode.
    rewrite (Hdesignated t Hdesignates), Hdecode. reflexivity.
  - intros Hp. rewrite Hp. reflexivity.
  - intros p Hp Htext Hstr. rewrite Hp.
    destruct p; try reflexivity; [destruct (Hstr s)|destruct (Htext t)];
      reflexivity.
  - intros name Hp Ht. rewrite Hp, Ht. reflexivity.
Qed.

Lemma read_textblock_json_contract_witness :
  read_textblock_json example_host reader_data reader_armature "by_name"
  = inr nested_document
  /\ read_textblock_json example_host reader_data reader_armature "malformed"
     = inr JNull
  /\ read_textblock_json example_host deeply_nested_data
       deeply_nested_armature "spring_bone"
     = inl RecursionError
  /\ read_textblock_json example_host reader_data reader_armature "absent"
     = inr JNull
  /\ read_textblock_json example_host reader_data reader_armature "number"
     = inr JNull
  /\ read_textblock_json example_host reader_data reader_armature "dangling"
     = inr JNull.
Proof.
  split; [|split; [|split; [|split; [|split]]]].
  - destruct (read_textblock_json_contract example_host reader_data
                reader_armature "by_name") as (Hparsed & _).
    apply (Hparsed {| text_lines := [nested_document_text] |}
             nested_document).
    + right. exists "params.json". split; vm_compute; reflexivity.
    + vm_compute. reflexivity.
    + simpl. repeat split; apply (bool_decide_unpack _); vm_compute; exact I.
  - destruct (read_textblock_json_contract example_host reader_data
                reader_armature "malformed") as (_ & Hmalformed & _).
    apply (Hmalformed {| text_lines := ["{"; "oops"] |}).
    + right. exists "notes.txt". split; vm_compute; reflexivity.
    + vm_compute. reflexivity.
  - destruct (read_textblock_json_contract example_host deeply_nested_data
                deeply_nested_armature "spring_bone")
      as (_ & _ & Hraised & _).
    apply (Hraised {| text_lines := [deeply_nested_text] |}).
    + right. exists "spring_bone.json". split; reflexivity.
    + vm_compute. reflexivity.
  - destruct (read_textblock_json_contract example_host reader_data
                reader_armature "absent") as (_ & _ & _ & Hmissing & _).
    apply Hmissing. vm_compute. reflexivity.
  - destruct (read_textblock_json_contract example_host reader_data
                reader_armature "number") as (_ & _ & _ & _ & Htype & _).
    apply (Htype (IDInt 3)); [vm_compute; reflexivity| |]; discriminate.
  - destruct (read_textblock_json_contract example_host reader_data
                reader_armature "dangling")
      as (_ & _ & _ & _ & _ & Hdangling).
    apply (Hdangling "gone.json"); vm_compute; reflexivity.
Defined.

(** ** Running the orchestrator *)

Lemma gate_closed (H : Host) bpy rig :
  tuple_ge (addon_version (ext rig)) (2, 0, 1) = true ->
  migrate_legacy_custom_properties H bpy rig = Done rig.
Proof.
  intros Hge. unfold migrate_legacy_custom_properties. rewrite Hge.
  reflexivity.
Qed.

Lemma read_textblock_json_no_props (H : Host) bpy a key :
  object_props a = ∅ -> read_textblock_json H bpy a key = inr JNull.
Proof.
  intros Hprops. unfold read_textblock_json. rewrite Hprops, lookup_empty.
  reflexivity.
Qed.

Lemma with_textblock_json_invariant (P : Rig -> Prop) (H : Host) bpy a key
  migrator rig :
  P rig -> (forall legacy rig, P rig -> P (final (migrator legacy rig))) ->
  P (final (with_textblock_json H bpy a key migrator rig)).
Proof.
  intros Hrig Hmigrator. unfold with_textblock_json.
  destruct (read_textblock_json H bpy a key); [exact Hrig|].
  apply Hmigrator, Hrig.
Qed.

Lemma migrate_vrm0_meta_no_props (H : Host) bpy m a :
  object_props a = ∅ -> migrate_vrm0_meta H bpy m a = Done m.
Proof.
  intros Hprops. unfold migrate_vrm0_meta, migrate_meta_field.
  rewrite Hprops. rewrite !lookup_empty. reflexivity.
Qed.

(** Below the gate, on a rig without custom properties of its own, the
    legacy migration comes down to the reconstruction from the markers and
    the scan of the per-role properties. *)
Lemma legacy_without_attachments (H : Host) bpy rig :
  tuple_ge (addon_version (ext rig)) (2, 0, 1) = false ->
  object_props (armature rig) = ∅ ->
  migrate_legacy_custom_properties H bpy rig
  = let result :=
      migrate_vrm0_secondary_animation H
        (secondary_animation (rig_vrm0 rig)) JNull (armature rig)
        (uuid_draws rig) in
    let humanoid := humanoid (rig_vrm0 rig) in
    Done
      (set_uuid_draws result.2
         (set_rig_vrm0
            (set_humanoid
               (set_human_bones
                  (migrate_human_bone_props (all_names H) (armature rig) []
                     (human_bones humanoid)).2 humanoid)
               (set_secondary_animation result.1 (rig_vrm0 rig))) rig)).
Proof.
  intros Hlt Hprops. unfold migrate_legacy_custom_properties.
  rewrite Hlt. unfold zoom at 1 2.
  rewrite migrate_vrm0_meta_no_props by exact Hprops.
  unfold with_textblock_json.
  rewrite !read_textblock_json_no_props by exact Hprops.
  destruct rig as [a [ver [m hum fp bsg sa]] draws]. simpl.
  destruct (migrate_vrm0_secondary_animation H sa JNull a draws) as [sa' n].
  simpl. destruct hum. reflexivity.
Qed.

(** One run of the orchestrator below the gate, on a rig without custom
    properties of its own: the version stays, the human bones are the
    fixed-up ones after the scan, the first-person bone is the one the
    backfill chose before the scan, and the collider groups are the
    refreshed groups of the document followed by the rebuilt ones. *)
Lemma migrate_without_attachments (H : Host) bpy rig :
  tuple_ge (addon_version (ext rig)) (2, 0, 1) = false ->
  object_props (armature rig) = ∅ ->
  let a := armature rig in
  let fixed :=
    fixup_human_bones H a (human_bones (humanoid (rig_vrm0 rig))) in
  exists rig',
    migrate H bpy rig = Done rig'
    /\ armature rig' = a
    /\ addon_version (ext rig') = addon_version (ext rig)
    /\ human_bones (humanoid (rig_vrm0 rig'))
       = (migrate_human_bone_props (all_names H) a [] fixed).2
    /\ first_person_bone (first_person (rig_vrm0 rig'))
       = (if String.eqb (first_person_bone (first_person (rig_vrm0 rig)))
               EmptyString
          then match find (fun hb => String.eqb (bone hb) "head") fixed with
               | Some hb => node hb
               | None => first_person_bone (first_person (rig_vrm0 rig))
               end
          else first_person_bone (first_person (rig_vrm0 rig)))
    /\ collider_groups (secondary_animation (rig_vrm0 rig'))
       = map (collider_group_refresh H a)
           (map (collider_group_refresh H a)
              (collider_groups (secondary_animation (rig_vrm0 rig)))
            ++ new_collider_groups H (uuid_draws rig)
                 (bone_name_to_collider_objects a)).
Proof.
  intros Hlt Hprops a fixed. subst a fixed. unfold migrate.
  destruct rig as [a [ver [m hum fp bsg [cgs bgs]]] draws].
  destruct hum as [hbs ? ? ? ? ? ? ? ? ?].
  destruct fp as [fpb ? ? ? ? ? ? ?].
  unfold rig_vrm0, set_rig_vrm0 in *. simpl in *.
  destruct (String.eqb fpb EmptyString);
    [destruct (find _ (fixup_human_bones H a hbs))|];
    rewrite legacy_without_attachments by assumption;
    cbv zeta; rewrite migrate_vrm0_secondary_animation_result; simpl;
    eexists; (split; [reflexivity|]); simpl; repeat split; reflexivity.
Qed.

(** Whatever the host, below the gate every run rebuilds the collider
    groups of the markers and adds them to the document again. *)
Lemma every_run_rebuilds_collider_groups (H : Host) (bpy : BlendData) rig :
  tuple_ge (addon_version (ext rig)) (2, 0, 1) = false ->
  object_props (armature rig) = ∅ ->
  let before :=
    length (collider_groups (secondary_animation (rig_vrm0 rig))) in
  let built := length (bone_name_to_collider_objects (armature rig)) in
  length (collider_groups_left (migrate H bpy rig)) = (before + built)%nat
  /\ length (collider_groups_left (migrate_twice H bpy rig))
     = (before + built + built)%nat.
Proof.
  intros Hlt Hprops before built. subst before built.
  unfold migrate_twice, collider_groups_left.
  destruct (migrate_without_attachments H bpy rig Hlt Hprops)
    as (rig1 & -> & Ha & Hv & _ & _ & Hgroups).
  rewrite <- Hv in Hlt. rewrite <- Ha in Hprops.
  destruct (migrate_without_attachments H bpy rig1 Hlt Hprops)
    as (rig2 & Hrun & _ & _ & _ & _ & Hgroups2).
  unfold and_then. rewrite Hrun. unfold final.
  rewrite Hgroups2, Hgroups, Ha.
  repeat rewrite ?length_map, ?length_app, ?new_collider_groups_length.
  split; reflexivity.
Qed.

Lemma second_run_rebuilds_collider_groups (H : Host) (bpy : BlendData) :
  length (collider_groups_left (migrate H bpy marker_rig)) = 1%nat
  /\ length (collider_groups_left (migrate_twice H bpy marker_rig)) = 2%nat.
Proof.
  apply (every_run_rebuilds_collider_groups H bpy marker_rig);
    vm_compute; reflexivity.
Qed.

(** C2, refuted as stated. The rig [example_rig (1, 0, 0)] is below the
    version gate, and the orchestrator does not advance the version: the
    second run migrates the legacy data again. After the first run the
    document has one blend-shape group and two collider groups, after the
    second two and four. *)
Lemma migrate_twice_below_gate_differs :
  let once := migrate example_host example_data (example_rig (1, 0, 0)) in
  let twice :=
    migrate_twice example_host example_data (example_rig (1, 0, 0)) in
  completed once /\ completed twice
  /\ length (blend_shape_groups (rig_vrm0 (final once))) = 1%nat
  /\ length (blend_shape_groups (rig_vrm0 (final twice))) = 2%nat
  /\ length (collider_groups_left once) = 2%nat
  /\ length (collider_groups_left twice) = 4%nat
  /\ rig_vrm0 (final twice) <> rig_vrm0 (final once).
Proof.
  cbv zeta.
  split; [vm_compute; exact I|]. split; [vm_compute; exact I|].
  split; [vm_compute; reflexivity|]. split; [vm_compute; reflexivity|].
  split; [vm_compute; reflexivity|]. split; [vm_compute; reflexivity|].
  intros Heq.
  apply (f_equal (fun v => length (blend_shape_groups v))) in Heq.
  vm_compute in Heq. discriminate.
Qed.

(** C2, amended. Past the version gate the orchestrator only runs its
    cleanup, and a second run changes nothing, provided the cleanup
    methods of the property groups are idempotent on the records of the
    rig: fixing up the human bones twice is fixing them up once, and so is
    refreshing each collider group and each bone group. *)
Theorem migrate_twice_up_to_date
  (H : Host) (bpy : BlendData) (rig : Rig) (v1 v2 v3 : Z) :
  let a := armature rig in
  let vrm0 := rig_vrm0 rig in
  addon_version (ext rig) = (v1, v2, v3) ->
  2 < v1 \/ (v1 = 2 /\ (0 < v2 \/ (v2 = 0 /\ 1 <= v3))) ->
  fixup_human_bones H a
    (fixup_human_bones H a (human_bones (humanoid vrm0)))
  = fixup_human_bones H a (human_bones (humanoid vrm0)) ->
  Forall (fun g => collider_group_refresh H a (collider_group_refresh H a g)
                   = collider_group_refresh H a g)
    (collider_groups (secondary_animation vrm0)) ->
  Forall (fun g => bone_group_refresh H a (bone_group_refresh H a g)
                   = bone_group_refresh H a g)
    (bone_groups (secondary_animation vrm0)) ->
  migrate_twice H bpy rig = migrate H bpy rig.
Proof.
  intros a vrm0 Hv Hgate Hfix Hcg Hbg. subst a vrm0.
  assert (Hge : tuple_ge (addon_version (ext rig)) (2, 0, 1) = true).
  { rewrite Hv. apply tuple_ge_spec, Hgate. }
  clear Hv Hgate.
  unfold migrate_twice, migrate.
  rewrite gate_closed by exact Hge. simpl.
  rewrite gate_closed by exact Hge. simpl.
  destruct rig as [a [ver [m hum fp bsg [cgs bgs]]] draws].
  destruct hum as [hbs ? ? ? ? ? ? ? ? ?].
  destruct fp as [fpb ? ? ? ? ? ? ?].
  unfold rig_vrm0, set_rig_vrm0 in *. simpl in *.
  assert (Hcgs : map (collider_group_refresh H a)
                   (map (collider_group_refresh H a) cgs)
                 = map (collider_group_refresh H a) cgs).
  { rewrite map_map. apply map_ext_Forall, Hcg. }
  assert (Hbgs : map (bone_group_refresh H a)
                   (map (bone_group_refresh H a) bgs)
                 = map (bone_group_refresh H a) bgs).
  { rewrite map_map. apply map_ext_Forall, Hbg. }
  destruct (String.eqb fpb EmptyString) eqn:Hfpb; simpl.
  - destruct (find _ (fixup_human_bones H a hbs)) as [hb|] eqn:Hfind; simpl.
    + rewrite Hfix, Hfind, Hcgs, Hbgs.
      destruct (String.eqb (node hb) EmptyString); simpl; reflexivity.
    + rewrite Hfpb. simpl. rewrite Hfix, Hfind, Hcgs, Hbgs. reflexivity.
  - rewrite Hfpb. simpl. rewrite Hfix, Hcgs, Hbgs. reflexivity.
Qed.

Lemma migrate_twice_up_to_date_witness :
  migrate_twice example_host example_data migrated_rig
  = migrate example_host example_data migrated_rig
  /\ first_person_bone_left
       (migrate example_host example_data migrated_rig) = "Head".
Proof.
  split; [|vm_compute; reflexivity].
  apply (migrate_twice_up_to_date example_host example_data migrated_rig
           2 0 1).
  - reflexivity.
  - lia.
  - vm_compute. reflexivity.
  - repeat constructor.
  - repeat constructor.
Defined.

(** ** The end-to-end scenario of the head role *)

(** When the only legacy per-role property gives a bone to one role, the
    scan assigns that bone to the role. *)
Lemma scan_of_single_property a names role b hbs :
  data_props a = {[ role := IDStr b ]} ->
  b <> EmptyString ->
  role ∈ names -> NoDup names ->
  role_node role (migrate_human_bone_props names a [] hbs).2
  = (fun _ => b) <$> role_node role hbs.
Proof.
  intros Hprops Hb Hin Hnodup.
  apply list_elem_of_split in Hin as (earlier & later & ->).
  apply NoDup_app in Hnodup as (_ & Hearlier & Hlater).
  apply NoDup_cons in Hlater as [Hlater _].
  assert (Hpre : role ∉ earlier).
  { intros Hin. apply (Hearlier role Hin). left. }
  rewrite migrate_human_bone_props_app.
  pose proof (migrate_human_bone_props_other earlier a [] hbs role Hpre)
    as Hkept.
  pose proof (migrate_human_bone_props_assigned earlier a [] hbs b)
    as Hassigned.
  destruct (migrate_human_bone_props earlier a [] hbs) as [assigned hbs1].
  simpl in *. rewrite Hprops, lookup_singleton_eq. simpl.
  destruct (String.eqb_spec b EmptyString) as [|_]; [done|]. simpl.
  destruct (bool_decide_reflect (b ∈ assigned)) as [Hdup|_].
  - apply Hassigned in Hdup as [Hdup|(r & Hr & [Hn _])]; [inversion Hdup|].
    rewrite Hprops, lookup_singleton_ne in Hn; [discriminate|].
    intros <-. exact (Hpre Hr).
  - rewrite migrate_human_bone_props_other by exact Hlater.
    rewrite role_node_set_human_bone_node.
    destruct (decide _); [|done]. rewrite Hkept. reflexivity.
Qed.

(** C5, refuted as stated. On the rig of the scenario one run leaves the
    version at (1, 0, 0) and gives the bone [Head] to the head role, but the
    first-person bone is still empty: the backfill ran before the scan of
    the legacy properties, when the head role had no bone. *)
Lemma head_only_first_run_leaves_anchor_empty :
  let once := migrate example_host example_data head_only_rig in
  completed once
  /\ addon_version (ext (final once)) = (1, 0, 0)
  /\ head_node_left once = Some "Head"
  /\ first_person_bone_left once = EmptyString
  /\ first_person_bone_left once <> "Head".
Proof.
  cbv zeta.
  split; [vm_compute; exact I|]. split; [vm_compute; reflexivity|].
  split; [vm_compute; reflexivity|]. split; [vm_compute; reflexivity|].
  vm_compute. discriminate.
Qed.

(** On that rig it is the second run that fills in the first-person
    bone. *)
Lemma head_only_second_run_backfills :
  first_person_bone_left
    (migrate_twice example_host example_data head_only_rig) = "Head".
Proof. vm_compute. reflexivity. Qed.

(** C5, amended. For a rig at version (1, 0, 0) with no custom property of
    its own (so no text attachment) whose only legacy per-role property
    gives the bone [Head] to the role [head], with no first-person bone
    yet, one run of the orchestrator completes, leaves the version
    unchanged and sets the bone reference of the head role to [Head]. The
    first-person bone is backfilled before the legacy scan: it receives
    the bone reference the head role had after the fix-up of the human
    bones, which on a rig not migrated before is the empty one, and not
    [Head]. *)
Theorem head_role_migrated_after_backfill
  (H : Host) (bpy : BlendData) (rig : Rig) (before : string) :
  addon_version (ext rig) = (1, 0, 0) ->
  object_props (armature rig) = ∅ ->
  data_props (armature rig) = {[ "head" := IDStr "Head" ]} ->
  "head" ∈ all_names H ->
  NoDup (all_names H) ->
  first_person_bone (first_person (rig_vrm0 rig)) = EmptyString ->
  role_node "head"
    (fixup_human_bones H (armature rig)
       (human_bones (humanoid (rig_vrm0 rig)))) = Some before ->
  let once := migrate H bpy rig in
  completed once
  /\ addon_version (ext (final once)) = (1, 0, 0)
  /\ head_node_left once = Some "Head"
  /\ first_person_bone_left once = before.
Proof.
  intros Hv Hprops Hhead Hrole Hnodup Hanchor Hbefore once. subst once.
  unfold head_node_left, first_person_bone_left.
  destruct (migrate_without_attachments H bpy rig)
    as (rig' & -> & _ & Hv' & Hbones & Hbone & _).
  { rewrite Hv. reflexivity. }
  { exact Hprops. }
  simpl. split; [exact I|]. split; [rewrite Hv'; exact Hv|]. split.
  - rewrite Hbones.
    rewrite (scan_of_single_property _ _ "head" "Head") by (done || eauto).
    rewrite Hbefore. reflexivity.
  - rewrite Hbone, Hanchor. simpl.
    unfold role_node in Hbefore.
    destruct (find _ _) as [hb|]; [|discriminate].
    simpl in Hbefore. congruence.
Qed.

Lemma head_role_migrated_after_backfill_witness :
  completed (migrate example_host example_data head_only_rig)
  /\ addon_version
       (ext (final (migrate example_host example_data head_only_rig)))
     = (1, 0, 0)
  /\ head_node_left (migrate example_host example_data head_only_rig)
     = Some "Head"
  /\ first_person_bone_left
       (migrate example_host example_data head_only_rig) = EmptyString.
Proof.
  apply (head_role_migrated_after_backfill example_host example_data
           head_only_rig EmptyString).
  - reflexivity.
  - reflexivity.
  - reflexivity.
  - apply (bool_decide_unpack _). vm_compute. exact I.
  - apply (bool_decide_unpack _). vm_compute. exact I.
  - reflexivity.
  - vm_compute. reflexivity.
Defined.

(** * Further properties of the migration module *)

(** ** What the orchestrator leaves alone *)

Lemma legacy_keeps_version (H : Host) bpy rig :
  addon_version (ext (final (migrate_legacy_custom_properties H bpy rig)))
  = addon_version (ext rig)
  /\ armature (final (migrate_legacy_custom_properties H bpy rig))
     = armature rig.
Proof.
  unfold migrate_legacy_custom_properties.
  destruct (tuple_ge _ _); [split; reflexivity|].
  set (P := fun r : Rig =>
              addon_version (ext r) = addon_version (ext rig)
              /\ armature r = armature rig).
  match goal with
  | |- _ (ext (final ?o)) = _ /\ _ => change (P (final o))
  end.
  assert (Hzoom : forall f r, P r -> P (final (zoom rig_vrm0 set_rig_vrm0 f r))).
  { intros f r Hr. rewrite final_zoom. exact Hr. }
  repeat apply and_then_invariant.
  - apply Hzoom. split; reflexivity.
  - intros r Hr. apply (with_textblock_json_invariant P); [exact Hr|].
    intros legacy r' Hr'. apply Hzoom, Hr'.
  - intros r Hr. apply (with_textblock_json_invariant P); [exact Hr|].
    intros legacy r' Hr'. apply Hzoom, Hr'.
  - intros r Hr. apply (with_textblock_json_invariant P); [exact Hr|].
    intros legacy r' Hr'. exact Hr'.
  - intros r Hr. apply (with_textblock_json_invariant P); [exact Hr|].
    intros legacy r' Hr'.
    destruct (migrate_vrm0_secondary_animation _ _ _ _ _). exact Hr'.
  - intros r Hr. exact Hr.
Qed.

(** X1. The orchestrator never writes the version: whether a run of
    [migrate] completes or is cut short by an exception, the rig it leaves
    carries the [addon_version] it found, and the same holds for the gated
    legacy migration alone. Stamping the version is left to the caller. *)
Theorem migrate_keeps_version (H : Host) (bpy : BlendData) (rig : Rig) :
  addon_version (ext (final (migrate H bpy rig))) = addon_version (ext rig)
  /\ addon_version (ext (final (migrate_legacy_custom_properties H bpy rig)))
     = addon_version (ext rig).
Proof.
  split; [|apply legacy_keeps_version].
  unfold migrate.
  apply (and_then_invariant
           (fun r => addon_version (ext r) = addon_version (ext rig))).
  - match goal with
    | |- context [migrate_legacy_custom_properties H bpy ?r] =>
        destruct (legacy_keeps_version H bpy r) as [Hv _]; rewrite Hv
    end.
    reflexivity.
  - intros r Hr. exact Hr.
Qed.

(** ** Whether another run is called for *)

Lemma no_head_entry_unassigned hbs :
  find (fun hb => String.eqb (bone hb) "head") hbs = None ->
  forallb (fun hb => negb (String.eqb (bone hb) "head")
                     || String.eqb (node hb) EmptyString) hbs = true.
Proof.
  induction hbs as [|hb hbs IH]; simpl; [reflexivity|].
  destruct (String.eqb (bone hb) "head"); [discriminate|]. exact IH.
Qed.

Lemma single_head_entry_unassigned hbs hb :
  find (fun hb => String.eqb (bone hb) "head") hbs = Some hb ->
  node hb = EmptyString ->
  (length (head_entries hbs) <= 1)%nat ->
  forallb (fun hb => negb (String.eqb (bone hb) "head")
                     || String.eqb (node hb) EmptyString) hbs = true.
Proof.
  unfold head_entries.
  induction hbs as [|hb' hbs IH]; simpl; [reflexivity|].
  destruct (String.eqb_spec (bone hb') "head") as [Hhead|Hother]; simpl.
  - intros [= ->] Hnode. rewrite filter_cons_True by exact Hhead. simpl.
    intros Hone. rewrite Hnode. simpl.
    apply no_head_entry_unassigned.
    destruct (find _ hbs) as [hb''|] eqn:Hfind; [|reflexivity].
    apply find_some in Hfind as [Hin Hb].
    apply String.eqb_eq in Hb.
    assert (Hin' : hb'' ∈ filter (fun hb => bone hb = "head") hbs).
    { apply list_elem_of_filter. split; [exact Hb|].
      apply list_elem_of_In. exact Hin. }
    destruct (filter _ hbs); [inversion Hin'|simpl in Hone; lia].
  - intros Hfind Hnode. rewrite filter_cons_False by exact Hother.
    apply IH; assumption.
Qed.

(** X2. Past the version gate a completed run leaves a document that
    [is_unnecessary] accepts, when the fix-up of the human bones leaves at
    most one entry for the head role: the first-person bone is set, or the
    head role has no bone to give it. *)
Theorem migrate_up_to_date_is_unnecessary
  (H : Host) (bpy : BlendData) (rig : Rig) (v1 v2 v3 : Z) :
  addon_version (ext rig) = (v1, v2, v3) ->
  2 < v1 \/ (v1 = 2 /\ (0 < v2 \/ (v2 = 0 /\ 1 <= v3))) ->
  (length
     (head_entries
        (fixup_human_bones H (armature rig)
           (human_bones (humanoid (rig_vrm0 rig))))) <= 1)%nat ->
  completed (migrate H bpy rig)
  /\ is_unnecessary (rig_vrm0 (final (migrate H bpy rig))) = true.
Proof.
  intros Hv Hgate Hone.
  assert (Hge : tuple_ge (addon_version (ext rig)) (2, 0, 1) = true).
  { rewrite Hv. apply tuple_ge_spec, Hgate. }
  clear Hv Hgate. unfold migrate.
  rewrite gate_closed by exact Hge. simpl. split; [exact I|].
  destruct rig as [a [ver [m hum fp bsg [cgs bgs]]] draws].
  destruct hum as [hbs ? ? ? ? ? ? ? ? ?].
  destruct fp as [fpb ? ? ? ? ? ? ?].
  unfold rig_vrm0, set_rig_vrm0, is_unnecessary in *. simpl in *.
  destruct (String.eqb fpb EmptyString) eqn:Hfpb; simpl.
  - destruct (find _ (fixup_human_bones H a hbs)) as [hb|] eqn:Hfind; simpl.
    + destruct (String.eqb_spec (node hb) EmptyString) as [Hnode|_]; simpl;
        [|reflexivity].
      apply (single_head_entry_unassigned _ hb); assumption.
    + rewrite Hfpb. simpl. apply no_head_entry_unassigned, Hfind.
  - rewrite Hfpb. reflexivity.
Qed.

Lemma migrate_up_to_date_is_unnecessary_witness :
  completed (migrate example_host example_data migrated_rig)
  /\ is_unnecessary
       (rig_vrm0 (final (migrate example_host example_data migrated_rig)))
     = true.
Proof.
  apply (migrate_up_to_date_is_unnecessary example_host example_data
           migrated_rig 2 0 1).
  - reflexivity.
  - lia.
  - vm_compute. lia.
Defined.

(** ** The humanoid migrator *)

Lemma dict_get_missing key d :
  key ∉ map fst d -> dict_get key d = JNull.
Proof.
  induction d as [|[k v] d IH]; simpl; intros Hmissing; [reflexivity|].
  apply not_elem_of_cons in Hmissing as [Hne Hmissing].
  destruct (String.eqb_spec k key); [congruence|]. apply IH, Hmissing.
Qed.

(** X3. A legacy humanoid dictionary that has none of the eight keys of
    the migrator, whatever else it holds, leaves the humanoid record as it
    was, and so does a value that is no dictionary at all. *)
Theorem migrate_vrm0_humanoid_without_keys
  (humanoid : Humanoid) (humanoid_dict : json) :
  (forall d, humanoid_dict = JObj d ->
             forall key, key ∈ humanoid_keys -> key ∉ map fst d) ->
  migrate_vrm0_humanoid humanoid humanoid_dict = humanoid.
Proof.
  intros Hkeys. destruct humanoid_dict as [ | | | | |d]; try reflexivity.
  specialize (Hkeys d eq_refl).
  unfold migrate_vrm0_humanoid.
  rewrite !dict_get_missing
    by (apply Hkeys; apply (bool_decide_unpack _); vm_compute; exact I).
  destruct humanoid. reflexivity.
Qed.

Lemma migrate_vrm0_humanoid_without_keys_witness :
  migrate_vrm0_humanoid example_humanoid
    (JObj [("comment", JStr "none of the keys"); ("armstretch", JNum (PyInt 2))])
  = example_humanoid.
Proof.
  apply migrate_vrm0_humanoid_without_keys.
  intros d [= <-] key Hkey.
  apply (bool_decide_unpack _).
  repeat (apply elem_of_cons in Hkey as [->|Hkey];
          [vm_compute; exact I|]).
  inversion Hkey.
Defined.

(** X4. Migrating the same humanoid dictionary a second time changes
    nothing: the migrator only assigns, so the record it leaves is a fixed
    point (unlike the migrators that append to collections). It never
    touches the human bones or the cache of bone names. *)
Theorem migrate_vrm0_humanoid_idempotent
  (humanoid : Humanoid) (humanoid_dict : json) :
  migrate_vrm0_humanoid (migrate_vrm0_humanoid humanoid humanoid_dict)
    humanoid_dict
  = migrate_vrm0_humanoid humanoid humanoid_dict
  /\ human_bones (migrate_vrm0_humanoid humanoid humanoid_dict)
     = human_bones humanoid
  /\ last_bone_names (migrate_vrm0_humanoid humanoid humanoid_dict)
     = last_bone_names humanoid.
Proof.
  destruct humanoid_dict as [ | | | | |d]; try (repeat split; reflexivity).
  unfold migrate_vrm0_humanoid.
  destruct (as_number (dict_get "armStretch" d)),
    (as_number (dict_get "legStretch" d)),
    (as_number (dict_get "upperArmTwist" d)),
    (as_number (dict_get "lowerArmTwist" d)),
    (as_number (dict_get "upperLegTwist" d)),
    (as_number (dict_get "lowerLegTwist" d)),
    (as_number (dict_get "feetSpacing" d)),
    (as_bool (dict_get "hasTranslationDoF" d));
    destruct humanoid; repeat split; reflexivity.
Qed.

(** ** Collections that the migrators extend *)

(** A loop that adds an element per item and may raise while filling it
    in: what was there stays in front, an element is added for each item
    reached, and all items are reached unless an exception cut the loop
    short. *)
Lemma for_each_add_then {X D} (new : X) (f : D -> X -> outcome X) ds l :
  exists added,
    final (for_each (fun d => add_then new (f d)) ds l) = l ++ added
    /\ (length added <= length ds)%nat
    /\ (completed (for_each (fun d => add_then new (f d)) ds l) ->
        length added = length ds)
    /\ (~ completed (for_each (fun d => add_then new (f d)) ds l) ->
        added <> []).
Proof.
  revert l. induction ds as [|d ds IH]; intros l; simpl.
  - exists []. rewrite app_nil_r.
    repeat split; auto; try (intros Hc; destruct Hc; exact I).
  - unfold add_then at 1 3 5. destruct (f d new) as [x|e x].
    + destruct (IH (l ++ [x])) as (added & Hfinal & Hle & Hdone & Hcut).
      exists (x :: added). rewrite Hfinal, <- app_assoc. simpl.
      repeat split; [lia| |].
      * intros Hc. rewrite (Hdone Hc). reflexivity.
      * discriminate.
    + exists [x]. simpl. repeat split; [lia|contradiction|discriminate].
Qed.

(** X5. The blend-shape migrator only appends: the groups the document
    had stay in front, unchanged, whether the run completes or raises. A
    run that completes has added exactly one group per element of the
    legacy iterable; a run that raises has added at least the group it was
    filling in, and no more groups than elements. A legacy value that is
    not iterable adds nothing. *)
Theorem migrate_vrm0_blend_shape_groups_appends
  (H : Host) (bpy : BlendData) (groups : list BlendShapeGroup)
  (blend_shape_group_dicts : json) :
  let result :=
    migrate_vrm0_blend_shape_groups H bpy groups blend_shape_group_dicts in
  let elements := default [] (as_iterable blend_shape_group_dicts) in
  exists added,
    final result = groups ++ added
    /\ (length added <= length elements)%nat
    /\ (completed result -> length added = length elements)
    /\ (~ completed result -> added <> []).
Proof.
  intros result elements. subst result elements.
  unfold migrate_vrm0_blend_shape_groups.
  destruct (as_iterable blend_shape_group_dicts) as [dicts|]; simpl.
  - apply for_each_add_then.
  - exists []. rewrite app_nil_r.
    repeat split; auto; try (intros Hc; destruct Hc; exact I).
Qed.

Lemma for_each_add_then_skipped {X D} (new : X) (f : D -> X -> outcome X)
  ds l :
  Forall (fun d => f d new = Done new) ds ->
  for_each (fun d => add_then new (f d)) ds l
  = Done (l ++ replicate (length ds) new).
Proof.
  intros Hskip. revert l.
  induction Hskip as [|d ds Hd _ IH]; intros l; simpl.
  - rewrite app_nil_r. reflexivity.
  - unfold add_then at 1. rewrite Hd, IH, <- app_assoc. reflexivity.
Qed.

(** X6. Elements that are not dictionaries still count. When no element
    of the legacy iterable is a dictionary, the migrator completes and has
    appended one group with the defaults per element. This is what happens
    to an attachment that holds a single JSON object instead of a list of
    them: iterating it yields its keys, and one default group is appended
    per key while none of its content is migrated. *)
Theorem migrate_vrm0_blend_shape_groups_of_non_dicts
  (H : Host) (bpy : BlendData) (groups : list BlendShapeGroup)
  (blend_shape_group_dicts : json) (elements : list json) :
  as_iterable blend_shape_group_dicts = Some elements ->
  Forall (fun element => forall d, element <> JObj d) elements ->
  migrate_vrm0_blend_shape_groups H bpy groups blend_shape_group_dicts
  = Done (groups ++ replicate (length elements) (add_blend_shape_group H)).
Proof.
  intros Hiter Hnone. unfold migrate_vrm0_blend_shape_groups.
  rewrite Hiter. apply for_each_add_then_skipped.
  eapply Forall_impl; [exact Hnone|].
  intros element Helement. simpl.
  destruct element; try reflexivity. destruct (Helement pairs eq_refl).
Qed.

Lemma migrate_vrm0_blend_shape_groups_of_non_dicts_witness :
  migrate_vrm0_blend_shape_groups example_host example_data []
    (JObj [("name", JStr "Joy"); ("presetName", JStr "joy")])
  = Done [add_blend_shape_group example_host;
          add_blend_shape_group example_host].
Proof.
  apply (migrate_vrm0_blend_shape_groups_of_non_dicts example_host
           example_data []
           (JObj [("name", JStr "Joy"); ("presetName", JStr "joy")])
           [JStr "name"; JStr "presetName"]).
  - reflexivity.
  - repeat constructor; discriminate.
Defined.

Lemma migrate_vrm0_blend_shape_groups_appends_witness :
  length
    (final
       (migrate_vrm0_blend_shape_groups example_host example_data
          [add_blend_shape_group example_host]
          (JArr [JObj [("name", JStr "Joy")]; JNull])))
  = 3%nat.
Proof.
  destruct (migrate_vrm0_blend_shape_groups_appends example_host
              example_data [add_blend_shape_group example_host]
              (JArr [JObj [("name", JStr "Joy")]; JNull]))
    as (added & Hfinal & _ & Hdone & _).
  rewrite Hfinal, length_app, Hdone; [reflexivity|].
  vm_compute. exact I.
Defined.

(** ** More on the reconstruction of the colliders *)

Lemma collider_dict_keys_in_order (processed : list Object) :
  map fst
    (fold_left (fun d o => dict_append (parent_bone o) o d) processed [])
  = reverse (remove_dups (reverse (map parent_bone processed))).
Proof.
  induction processed as [|o processed IH] using rev_ind; [reflexivity|].
  destruct (collider_dict_invariant processed) as (_ & Hkeys & _).
  rewrite fold_left_app. simpl. rewrite dict_append_keys, IH.
  rewrite map_app, reverse_app. simpl.
  destruct (decide_rel elem_of (parent_bone o)
              (reverse (map parent_bone processed))) as [Hin|Hout].
  - rewrite bool_decide_eq_true_2; [reflexivity|].
    rewrite <- IH. apply Hkeys. rewrite elem_of_reverse in Hin. exact Hin.
  - rewrite bool_decide_eq_false_2.
    + rewrite reverse_cons. reflexivity.
    + rewrite <- IH. intros Hin. apply Hout.
      rewrite elem_of_reverse. apply Hkeys, Hin.
Qed.

Lemma new_collider_groups_nodes (H : Host) draw items :
  map collider_group_node (new_collider_groups H draw items) = map fst items.
Proof.
  revert draw. induction items as [|item items IH]; intros draw; simpl;
    [reflexivity|]. rewrite IH. reflexivity.
Qed.

(** X7. The rebuilt collider groups come in the order in which their
    bones first occur among the markers of the scan: their nodes are the
    distinct parent bones of the markers, each at the place of its first
    marker. *)
Theorem collider_groups_in_order_of_first_marker
  (H : Host) (armature : ArmatureObject) (draws : nat) :
  map collider_group_node
    (new_collider_groups H draws (bone_name_to_collider_objects armature))
  = reverse
      (remove_dups
         (reverse (map parent_bone (collider_objects armature)))).
Proof.
  rewrite new_collider_groups_nodes.
  apply collider_dict_keys_in_order.
Qed.

Lemma dict_append_objects key o d :
  concat (map snd (dict_append key o d)) ≡ₚ o :: concat (map snd d).
Proof.
  induction d as [|[k os] d IH]; simpl; [reflexivity|].
  destruct (String.eqb k key); simpl.
  - rewrite <- app_assoc. simpl.
    symmetry. apply Permutation_middle.
  - rewrite IH. symmetry. apply Permutation_middle.
Qed.

Lemma collider_dict_objects (processed : list Object) :
  concat
    (map snd
       (fold_left (fun d o => dict_append (parent_bone o) o d) processed []))
  ≡ₚ processed.
Proof.
  induction processed as [|o processed IH] using rev_ind; [reflexivity|].
  rewrite fold_left_app. simpl. rewrite dict_append_objects, IH.
  apply Permutation_cons_append.
Qed.

Lemma new_collider_groups_colliders (H : Host) draw items :
  flat_map colliders (new_collider_groups H draw items)
  = map (fun o => {| blender_object := Some o |}) (concat (map snd items)).
Proof.
  revert draw. induction items as [|item items IH]; intros draw; simpl;
    [reflexivity|]. rewrite IH, map_app. reflexivity.
Qed.

(** X8. The colliders of the rebuilt groups are exactly the markers of the
    scan. Every collider wraps a child of the rig that passes the marker
    test and is parented to the bone of its group, so a child that is not
    a marker never becomes a collider; every marker is wrapped by one
    collider, the colliders of all groups together being a rearrangement
    of the markers; and no group is empty. *)
Theorem colliders_are_the_markers
  (H : Host) (armature : ArmatureObject) (draws : nat) :
  let built :=
    new_collider_groups H draws (bone_name_to_collider_objects armature) in
  (forall g c,
      g ∈ built -> c ∈ colliders g ->
      exists o,
        blender_object c = Some o
        /\ o ∈ children armature
        /\ is_collider_object armature o = true
        /\ parent_bone o = collider_group_node g)
  /\ flat_map colliders built
     ≡ₚ map (fun o => {| blender_object := Some o |})
          (collider_objects armature)
  /\ (forall g, g ∈ built -> colliders g <> []).
Proof.
  intros built. subst built.
  destruct (collider_dict_invariant (collider_objects armature))
    as (_ & Hkeys & Hobjs).
  change (fold_left _ (collider_objects armature) [])
    with (bone_name_to_collider_objects armature) in *.
  set (items := bone_name_to_collider_objects armature) in *.
  assert (Hitem : forall g,
             g ∈ new_collider_groups H draws items ->
             exists b,
               collider_group_node g = b
               /\ b ∈ map fst items
               /\ colliders g
                  = map (fun o => {| blender_object := Some o |})
                      (filter (fun o => parent_bone o = b)
                         (collider_objects armature))).
  { intros g Hg. apply list_elem_of_lookup in Hg as [i Hi].
    rewrite new_collider_groups_lookup in Hi.
    destruct (items !! i) as [[b objs]|] eqn:Hlookup; [|discriminate].
    simpl in Hi. injection Hi as <-. exists b. simpl.
    assert (Hin : (b, objs) ∈ items)
      by (apply list_elem_of_lookup; exists i; exact Hlookup).
    split; [reflexivity|]. split.
    - apply (list_elem_of_fmap_2 fst) in Hin. exact Hin.
    - rewrite (Hobjs b objs Hin). reflexivity. }
  split; [|split].
  - intros g c Hg Hc. destruct (Hitem g Hg) as (b & Hnode & _ & Hcolliders).
    rewrite Hcolliders in Hc.
    apply list_elem_of_fmap in Hc as (o & -> & Ho).
    apply list_elem_of_filter in Ho as [Hparent Ho].
    unfold collider_objects in Ho.
    apply list_elem_of_filter in Ho as [Hmarker Ho].
    exists o. simpl. repeat split; congruence.
  - rewrite new_collider_groups_colliders.
    apply fmap_Permutation, collider_dict_objects.
  - intros g Hg Hempty. destruct (Hitem g Hg) as (b & _ & Hb & Hcolliders).
    rewrite Hcolliders in Hempty. apply fmap_nil_inv in Hempty.
    apply Hkeys in Hb. apply list_elem_of_fmap in Hb as (o & Hparent & Ho).
    assert (Hin : o ∈ filter (fun o => parent_bone o = b)
                        (collider_objects armature)).
    { apply list_elem_of_filter. split; [congruence|exact Ho]. }
    rewrite Hempty in Hin. inversion Hin.
Qed.

Lemma colliders_are_the_markers_witness :
  let g :=
    {| collider_group_name := EmptyString;
       uuid := uuid4_hex example_host 0;
       collider_group_node := "Head";
       colliders := [ {| blender_object := Some (marker "c1" "Head") |};
                      {| blender_object := Some (marker "c3" "Head") |} ] |}
  in
  exists o,
    Some (marker "c3" "Head") = Some o
    /\ o ∈ children example_armature
    /\ is_collider_object example_armature o = true
    /\ parent_bone o = "Head".
Proof.
  intros g.
  destruct (colliders_are_the_markers example_host example_armature 0)
    as (Hmarkers & _ & _).
  apply (Hmarkers g {| blender_object := Some (marker "c3" "Head") |}).
  - apply list_elem_of_lookup. exists 0%nat. vm_compute. reflexivity.
  - right. left.
Defined.

(** ** More on the bone groups *)

Lemma bones_kept_by_names cgs names bg :
  bones
    (fold_left
       (fun bone_group name =>
          match name with
          | JStr name =>
              set_bone_group_collider_groups
                (add_collider_group_name name cgs
                   (bone_group_collider_groups bone_group)) bone_group
          | _ => bone_group
          end) names bg)
  = bones bg.
Proof.
  apply (fold_left_invariant (fun g => bones g = bones bg));
    [reflexivity|]. intros g b Hg. destruct b; exact Hg.
Qed.

Lemma bones_appended bone_names bg :
  bones
    (fold_left
       (fun bone_group bone =>
          let bone_prop := match bone with
                           | JStr s => s
                           | _ => EmptyString
                           end in
          set_bones (bones bone_group ++ [bone_prop]) bone_group)
       bone_names bg)
  = bones bg
    ++ map (fun bone => match bone with
                        | JStr s => s
                        | _ => EmptyString
                        end) bone_names.
Proof.
  revert bg. induction bone_names as [|v vs IH]; intros bg; simpl.
  - symmetry. apply app_nil_r.
  - rewrite IH. simpl. rewrite <- app_assoc. reflexivity.
Qed.

(** The scalar assignments at the head of the bone-group migrator touch
    neither list of the bone group. *)
Lemma bone_group_scalars_keep_lists (H : Host) d bg :
  let bg' :=
    assign_if (as_number (dict_get "hitRadius" d)) set_hit_radius
      (assign_if (as_str (dict_get "center" d)) set_center
         (assign_if (as_number (dict_get "dragForce" d)) set_drag_force
            match vrm_json_vector3_to_tuple H (dict_get "gravityDir" d) with
            | Some (x, y, z) =>
                set_gravity_dir (x, z, y)
                  (assign_if (as_number (dict_get "gravityPower" d))
                     set_gravity_power
                     (assign_if (as_number (dict_get "stiffiness" d))
                        set_stiffiness
                        (assign_if (as_str (dict_get "comment" d))
                           set_comment bg)))
            | None =>
                assign_if (as_number (dict_get "gravityPower" d))
                  set_gravity_power
                  (assign_if (as_number (dict_get "stiffiness" d))
                     set_stiffiness
                     (assign_if (as_str (dict_get "comment" d))
                        set_comment bg))
            end)) in
  bones bg' = bones bg
  /\ bone_group_collider_groups bg' = bone_group_collider_groups bg.
Proof.
  cbv zeta.
  destruct (vrm_json_vector3_to_tuple H _) as [[[x y] z]|];
    split;
    repeat (apply assign_if_invariant; [|intros ? ? Hr; exact Hr]);
    simpl;
    repeat (apply assign_if_invariant; [|intros ? ? Hr; exact Hr]);
    reflexivity.
Qed.

Lemma migrate_bone_group_lists (H : Host) groups d bg :
  bones (migrate_bone_group H groups (JObj d) bg)
  = bones bg
    ++ map (fun bone => match bone with
                        | JStr s => s
                        | _ => EmptyString
                        end)
         (default [] (as_iterable (dict_get "bones" d)))
  /\ bone_group_collider_groups (migrate_bone_group H groups (JObj d) bg)
     = bone_group_collider_groups bg
       ++ flat_map
            (fun v =>
               match v with
               | JStr name =>
                   match find (node_matches name) groups with
                   | Some g => [collider_group_name g]
                   | None => []
                   end
               | _ => []
               end)
            (default [] (as_iterable (dict_get "colliderGroups" d))).
Proof.
  unfold migrate_bone_group.
  destruct (bone_group_scalars_keep_lists H d bg) as [Hbones Hrefs].
  cbv zeta in Hbones, Hrefs.
  destruct (as_iterable (dict_get "colliderGroups" d)) as [names|];
    destruct (as_iterable (dict_get "bones" d)) as [bone_names|]; simpl;
    rewrite ?bones_kept_by_names, ?collider_group_names_appended,
      ?bones_appended, ?collider_group_names_kept_by_bones,
      ?Hbones, ?Hrefs, ?app_nil_r;
    split; reflexivity.
Qed.

(** X9. A migrated bone group never refers to a collider group the
    document does not have. The references the migrator adds, at most one
    per element of the legacy [colliderGroups], each hold the name of a
    collider group of the document whose node is one of the legacy strings;
    the references the bone group had stay in front. *)
Theorem bone_group_references_not_dangling
  (H : Host) (groups : list ColliderGroup) (d : list (string * json))
  (bone_group : BoneGroup) :
  let names := default [] (as_iterable (dict_get "colliderGroups" d)) in
  exists added,
    bone_group_collider_groups
      (migrate_bone_group H groups (JObj d) bone_group)
    = bone_group_collider_groups bone_group ++ added
    /\ (length added <= length names)%nat
    /\ forall ref,
        ref ∈ added ->
        exists g,
          g ∈ groups
          /\ collider_group_name g = ref
          /\ JStr (collider_group_node g) ∈ names.
Proof.
  intros names. subst names.
  destruct (migrate_bone_group_lists H groups d bone_group) as [_ Hrefs].
  eexists. split; [exact Hrefs|].
  generalize (default [] (as_iterable (dict_get "colliderGroups" d))).
  intros names. split.
  - induction names as [|v names IH]; simpl; [lia|].
    rewrite length_app.
    destruct v; simpl; try lia.
    destruct (find _ groups); simpl; lia.
  - intros ref Href.
    apply list_elem_of_In, in_flat_map in Href as (v & Hv & Href).
    destruct v as [ | | |name| | ]; try (inversion Href; fail).
    destruct (find (node_matches name) groups) as [g|] eqn:Hfind;
      [|inversion Href].
    apply find_some in Hfind as [Hg Hnode].
    apply String.eqb_eq in Hnode.
    destruct Href as [<-|[]].
    exists g. split; [apply list_elem_of_In, Hg|].
    split; [reflexivity|]. rewrite Hnode. apply list_elem_of_In, Hv.
Qed.

Lemma bone_group_references_not_dangling_witness :
  exists g,
    g ∈ [ {| collider_group_name := "Head#0"; uuid := "0";
             collider_group_node := "Head"; colliders := [] |} ]
    /\ collider_group_name g = "Head#0"
    /\ JStr (collider_group_node g) ∈ example_bone_group_names.
Proof.
  destruct (bone_group_references_not_dangling example_host
              [ {| collider_group_name := "Head#0"; uuid := "0";
                   collider_group_node := "Head"; colliders := [] |} ]
              example_bone_group_dict (add_bone_group example_host))
    as (added & Hadded & _ & Hnamed).
  apply Hnamed.
  vm_compute in Hadded. apply app_inv_head with (l := []) in Hadded.
  rewrite <- Hadded. left.
Defined.


(** ** When a bind raises *)

Lemma and_then_completed {S} (o : outcome S) k :
  completed (o >>> k) <-> completed o /\ completed (k (final o)).
Proof. destruct o as [s|e s]; simpl; tauto. Qed.

(** What the statements that read [mesh] and [index] leave: an
    [AttributeError] with the mesh reference assigned when the mesh has no
    shape keys and the index is a string, and otherwise a bind with its
    weight untouched. *)
Lemma migrate_bind_mesh_and_index (bpy : BlendData) d (bind : Bind) :
  let settled :=
    match dict_get "mesh" d with
    | JStr mesh =>
        match meshes bpy !! mesh with
        | Some mesh_data =>
            let bind := set_bind_mesh mesh bind in
            match dict_get "index" d with
            | JStr index =>
                match shape_keys mesh_data with
                | Some key_blocks =>
                    if bool_decide (index ∈ key_blocks)
                    then Done (set_bind_index index bind)
                    else Done bind
                | None => Raised AttributeError bind
                end
            | _ => Done bind
            end
        | None => Done bind
        end
    | _ => Done bind
    end in
  weight (final settled) = weight bind
  /\ (~ completed settled
      <-> exists mesh mesh_data index,
            dict_get "mesh" d = JStr mesh
            /\ meshes bpy !! mesh = Some mesh_data
            /\ shape_keys mesh_data = None
            /\ dict_get "index" d = JStr index)
  /\ (forall mesh mesh_data index,
         dict_get "mesh" d = JStr mesh ->
         meshes bpy !! mesh = Some mesh_data ->
         shape_keys mesh_data = None ->
         dict_get "index" d = JStr index ->
         settled = Raised AttributeError (set_bind_mesh mesh bind)).
Proof.
  cbv zeta.
  destruct (dict_get "mesh" d) as [ | | |mesh| | ] eqn:Hmesh;
    try (split; [reflexivity|]; split;
         [split; [intros Hc; destruct Hc; exact I
                 |intros (? & ? & ? & ? & _); discriminate]
         |intros; discriminate]).
  destruct (meshes bpy !! mesh) as [mesh_data|] eqn:Hdata;
    [|split; [reflexivity|]; split;
      [split; [intros Hc; destruct Hc; exact I
              |intros (? & ? & ? & [= <-] & ? & _); congruence]
      |intros ? ? ? [= <-]; congruence]].
  destruct (dict_get "index" d) as [ | | |index| | ] eqn:Hindex;
    try (split; [reflexivity|]; split;
         [split; [intros Hc; destruct Hc; exact I
                 |intros (? & ? & ? & _ & _ & _ & ?); discriminate]
         |intros; discriminate]).
  destruct (shape_keys mesh_data) as [key_blocks|] eqn:Hkeys.
  - split; [destruct (bool_decide _); reflexivity|]. split.
    + split; [intros Hc; destruct (bool_decide _); destruct Hc; exact I|].
      intros (? & ? & ? & [= <-] & Hsome & Hnone & _). congruence.
    + intros ? ? ? [= <-] Hsome Hnone. congruence.
  - split; [reflexivity|]. split.
    + split; [intros _; eauto 10|]. intros _ Hc. exact Hc.
    + intros ? ? ? [= <-] _ _ _. reflexivity.
Qed.

(** X11. A bind raises in two situations only. Its [mesh] names a mesh of
    [bpy.data] that has no shape keys and its [index] is a string, so that
    the migrator reads the key blocks of shape keys that do not exist: the
    exception is an [AttributeError], the mesh reference of the bind has
    been assigned and its weight has not been read. Or its [weight] is an
    int beyond the range of a double, which the float property refuses: the
    exception is a [TypeError], and the weight is left as it was. In every
    other case the bind completes. *)
Theorem migrate_bind_raises_exactly
  (bpy : BlendData) (bind_dict : json) (bind : Bind) :
  let shapeless d :=
    exists mesh mesh_data index,
      dict_get "mesh" d = JStr mesh
      /\ meshes bpy !! mesh = Some mesh_data
      /\ shape_keys mesh_data = None
      /\ dict_get "index" d = JStr index in
  let overweight d :=
    exists w,
      as_number (dict_get "weight" d) = Some w
      /\ float_property_accepts w = false in
  (~ completed (migrate_bind bpy bind_dict bind)
   <-> exists d, bind_dict = JObj d /\ (shapeless d \/ overweight d))
  /\ (forall d mesh mesh_data index,
         bind_dict = JObj d ->
         dict_get "mesh" d = JStr mesh ->
         meshes bpy !! mesh = Some mesh_data ->
         shape_keys mesh_data = None ->
         dict_get "index" d = JStr index ->
         migrate_bind bpy bind_dict bind
         = Raised AttributeError (set_bind_mesh mesh bind))
  /\ (forall d,
         bind_dict = JObj d -> ~ shapeless d -> overweight d ->
         exists bind',
           migrate_bind bpy bind_dict bind = Raised TypeError bind'
           /\ weight bind' = weight bind).
Proof.
  cbv zeta.
  destruct bind_dict as [ | | | | |d];
    try (split; [split; [intros Hc; destruct Hc; exact I
                        |intros (? & ? & _); discriminate]
                |split; intros; discriminate]).
  unfold migrate_bind.
  destruct (migrate_bind_mesh_and_index bpy d bind)
    as (Hweight & Hshapeless & Hraised).
  cbv zeta in Hweight, Hshapeless, Hraised.
  set (settled := match dict_get "mesh" d with
                  | JStr mesh => _
                  | _ => _
                  end) in *.
  split; [|split].
  - rewrite and_then_completed. split.
    + intros Hcut. exists d. split; [reflexivity|].
      destruct settled as [b|e b] eqn:Hsettled.
      * right. simpl in Hcut. unfold assign_float in Hcut.
        destruct (as_number (dict_get "weight" d)) as [w|];
          [|destruct Hcut; split; exact I].
        exists w. split; [reflexivity|].
        destruct (float_property_accepts w); [|reflexivity].
        destruct Hcut; split; exact I.
      * left. apply Hshapeless. intros Hc. exact Hc.
    + intros (d' & [= <-] & [Hs|(w & Hw & Ha)]) [Hdone Hc].
      * apply Hshapeless in Hs. exact (Hs Hdone).
      * rewrite Hw in Hc. unfold assign_float in Hc. rewrite Ha in Hc.
        exact Hc.
  - intros d' mesh mesh_data index [= <-] Hmesh Hdata Hkeys Hindex.
    rewrite (Hraised mesh mesh_data index Hmesh Hdata Hkeys Hindex).
    reflexivity.
  - intros d' [= <-] Hnot (w & Hw & Ha).
    destruct settled as [b|e b] eqn:Hsettled.
    + simpl. rewrite Hw. unfold assign_float. rewrite Ha.
      exists b. split; [reflexivity|exact Hweight].
    + destruct Hnot. apply Hshapeless. intros Hc. exact Hc.
Qed.

Lemma migrate_bind_raises_exactly_witness :
  migrate_bind shapeless_data (JObj shapeless_bind_dict)
    (add_bind example_host)
  = Raised AttributeError (set_bind_mesh "Body" (add_bind example_host))
  /\ ~ completed
         (migrate_bind example_data (JObj overweight_bind_dict)
            (add_bind example_host)).
Proof.
  split.
  - destruct (migrate_bind_raises_exactly shapeless_data
                (JObj shapeless_bind_dict) (add_bind example_host))
      as (_ & Hraised & _).
    apply (Hraised shapeless_bind_dict "Body" {| shape_keys := None |}
             "smile");
      reflexivity.
  - destruct (migrate_bind_raises_exactly example_data
                (JObj overweight_bind_dict) (add_bind example_host))
      as (Hcut & _ & _).
    apply Hcut. exists overweight_bind_dict. split; [reflexivity|].
    right. exists (PyInt (10 ^ 400)). split; vm_compute; reflexivity.
Defined.

(** ** The meta migrator *)

Lemma assign_if_other {A R B} (get : R -> B) (o : option A) set (r : R) :
  (forall a r, get (set a r) = get r) -> get (assign_if o set r) = get r.
Proof. intros Hset. destruct o; simpl; auto. Qed.

Lemma assign_if_own {A R} (get : R -> A) (o : option A) set (r : R) :
  (forall a r, get (set a r) = a) ->
  get (assign_if o set r) = default (get r) o.
Proof. intros Hset. destruct o; simpl; auto. Qed.

Lemma and_then_done {S} (s : S) (k : S -> outcome S) : Done s >>> k = k s.
Proof. reflexivity. Qed.

(** A field of the meta record completes when the host accepts the
    property, and it then comes down to the guarded assignment. *)
Lemma migrate_meta_field_accepted (H : Host) a key property set m :
  (forall v, object_props a !! key = Some (IDStr v) ->
             meta_accepts H property v = true) ->
  migrate_meta_field H a key property set m
  = Done (assign_if (idprop_str (object_props a !! key)) set m).
Proof.
  intros Haccepts. unfold migrate_meta_field, assign_meta.
  destruct (object_props a !! key) as [[v| | | ]|]; simpl; try reflexivity.
  rewrite (Haccepts v eq_refl). reflexivity.
Qed.

Lemma migrate_meta_field_completed (H : Host) a key property set m :
  completed (migrate_meta_field H a key property set m)
  <-> forall v, object_props a !! key = Some (IDStr v) ->
                meta_accepts H property v = true.
Proof.
  unfold migrate_meta_field, assign_meta.
  destruct (object_props a !! key) as [[v| | | ]|]; simpl;
    try (split; [intros _ ? ?; discriminate|intros _; exact I]).
  destruct (meta_accepts H property v) eqn:Hv; simpl.
  - split; [intros _ ? [= <-]; exact Hv|intros _; exact I].
  - split; [contradiction|]. intros Haccepts.
    specialize (Haccepts v eq_refl). congruence.
Qed.

(** What a field of the meta record does to a reading [get] of the
    record: nothing, or it has given it the string property of the rig. *)
Lemma migrate_meta_field_reads {B} (get : Meta -> B) (P : B -> Prop)
  (H : Host) a key property set m :
  P (get m) ->
  (forall v m, object_props a !! key = Some (IDStr v) -> P (get (set v m))) ->
  P (get (final (migrate_meta_field H a key property set m))).
Proof.
  intros Hm Hset. unfold migrate_meta_field, assign_meta.
  destruct (object_props a !! key) as [[v| | | ]|]; simpl; try exact Hm.
  destruct (meta_accepts H property v); simpl; [|exact Hm].
  apply Hset. reflexivity.
Qed.

Lemma migrate_vrm0_meta_accepted (H : Host) bpy meta a :
  meta_accepted H a ->
  migrate_vrm0_meta H bpy meta a
  = let get key := object_props a !! key in
    let meta := assign_if (idprop_str (get "allowedUserName"))
                  set_allowed_user_name meta in
    let meta := assign_if (idprop_str (get "author")) set_author meta in
    let meta := assign_if (idprop_str (get "commercialUssageName"))
                  set_commercial_ussage_name meta in
    let meta := assign_if (idprop_str (get "contactInformation"))
                  set_contact_information meta in
    let meta := assign_if (idprop_str (get "licenseName"))
                  set_license_name meta in
    let meta := assign_if (idprop_str (get "otherLicenseUrl"))
                  set_other_license_url meta in
    let meta := assign_if (idprop_str (get "otherPermissionUrl"))
                  set_other_permission_url meta in
    let meta := assign_if (idprop_str (get "reference")) set_reference meta in
    let meta := assign_if (idprop_str (get "sexualUssageName"))
                  set_sexual_ussage_name meta in
    let meta := assign_if (idprop_str (get "title")) set_title meta in
    let meta := assign_if (idprop_str (get "version")) set_version meta in
    let meta := assign_if (idprop_str (get "violentUssageName"))
                  set_violent_ussage_name meta in
    match get "texture" with
    | None => Done meta
    | Some (IDStr texture) =>
        if bool_decide (texture ∈ images bpy)
        then Done (set_texture (Some texture) meta)
        else Done meta
    | Some _ => Raised TypeError meta
    end.
Proof.
  intros Haccepted. unfold migrate_vrm0_meta. cbv zeta.
  assert (Hfield : forall key property get,
             (key, property, get) ∈ meta_string_fields ->
             forall set m,
               migrate_meta_field H a key property set m
               = Done (assign_if (idprop_str (object_props a !! key)) set m)).
  { intros key property get Hin set m.
    apply migrate_meta_field_accepted. intros v Hv.
    exact (Haccepted key property get v Hin Hv). }
  rewrite (Hfield _ _ _ ltac:(unfold meta_string_fields; do 0 right; left)).
  rewrite and_then_done.
  rewrite (Hfield _ _ _ ltac:(unfold meta_string_fields; do 1 right; left)).
  rewrite and_then_done.
  rewrite (Hfield _ _ _ ltac:(unfold meta_string_fields; do 2 right; left)).
  rewrite and_then_done.
  rewrite (Hfield _ _ _ ltac:(unfold meta_string_fields; do 3 right; left)).
  rewrite and_then_done.
  rewrite (Hfield _ _ _ ltac:(unfold meta_string_fields; do 4 right; left)).
  rewrite and_then_done.
  rewrite (Hfield _ _ _ ltac:(unfold meta_string_fields; do 5 right; left)).
  rewrite and_then_done.
  rewrite (Hfield _ _ _ ltac:(unfold meta_string_fields; do 6 right; left)).
  rewrite and_then_done.
  rewrite (Hfield _ _ _ ltac:(unfold meta_string_fields; do 7 right; left)).
  rewrite and_then_done.
  rewrite (Hfield _ _ _ ltac:(unfold meta_string_fields; do 8 right; left)).
  rewrite and_then_done.
  rewrite (Hfield _ _ _ ltac:(unfold meta_string_fields; do 9 right; left)).
  rewrite and_then_done.
  rewrite (Hfield _ _ _ ltac:(unfold meta_string_fields; do 10 right; left)).
  rewrite and_then_done.
  rewrite (Hfield _ _ _ ltac:(unfold meta_string_fields; do 11 right; left)).
  rewrite and_then_done.
  reflexivity.
Qed.

Lemma migrate_meta_field_invariant (P : Meta -> Prop) (H : Host) a key
  property set m :
  P m ->
  (forall v m, object_props a !! key = Some (IDStr v) -> P m -> P (set v m)) ->
  P (final (migrate_meta_field H a key property set m)).
Proof.
  intros Hm Hset. unfold migrate_meta_field, assign_meta.
  destruct (object_props a !! key) as [[v| | | ]|]; simpl; try exact Hm.
  destruct (meta_accepts H property v); simpl; [|exact Hm].
  apply Hset; [reflexivity|exact Hm].
Qed.

(** Carries a statement on one field of the record through the
    migrator, statement by statement. *)
Ltac meta_field_invariant :=
  match goal with
  | |- ?get (final ?o) = ?b \/ object_props ?a !! ?key = _ =>
      let P := fresh "P" in
      set (P := fun m' : Meta =>
                  get m' = b
                  \/ object_props a !! key = Some (IDStr (get m')));
      change (P (final o));
      unfold migrate_vrm0_meta; cbv zeta;
      repeat apply (and_then_invariant P);
      [apply (migrate_meta_field_invariant P);
       [left; reflexivity
       |intros v m Hv Hm; unfold P in *; simpl; auto]
      |intros s Hs; apply (migrate_meta_field_invariant P);
       [exact Hs|intros v m Hv Hm; unfold P in *; simpl; auto]..
      |intros s Hs;
       destruct (object_props a !! "texture") as [[]|]; simpl;
       try destruct (bool_decide _); simpl; exact Hs]
  end.

(** X12. The meta migrator. A string field of the record is only ever
    given the custom property of the rig that feeds it. When the host
    accepts every such property that is a string, each of the twelve
    fields ends as the property when that is a string and as it was
    otherwise, also when the texture makes the migrator raise; the texture
    is then resolved against the images of [bpy.data]: it is set when the
    property is the name of an image and left as it was when the name is
    unknown. The migrator completes exactly when the host accepts every
    string property and the texture property, if there is one, is a
    string. *)
Theorem migrate_vrm0_meta_fields
  (H : Host) (bpy : BlendData) (meta : Meta) (armature : ArmatureObject) :
  let result := migrate_vrm0_meta H bpy meta armature in
  (forall key property get,
      (key, property, get) ∈ meta_string_fields ->
      get (final result) = get meta
      \/ object_props armature !! key = Some (IDStr (get (final result))))
  /\ (meta_accepted H armature ->
      (forall key property get,
          (key, property, get) ∈ meta_string_fields ->
          get (final result)
          = default (get meta) (idprop_str (object_props armature !! key)))
      /\ texture (final result)
         = match object_props armature !! "texture" with
           | Some (IDStr name) =>
               if bool_decide (name ∈ images bpy) then Some name
               else texture meta
           | _ => texture meta
           end)
  /\ (completed result
      <-> meta_accepted H armature
          /\ forall p, object_props armature !! "texture" = Some p ->
                       exists name, p = IDStr name).
Proof.
  intros result. subst result.
  assert (Htexture : forall chain : Meta,
             completed
               match object_props armature !! "texture" with
               | Some (IDStr texture) =>
                   if bool_decide (texture ∈ images bpy)
                   then Done (set_texture (Some texture) chain)
                   else Done chain
               | Some _ => Raised TypeError chain
               | None => Done chain
               end
             <-> forall p, object_props armature !! "texture" = Some p ->
                           exists name, p = IDStr name).
  { intros chain.
    destruct (object_props armature !! "texture") as [p|]; simpl.
    - destruct p; simpl;
        try (split; [contradiction|]; intros Hstr;
             destruct (Hstr _ eq_refl) as [name Hname]; discriminate).
      destruct (bool_decide _); simpl; split; try exact (fun _ => I);
        intros _ p [= <-]; eauto.
    - split; [|exact (fun _ => I)]. intros _ p Hp. discriminate. }
  split; [|split].
  - intros key property get Hin. unfold meta_string_fields in Hin.
    repeat (apply elem_of_cons in Hin as [Heq|Hin];
            [injection Heq as -> -> ->; meta_field_invariant|]).
    inversion Hin.
  - intros Haccepted. rewrite migrate_vrm0_meta_accepted by exact Haccepted.
    cbv beta zeta.
    set (chain := assign_if _ set_violent_ussage_name _).
    assert (Hfinal :
              final
                match object_props armature !! "texture" with
                | Some (IDStr texture) =>
                    if bool_decide (texture ∈ images bpy)
                    then Done (set_texture (Some texture) chain)
                    else Done chain
                | Some _ => Raised TypeError chain
                | None => Done chain
                end
              = match object_props armature !! "texture" with
                | Some (IDStr texture) =>
                    if bool_decide (texture ∈ images bpy)
                    then set_texture (Some texture) chain
                    else chain
                | _ => chain
                end).
    { destruct (object_props armature !! "texture") as [[]|];
        try reflexivity.
      destruct (bool_decide _); reflexivity. }
    rewrite Hfinal. split.
    + intros key property get Hin.
      assert (Hchain : get chain
                       = default (get meta)
                           (idprop_str (object_props armature !! key))).
      { subst chain. unfold meta_string_fields in Hin.
        repeat (apply elem_of_cons in Hin as [Heq|Hin];
                [injection Heq as -> -> ->;
                 repeat (rewrite assign_if_other by reflexivity);
                 rewrite assign_if_own by reflexivity;
                 repeat (rewrite assign_if_other by reflexivity);
                 reflexivity|]).
        inversion Hin. }
      rewrite <- Hchain. unfold meta_string_fields in Hin.
      destruct (object_props armature !! "texture") as [[]|];
        try reflexivity.
      destruct (bool_decide _); [|reflexivity].
      repeat (apply elem_of_cons in Hin as [Heq|Hin];
              [injection Heq as -> -> ->; reflexivity|]).
      inversion Hin.
    + assert (Hchain : texture chain = texture meta).
      { subst chain. repeat (rewrite assign_if_other by reflexivity).
        reflexivity. }
      destruct (object_props armature !! "texture") as [[]|];
        try exact Hchain.
      destruct (bool_decide _); [reflexivity|exact Hchain].
  - split.
    + intros Hc. unfold migrate_vrm0_meta in Hc. cbv zeta in Hc.
      apply and_then_completed in Hc as [Hc Hlast].
      pose proof (proj1 (Htexture _) Hlast) as Hstr. clear Hlast.
      split; [|exact Hstr].
      repeat match goal with
             | Hchain : completed (_ >>> _) |- _ =>
                 apply and_then_completed in Hchain as [? ?]
             end.
      repeat match goal with
             | Hfield : completed (migrate_meta_field _ _ _ _ _ _) |- _ =>
                 pose proof (proj1 (migrate_meta_field_completed _ _ _ _ _ _)
                               Hfield);
                 clear Hfield
             end.
      intros key property get v Hin Hv. unfold meta_string_fields in Hin.
      repeat (apply elem_of_cons in Hin as [Heq|Hin];
              [injection Heq as -> -> ->; eauto|]).
      inversion Hin.
    + intros [Haccepted Hstr].
      rewrite migrate_vrm0_meta_accepted by exact Haccepted.
      cbv beta zeta. apply Htexture, Hstr.
Qed.

Lemma example_meta_accepted a :
  (forall v, object_props a !! "allowedUserName" = Some (IDStr v) ->
             example_meta_accepts "allowed_user_name" v = true) ->
  meta_accepted example_host a.
Proof.
  intros Hallowed key property get v Hin Hv.
  unfold meta_string_fields in Hin.
  apply elem_of_cons in Hin as [Heq|Hin];
    [injection Heq as -> -> ->; apply Hallowed, Hv|].
  repeat (apply elem_of_cons in Hin as [Heq|Hin];
          [injection Heq as -> -> ->; reflexivity|]).
  inversion Hin.
Qed.

Lemma migrate_vrm0_meta_fields_witness :
  title (final (migrate_vrm0_meta example_host example_data example_meta
                  meta_armature))
  = "Alicia"
  /\ author (final (migrate_vrm0_meta example_host example_data example_meta
                      meta_armature))
     = EmptyString
  /\ completed (migrate_vrm0_meta example_host example_data example_meta
                  meta_armature)
  /\ ~ completed (migrate_vrm0_meta example_host example_data example_meta
                    misallowed_armature).
Proof.
  assert (Haccepted : meta_accepted example_host meta_armature).
  { apply example_meta_accepted. intros v Hv. vm_compute in Hv.
    discriminate. }
  destruct (migrate_vrm0_meta_fields example_host example_data example_meta
              meta_armature) as (_ & Hfields & Hcompleted).
  destruct (Hfields Haccepted) as [Hstrings _].
  split; [|split; [|split]].
  - apply (Hstrings "title" "title" title). unfold meta_string_fields.
    do 9 right. left.
  - apply (Hstrings "author" "author" author). unfold meta_string_fields.
    right. left.
  - apply Hcompleted. split; [exact Haccepted|].
    intros p Hp. vm_compute in Hp. injection Hp as <-. eauto.
  - destruct (migrate_vrm0_meta_fields example_host example_data
                example_meta misallowed_armature) as (_ & _ & Hcut).
    intros Hc. apply Hcut in Hc as [Hrefused _].
    specialize (Hrefused "allowedUserName" "allowed_user_name"
                  allowed_user_name "Nobody").
    assert (Hno : example_meta_accepts "allowed_user_name" "Nobody" = false)
      by (vm_compute; reflexivity).
    simpl in Hrefused. rewrite Hno in Hrefused.
    discriminate Hrefused; [unfold meta_string_fields; left|reflexivity].
Defined.

(** ** The first-person migrator *)



(** ** What the legacy scan keeps *)

Lemma set_human_bone_node_roles r b hbs :
  map bone (set_human_bone_node r b hbs) = map bone hbs.
Proof.
  induction hbs as [|hb hbs IH]; simpl; [reflexivity|].
  destruct (String.eqb (bone hb) r); simpl; [reflexivity|].
  rewrite IH. reflexivity.
Qed.

(** X14. The scan never adds, removes or reorders the entries of
    [human_bones] and never changes the role of an entry: the roles after
    the scan are the roles before it, whatever the legacy properties say
    and whether or not a role with a property has an entry. *)
Theorem legacy_scan_keeps_roles
  (names : list string) (armature : ArmatureObject)
  (assigned : list string) (human_bones : list HumanBone) :
  map bone (migrate_human_bone_props names armature assigned human_bones).2
  = map bone human_bones.
Proof.
  revert assigned human_bones.
  induction names as [|r names IH]; intros assigned hbs; simpl;
    [reflexivity|].
  destruct (idprop_str _); [destruct (_ || _)|]; rewrite IH;
    try reflexivity.
  apply set_human_bone_node_roles.
Qed.

Lemma assigned_nodes_cons_set hb hbs :
  node hb <> EmptyString ->
  assigned_nodes (hb :: hbs) = node hb :: assigned_nodes hbs.
Proof.
  intros Hset. unfold assigned_nodes. simpl.
  rewrite filter_cons_True by exact Hset. reflexivity.
Qed.

Lemma assigned_nodes_cons_empty hb hbs :
  node hb = EmptyString -> assigned_nodes (hb :: hbs) = assigned_nodes hbs.
Proof.
  intros Hempty. unfold assigned_nodes. simpl.
  rewrite filter_cons_False by (intros Hne; exact (Hne Hempty)).
  reflexivity.
Qed.

Lemma assigned_nodes_elem x hbs :
  x ∈ assigned_nodes hbs <-> x <> EmptyString /\ exists hb, hb ∈ hbs /\ node hb = x.
Proof.
  unfold assigned_nodes. rewrite list_elem_of_filter, list_elem_of_fmap.
  split; intros [Hx (hb & Hn & Hin)]; (split; [exact Hx|]); exists hb; auto.
Qed.

Lemma set_human_bone_node_elem r b hbs hb :
  hb ∈ set_human_bone_node r b hbs ->
  hb ∈ hbs \/ (node hb = b /\ bone hb = r).
Proof.
  induction hbs as [|hb' hbs IH]; simpl; [auto|].
  destruct (String.eqb_spec (bone hb') r) as [Hr|Hr].
  - intros Hin. apply elem_of_cons in Hin as [->|Hin].
    + right. split; [reflexivity|exact Hr].
    + left. right. exact Hin.
  - intros Hin. apply elem_of_cons in Hin as [->|Hin].
    + left. left.
    + destruct (IH Hin) as [?|?]; [left; right; assumption|right; assumption].
Qed.

Lemma scan_invariant_step a assigned hbs r b :
  scan_invariant a assigned hbs ->
  data_props a !! r = Some (IDStr b) ->
  b <> EmptyString ->
  b ∉ assigned ->
  scan_invariant a (assigned ++ [b]) (set_human_bone_node r b hbs).
Proof.
  intros [Hheld Hnodup] Hprop Hb Hfresh. split.
  - intros hb Hin Hnode.
    apply set_human_bone_node_elem in Hin as [Hin|[Hn Hr]].
    + destruct (Hheld hb Hin Hnode) as [Ha Hp].
      split; [apply elem_of_app; left; exact Ha|exact Hp].
    + split; [apply elem_of_app; right; rewrite Hn; left|].
      rewrite Hr, Hn. exact Hprop.
  - assert (Hnew : b ∉ assigned_nodes hbs).
    { intros Hin. apply assigned_nodes_elem in Hin as [_ (hb & Hin & Hn)].
      apply Hfresh. rewrite <- Hn.
      apply (Hheld hb Hin). rewrite Hn. exact Hb. }
    clear Hfresh. induction hbs as [|hb hbs IH]; simpl; [exact Hnodup|].
    assert (Htail : forall hb', hb' ∈ hbs -> node hb' <> EmptyString ->
                      node hb' ∈ assigned
                      /\ data_props a !! bone hb' = Some (IDStr (node hb'))).
    { intros hb' Hin'. apply Hheld. right. exact Hin'. }
    destruct (String.eqb_spec (bone hb) r) as [Hr|Hr].
    + destruct (decide (node hb = EmptyString)) as [Hempty|Hset].
      * rewrite assigned_nodes_cons_empty in Hnodup, Hnew by exact Hempty.
        rewrite assigned_nodes_cons_set by exact Hb.
        apply NoDup_cons. split; assumption.
      * (* the entry of the role already holds the name of its property *)
        exfalso. apply Hnew.
        rewrite assigned_nodes_cons_set by exact Hset.
        destruct (Hheld hb) as [_ Hp]; [left|exact Hset|].
        rewrite Hr, Hprop in Hp. injection Hp as ->. left.
    + destruct (decide (node hb = EmptyString)) as [Hempty|Hset].
      * rewrite assigned_nodes_cons_empty in Hnodup, Hnew by exact Hempty.
        rewrite assigned_nodes_cons_empty by exact Hempty.
        apply IH; assumption.
      * rewrite assigned_nodes_cons_set in Hnodup, Hnew by exact Hset.
        rewrite assigned_nodes_cons_set by exact Hset.
        apply NoDup_cons in Hnodup as [Hnot Hnodup].
        apply not_elem_of_cons in Hnew as [Hne Hnew].
        apply NoDup_cons. split.
        -- intros Hin.
           apply assigned_nodes_elem in Hin as [_ (hb' & Hin & Hn)].
           apply set_human_bone_node_elem in Hin as [Hin|[Hn' _]].
           ++ apply Hnot, assigned_nodes_elem. split; [exact Hset|].
              exists hb'. auto.
           ++ congruence.
        -- apply IH; assumption.
Qed.

Lemma scan_invariant_kept names a assigned hbs :
  scan_invariant a assigned hbs ->
  scan_invariant a (migrate_human_bone_props names a assigned hbs).1
    (migrate_human_bone_props names a assigned hbs).2.
Proof.
  revert assigned hbs.
  induction names as [|r names IH]; intros assigned hbs Hinv; simpl;
    [exact Hinv|].
  destruct (data_props a !! r) as [[b| | | ]|] eqn:Hprop; simpl;
    try (apply IH, Hinv).
  destruct (String.eqb_spec b EmptyString) as [|Hb]; simpl;
    [apply IH, Hinv|].
  destruct (bool_decide_reflect (b ∈ assigned)) as [|Hfresh];
    [apply IH, Hinv|].
  apply IH, scan_invariant_step; assumption.
Qed.

(** X15. On human bones that start unassigned, the scan gives no bone to
    two entries: the bone references it leaves set are pairwise distinct,
    and each holds the name that the legacy property of its own role
    gives. *)
Theorem legacy_scan_assigns_each_bone_once
  (names : list string) (armature : ArmatureObject)
  (human_bones : list HumanBone) :
  Forall (fun human_bone => node human_bone = EmptyString) human_bones ->
  let scanned :=
    (migrate_human_bone_props names armature [] human_bones).2 in
  NoDup (assigned_nodes scanned)
  /\ forall human_bone,
      human_bone ∈ scanned -> node human_bone <> EmptyString ->
      names_bone armature (bone human_bone) (node human_bone).
Proof.
  intros Hempty scanned. subst scanned.
  assert (Hinv : scan_invariant armature [] human_bones).
  { split.
    - intros hb Hin Hnode. rewrite Forall_forall in Hempty.
      destruct (Hnode (Hempty hb Hin)).
    - unfold assigned_nodes.
      rewrite filter_none; [apply NoDup_nil_2|].
      intros x Hx Hne. apply list_elem_of_fmap in Hx as (hb & -> & Hin).
      rewrite Forall_forall in Hempty. exact (Hne (Hempty hb Hin)). }
  destruct (scan_invariant_kept names armature [] human_bones Hinv)
    as [Hheld Hnodup].
  split; [exact Hnodup|].
  intros hb Hin Hnode. destruct (Hheld hb Hin Hnode) as [_ Hprop].
  split; assumption.
Qed.

Lemma legacy_scan_assigns_each_bone_once_witness :
  NoDup
    (assigned_nodes
       (migrate_human_bone_props ["hips"; "head"; "leftUpperArm"]
          contested_armature [] unassigned_human_bones).2)
  /\ assigned_nodes
       (migrate_human_bone_props ["hips"; "head"; "leftUpperArm"]
          contested_armature [] unassigned_human_bones).2
     = ["Head"; "Arm"].
Proof.
  split; [|vm_compute; reflexivity].
  apply (legacy_scan_assigns_each_bone_once ["hips"; "head"; "leftUpperArm"]
           contested_armature unassigned_human_bones).
  repeat constructor.
Defined.

(** ** The state the first run leaves below the gate *)

Lemma assigned_head_entry_is_necessary hbs b :
  role_node "head" hbs = Some b -> b <> EmptyString ->
  forallb (fun hb => negb (String.eqb (bone hb) "head")
                     || String.eqb (node hb) EmptyString) hbs = false.
Proof.
  unfold role_node. intros Hrole Hb.
  induction hbs as [|hb hbs IH]; simpl in *; [discriminate|].
  destruct (String.eqb (bone hb) "head"); simpl in *.
  - injection Hrole as Hnode. rewrite Hnode.
    destruct (String.eqb_spec b EmptyString); [contradiction|reflexivity].
  - apply IH, Hrole.
Qed.

(** X16. On the rig of the head scenario (version (1, 0, 0), no custom
    property of its own, the legacy property [head] naming the bone
    [Head], no first-person bone, and a head role that is unassigned after
    the fix-up) the first run leaves a document that [is_unnecessary]
    rejects: the head role has its bone and the first-person bone is still
    empty, which is the state that calls for another run. *)
Theorem first_run_leaves_migration_necessary
  (H : Host) (bpy : BlendData) (rig : Rig) :
  addon_version (ext rig) = (1, 0, 0) ->
  object_props (armature rig) = ∅ ->
  data_props (armature rig) = {[ "head" := IDStr "Head" ]} ->
  "head" ∈ all_names H ->
  NoDup (all_names H) ->
  first_person_bone (first_person (rig_vrm0 rig)) = EmptyString ->
  role_node "head"
    (fixup_human_bones H (armature rig)
       (human_bones (humanoid (rig_vrm0 rig)))) = Some EmptyString ->
  is_unnecessary (rig_vrm0 (final (migrate H bpy rig))) = false.
Proof.
  intros Hv Hprops Hhead Hrole Hnodup Hanchor Hbefore.
  destruct (migrate_without_attachments H bpy rig)
    as (rig' & -> & _ & _ & Hbones & Hbone & _).
  { rewrite Hv. reflexivity. }
  { exact Hprops. }
  simpl. unfold is_unnecessary.
  rewrite Hbone, Hanchor. simpl.
  assert (Hfind : match
                    find (fun hb => String.eqb (bone hb) "head")
                      (fixup_human_bones H (armature rig)
                         (human_bones (humanoid (rig_vrm0 rig))))
                  with
                  | Some hb => node hb
                  | None => EmptyString
                  end = EmptyString).
  { unfold role_node in Hbefore. destruct (find _ _); [|reflexivity].
    simpl in Hbefore. congruence. }
  rewrite Hfind. simpl.
  apply (assigned_head_entry_is_necessary _ "Head"); [|discriminate].
  rewrite Hbones.
  rewrite (scan_of_single_property _ _ "head" "Head") by (done || eauto).
  rewrite Hbefore. reflexivity.
Qed.

Lemma first_run_leaves_migration_necessary_witness :
  is_unnecessary
    (rig_vrm0 (final (migrate example_host example_data head_only_rig)))
  = false.
Proof.
  apply (first_run_leaves_migration_necessary example_host example_data
           head_only_rig).
  - reflexivity.
  - reflexivity.
  - reflexivity.
  - apply (bool_decide_unpack _). vm_compute. exact I.
  - apply (bool_decide_unpack _). vm_compute. exact I.
  - reflexivity.
  - vm_compute. reflexivity.
Defined.

(** * Properties of the scene queries *)

(** ** Counting armatures *)

Lemma second_armature_object_counts first_obj_exists objs :
  second_armature_object first_obj_exists objs = true
  <-> (2 <= Nat.b2n first_obj_exists + length (armature_objects objs))%nat.
Proof.
  unfold armature_objects. revert first_obj_exists.
  induction objs as [|obj objs IH]; intros seen; simpl.
  - destruct seen; simpl; split; (discriminate || lia).
  - destruct (is_armature obj) eqn:Harmature.
    + rewrite filter_cons_True by exact Harmature. simpl.
      destruct seen; simpl.
      * split; [lia|reflexivity].
      * rewrite IH. simpl. lia.
    + rewrite filter_cons_False by (rewrite Harmature; discriminate).
      apply IH.
Qed.

Lemma multiple_armatures_loop_counts context first_data_exists armatures :
  multiple_armatures_loop context first_data_exists armatures = true
  <-> (2 <= Nat.b2n first_data_exists + length (live_armatures armatures))%nat
      /\ (2 <= length (armature_objects (object_candidates context)))%nat.
Proof.
  unfold live_armatures. revert first_data_exists.
  induction armatures as [|armature_data armatures IH]; intros seen; simpl.
  - destruct seen; simpl; split; (discriminate || lia).
  - destruct (Nat.eqb_spec (users armature_data) 0) as [Hunused|Hused].
    + rewrite filter_cons_False by (intros Hne; exact (Hne Hunused)).
      apply IH.
    + rewrite filter_cons_True by exact Hused. simpl.
      destruct seen; simpl.
      * rewrite second_armature_object_counts. simpl. lia.
      * rewrite IH. simpl. lia.
Qed.

(** X17. [multiple_armatures_exist] answers yes exactly when at least two
    armature data are in use and at least two of the candidate objects
    are armatures; the two counts are independent of each other, the
    second data in use only deciding when the objects are counted.
    Whenever it answers yes, [armature_exists] does too. *)
Theorem multiple_armatures_exist_counts (context : Context) :
  (multiple_armatures_exist context = true
   <-> (2 <= length (live_armatures (data_armatures context)))%nat
       /\ (2 <= length (armature_objects (object_candidates context)))%nat)
  /\ (multiple_armatures_exist context = true ->
      armature_exists context = true).
Proof.
  assert (Hcounts :
            multiple_armatures_exist context = true
            <-> (2 <= length (live_armatures (data_armatures context)))%nat
                /\ (2 <= length
                           (armature_objects (object_candidates context)))%nat).
  { unfold multiple_armatures_exist.
    rewrite multiple_armatures_loop_counts. reflexivity. }
  split; [exact Hcounts|].
  intros Hmultiple. apply Hcounts in Hmultiple as [Hdata Hobjs].
  unfold armature_exists. apply andb_true_intro. split.
  - destruct (live_armatures (data_armatures context)) as [|a l] eqn:Hlive;
      [simpl in Hdata; lia|].
    assert (Ha : a ∈ live_armatures (data_armatures context))
      by (rewrite Hlive; left).
    apply list_elem_of_filter in Ha as [Hused Ha].
    apply existsb_exists. exists a. split; [apply list_elem_of_In, Ha|].
    apply negb_true_iff, Nat.eqb_neq, Hused.
  - destruct (armature_objects (object_candidates context)) as [|o l]
      eqn:Harmatures; [simpl in Hobjs; lia|].
    assert (Ho : o ∈ armature_objects (object_candidates context))
      by (rewrite Harmatures; left).
    apply list_elem_of_filter in Ho as [Harmature Ho].
    apply existsb_exists. exists o. split; [apply list_elem_of_In, Ho|].
    exact Harmature.
Qed.

Lemma multiple_armatures_exist_counts_witness :
  multiple_armatures_exist two_armatures_context = true
  /\ armature_exists two_armatures_context = true.
Proof.
  destruct (multiple_armatures_exist_counts two_armatures_context)
    as [Hcounts Hexists].
  assert (Hmultiple : multiple_armatures_exist two_armatures_context = true).
  { apply Hcounts. split; vm_compute; lia. }
  split; [exact Hmultiple|apply Hexists, Hmultiple].
Defined.

(** ** The kinds of constraint *)

Lemma export_constraint_kinds (constraint : Constraint)
  (objs : list SceneObject) :
  (is_roll_constraint constraint objs = true ->
   is_rotation_constraint constraint objs = false)
  /\ (is_roll_constraint constraint objs = true ->
      is_aim_constraint constraint objs = false)
  /\ (is_aim_constraint constraint objs = true ->
      is_rotation_constraint constraint objs = false).
Proof.
  unfold is_roll_constraint, is_rotation_constraint, is_aim_constraint.
  destruct (class constraint), (target constraint) as [t|];
    repeat split; try reflexivity; try discriminate.
  destruct (use_x constraint), (use_y constraint), (use_z constraint);
    simpl; rewrite ?andb_false_r; try reflexivity; try discriminate.
Qed.

(** X18. The three kinds of exported constraint exclude one another: no
    constraint is at once a roll and a rotation constraint (the one uses
    exactly one axis, the other all three), and an aim constraint, being
    a damped track, is neither. *)
Theorem export_constraint_kinds_exclusive
  (constraint : Constraint) (objs : list SceneObject) :
  is_roll_constraint constraint objs
  && is_rotation_constraint constraint objs = false
  /\ is_roll_constraint constraint objs
     && is_aim_constraint constraint objs = false
  /\ is_aim_constraint constraint objs
     && is_rotation_constraint constraint objs = false.
Proof.
  destruct (export_constraint_kinds constraint objs) as (Hrr & Hra & Har).
  destruct (is_roll_constraint constraint objs),
    (is_aim_constraint constraint objs),
    (is_rotation_constraint constraint objs);
    repeat split; try reflexivity;
    try (discriminate (Hrr eq_refl)); try (discriminate (Hra eq_refl));
    discriminate (Har eq_refl).
Qed.

(** ** Exporting the constraints of objects *)

Lemma export_constraints_of_object_empty objs key cs :
  export_constraints_of_object objs key no_constraints cs
  = if existsb (is_export_constraint objs) cs then inl KeyError
    else inr no_constraints.
Proof.
  unfold is_export_constraint.
  induction cs as [|c cs IH]; simpl; [reflexivity|].
  destruct (is_roll_constraint c objs); [reflexivity|].
  destruct (is_aim_constraint c objs); [reflexivity|].
  destruct (is_rotation_constraint c objs); [reflexivity|]. exact IH.
Qed.

Lemma export_object_constraints_loop_empty objs todo :
  export_object_constraints_loop objs no_constraints todo
  = if existsb (fun obj => existsb (is_export_constraint objs)
                             (constraints obj)) todo
    then inl KeyError
    else inr no_constraints.
Proof.
  induction todo as [|obj todo IH]; simpl; [reflexivity|].
  rewrite export_constraints_of_object_empty.
  destruct (existsb _ (constraints obj)); [reflexivity|exact IH].
Qed.

(** X19. [export_object_constraints] never returns a constraint. It looks
    up the name of the object in a dictionary that is still empty in order
    to append to the entry, so the first constraint of one of the three
    kinds, on any of the objects, raises [KeyError]; and when no object
    has such a constraint the three dictionaries are returned empty. *)
Theorem export_object_constraints_raises_or_empty (objs : list SceneObject) :
  ((exists obj constraint,
       obj ∈ objs /\ constraint ∈ constraints obj
       /\ is_export_constraint objs constraint = true) ->
   export_object_constraints objs = inl KeyError)
  /\ ((forall obj constraint,
          obj ∈ objs -> constraint ∈ constraints obj ->
          is_export_constraint objs constraint = false) ->
      export_object_constraints objs = inr no_constraints)
  /\ (export_object_constraints objs = inl KeyError
      \/ export_object_constraints objs = inr no_constraints).
Proof.
  unfold export_object_constraints.
  rewrite export_object_constraints_loop_empty.
  split; [|split].
  - intros (obj & c & Hobj & Hc & Hkind).
    replace (existsb _ objs) with true; [reflexivity|].
    symmetry. apply existsb_exists. exists obj.
    split; [apply list_elem_of_In, Hobj|].
    apply existsb_exists. exists c. split; [apply list_elem_of_In, Hc|].
    exact Hkind.
  - intros Hnone.
    destruct (existsb _ objs) eqn:Hsome; [|reflexivity].
    apply existsb_exists in Hsome as (obj & Hobj & Hsome).
    apply existsb_exists in Hsome as (c & Hc & Hkind).
    rewrite (Hnone obj c) in Hkind; [discriminate| |];
      apply list_elem_of_In; assumption.
  - destruct (existsb _ objs); [left|right]; reflexivity.
Qed.

Lemma export_object_constraints_raises_or_empty_witness :
  export_object_constraints [example_cube; constrained_object]
  = inl KeyError
  /\ export_object_constraints [example_cube; constrained_armature]
     = inr no_constraints.
Proof.
  split.
  - destruct (export_object_constraints_raises_or_empty
                [example_cube; constrained_object]) as (Hraises & _ & _).
    apply Hraises.
    exists constrained_object, (copy_rotation example_cube true false false).
    split; [right; left|]. split; [left|reflexivity].
  - destruct (export_object_constraints_raises_or_empty
                [example_cube; constrained_armature]) as (_ & Hempty & _).
    apply Hempty. intros obj c Hobj Hc.
    apply elem_of_cons in Hobj as [->|Hobj]; [inversion Hc|].
    apply list_elem_of_singleton in Hobj as ->. inversion Hc.
Defined.

(** ** Exporting the constraints of pose bones *)

Lemma export_constraints_of_bone_other objs key found cs key' :
  key' <> key ->
  let found' := export_constraints_of_bone objs key found cs in
  roll_constraints found' !! key' = roll_constraints found !! key'
  /\ aim_constraints found' !! key' = aim_constraints found !! key'
  /\ rotation_constraints found' !! key' = rotation_constraints found !! key'.
Proof.
  intros Hne. cbv zeta.
  induction cs as [|c cs IH]; simpl; [auto|].
  destruct (is_roll_constraint c objs); simpl;
    [rewrite lookup_insert_ne by congruence; auto|].
  destruct (is_aim_constraint c objs); simpl;
    [rewrite lookup_insert_ne by congruence; auto|].
  destruct (is_rotation_constraint c objs); simpl;
    [rewrite lookup_insert_ne by congruence; auto|].
  exact IH.
Qed.

Lemma export_constraints_of_bone_first objs key found cs :
  roll_constraints found !! key = None ->
  aim_constraints found !! key = None ->
  rotation_constraints found !! key = None ->
  let found' := export_constraints_of_bone objs key found cs in
  roll_constraints found' !! key = first_of_kind is_roll_constraint objs cs
  /\ aim_constraints found' !! key = first_of_kind is_aim_constraint objs cs
  /\ rotation_constraints found' !! key
     = first_of_kind is_rotation_constraint objs cs.
Proof.
  intros Hroll Haim Hrotation. cbv zeta.
  unfold first_of_kind, is_export_constraint.
  induction cs as [|c cs IH]; simpl; [auto|].
  destruct (export_constraint_kinds c objs) as (Hrr & Hra & Har).
  destruct (is_roll_constraint c objs) eqn:Hr.
  - simpl. rewrite Hr, lookup_insert_eq, (Hrr eq_refl), (Hra eq_refl).
    auto.
  - destruct (is_aim_constraint c objs) eqn:Ha.
    + simpl. rewrite Hr, Ha, lookup_insert_eq, (Har eq_refl). auto.
    + destruct (is_rotation_constraint c objs) eqn:Ho.
      * simpl. rewrite Hr, Ha, Ho, lookup_insert_eq. auto.
      * simpl. exact IH.
Qed.

Lemma export_bone_constraints_loop objs bones : forall found,
  NoDup (map fst bones) ->
  (forall key, key ∈ map fst bones ->
     roll_constraints found !! key = None
     /\ aim_constraints found !! key = None
     /\ rotation_constraints found !! key = None) ->
  let found' :=
    fold_left
      (fun found bone => export_constraints_of_bone objs bone.1 found bone.2)
      bones found in
  (forall key cs, (key, cs) ∈ bones ->
     roll_constraints found' !! key = first_of_kind is_roll_constraint objs cs
     /\ aim_constraints found' !! key
        = first_of_kind is_aim_constraint objs cs
     /\ rotation_constraints found' !! key
        = first_of_kind is_rotation_constraint objs cs)
  /\ (forall key, key ∉ map fst bones ->
       roll_constraints found' !! key = roll_constraints found !! key
       /\ aim_constraints found' !! key = aim_constraints found !! key
       /\ rotation_constraints found' !! key
          = rotation_constraints found !! key).
Proof.
  induction bones as [|[k cs] bones IH]; intros found Hnodup Hfresh; cbv zeta.
  - split; [intros key cs Hin; inversion Hin|auto].
  - simpl in Hnodup. apply NoDup_cons in Hnodup as [Hk Hnodup]. simpl.
    set (found1 := export_constraints_of_bone objs k found cs).
    destruct (IH found1 Hnodup) as [Hbones Hother].
    { intros key Hkey.
      assert (Hne : key <> k) by (intros ->; exact (Hk Hkey)).
      unfold found1.
      destruct (export_constraints_of_bone_other objs k found cs key Hne)
        as (-> & -> & ->).
      apply Hfresh. right. exact Hkey. }
    split.
    + intros key cs' Hin. apply elem_of_cons in Hin as [Heq|Hin].
      * injection Heq as -> ->.
        destruct (Hother k Hk) as (-> & -> & ->).
        destruct (Hfresh k) as (Hr & Ha & Ho); [left|].
        apply export_constraints_of_bone_first; assumption.
      * apply Hbones, Hin.
    + intros key Hkey. apply not_elem_of_cons in Hkey as [Hne Hkey].
      destruct (Hother key Hkey) as (-> & -> & ->).
      apply export_constraints_of_bone_other, Hne.
Qed.

Lemma first_of_kind_exclusive objs cs :
  (is_Some (first_of_kind is_roll_constraint objs cs) ->
   first_of_kind is_aim_constraint objs cs = None
   /\ first_of_kind is_rotation_constraint objs cs = None)
  /\ (is_Some (first_of_kind is_aim_constraint objs cs) ->
      first_of_kind is_rotation_constraint objs cs = None).
Proof.
  unfold first_of_kind.
  destruct (find (is_export_constraint objs) cs) as [c|];
    [|split; intros [? Hsome]; discriminate].
  destruct (export_constraint_kinds c objs) as (Hrr & Hra & Har).
  destruct (is_roll_constraint c objs).
  - rewrite (Hrr eq_refl), (Hra eq_refl). split; [auto|].
    intros [? Hsome]; discriminate.
  - split; [intros [? Hsome]; discriminate|].
    destruct (is_aim_constraint c objs); [rewrite (Har eq_refl); auto|].
    intros [? Hsome]; discriminate.
Qed.

(** X20. [export_bone_constraints] records, under the name of each pose
    bone, the first constraint of the bone that is of one of the three
    kinds, in the dictionary of its kind and in no other: later constraints
    of the bone are not looked at, a bone without such a constraint has no
    entry, and no name that is not a pose bone has one. Bone names are
    unique in an armature. *)
Theorem export_bone_constraints_first_of_each_bone
  (objs : list SceneObject) (armature : SceneObject) :
  NoDup (map fst (pose_bones armature)) ->
  let found := export_bone_constraints objs armature in
  (forall key cs, (key, cs) ∈ pose_bones armature ->
     roll_constraints found !! key = first_of_kind is_roll_constraint objs cs
     /\ aim_constraints found !! key
        = first_of_kind is_aim_constraint objs cs
     /\ rotation_constraints found !! key
        = first_of_kind is_rotation_constraint objs cs)
  /\ (forall key, key ∉ map fst (pose_bones armature) ->
       roll_constraints found !! key = None
       /\ aim_constraints found !! key = None
       /\ rotation_constraints found !! key = None)
  /\ (forall key,
       (is_Some (roll_constraints found !! key) ->
        aim_constraints found !! key = None
        /\ rotation_constraints found !! key = None)
       /\ (is_Some (aim_constraints found !! key) ->
           rotation_constraints found !! key = None)).
Proof.
  intros Hnodup. cbv zeta. unfold export_bone_constraints.
  destruct (export_bone_constraints_loop objs (pose_bones armature)
              no_constraints Hnodup) as [Hbones Hother].
  { intros key _. simpl. rewrite lookup_empty. auto. }
  split; [exact Hbones|]. split; [exact Hother|].
  intros key.
  destruct (decide (key ∈ map fst (pose_bones armature))) as [Hkey|Hkey].
  - apply list_elem_of_fmap in Hkey as ([k cs] & -> & Hin). simpl.
    destruct (Hbones k cs Hin) as (-> & -> & ->).
    apply first_of_kind_exclusive.
  - destruct (Hother key Hkey) as (-> & -> & ->). simpl.
    rewrite lookup_empty.
    split; intros [? Hsome]; discriminate.
Qed.

Lemma export_bone_constraints_first_of_each_bone_witness :
  let found := export_bone_constraints [example_cube] constrained_armature in
  roll_constraints found !! "arm"
  = Some (copy_rotation example_cube false true false)
  /\ rotation_constraints found !! "arm" = None
  /\ rotation_constraints found !! "hand"
     = Some (copy_rotation example_cube true true true)
  /\ roll_constraints found !! "head" = None
  /\ roll_constraints found !! "leg" = None.
Proof.
  assert (Hnodup : NoDup (map fst (pose_bones constrained_armature))).
  { apply (bool_decide_unpack _). vm_compute. exact I. }
  destruct (export_bone_constraints_first_of_each_bone
              [example_cube] constrained_armature Hnodup)
    as (Hbones & Hother & _).
  cbv zeta.
  destruct (Hbones "arm" [copy_rotation example_cube false false false;
                          copy_rotation example_cube false true false])
    as (Harm & _ & Harm'); [left|].
  destruct (Hbones "hand" [copy_rotation example_cube true true true])
    as (_ & _ & Hhand); [right; left|].
  destruct (Hbones "head" []) as (Hhead & _ & _); [right; right; left|].
  destruct (Hother "leg") as (Hleg & _ & _).
  { apply (bool_decide_unpack _). vm_compute. exact I. }
  rewrite Harm, Harm', Hhand, Hhead, Hleg. repeat split.
Defined.

(** ** Distances between objects *)

Lemma pop_common_prefix_swap {A} (eqb : A -> A -> bool) :
  (forall x y, eqb x y = eqb y x) ->
  forall l r,
    pop_common_prefix eqb r l
    = ((pop_common_prefix eqb l r).2, (pop_common_prefix eqb l r).1).
Proof.
  intros Hsym l. induction l as [|x l IH]; intros [|y r]; simpl;
    try reflexivity.
  rewrite (Hsym y x). destruct (eqb x y); [apply IH|reflexivity].
Qed.

Lemma pop_common_prefix_app {A} (eqb : A -> A -> bool) :
  (forall x, eqb x x = true) ->
  forall l l', pop_common_prefix eqb (l ++ l') l = (l', []).
Proof.
  intros Hrefl l l'. induction l as [|x l IH]; simpl.
  - destruct l'; reflexivity.
  - rewrite Hrefl. exact IH.
Qed.

Lemma pop_common_prefix_same {A} (eqb : A -> A -> bool) :
  (forall x, eqb x x = true) ->
  forall l, pop_common_prefix eqb l l = ([], []).
Proof.
  intros Hrefl l.
  rewrite <- (app_nil_r l) at 1. apply pop_common_prefix_app, Hrefl.
Qed.

Lemma pop_common_prefix_empty {A} (eqb : A -> A -> bool) : forall l r,
  (pop_common_prefix eqb l r).1 = [] ->
  (pop_common_prefix eqb l r).2 = [] ->
  Forall2 (fun x y => eqb x y = true) l r.
Proof.
  induction l as [|x l IH]; intros [|y r]; simpl; try discriminate;
    [constructor|].
  destruct (eqb x y) eqn:Heq; [|discriminate].
  intros Hl Hr. constructor; [exact Heq|apply IH; assumption].
Qed.

Lemma parent_induction (P : SceneObject -> Prop) :
  (forall obj, (forall p, parent obj = Some p -> P p) -> P obj) ->
  forall obj, P obj.
Proof.
  intros Hstep. fix IH 1. intros obj. apply Hstep.
  destruct obj as [n t v [p|] u d c b]; simpl; intros p' Heq;
    [injection Heq as <-; apply IH|discriminate].
Qed.

Lemma parent_path_app obj : forall path,
  parent_path obj path = parent_path obj [] ++ path.
Proof.
  induction obj as [obj IH] using parent_induction. intros path.
  destruct obj as [n t v [p|] u d c b]; simpl; [|reflexivity].
  simpl in IH. rewrite (IH p eq_refl (_ :: path)), (IH p eq_refl [_]).
  rewrite <- app_assoc. reflexivity.
Qed.

Lemma parent_path_last obj :
  exists ancestors, parent_path obj [] = ancestors ++ [obj].
Proof.
  destruct obj as [n t v [p|] u d c b]; simpl.
  - eexists. apply parent_path_app.
  - exists []. reflexivity.
Qed.

Lemma parent_path_child obj p :
  parent obj = Some p -> parent_path obj [] = parent_path p [] ++ [obj].
Proof.
  destruct obj as [n t v [p'|] u d c b]; simpl; [|discriminate].
  intros [= ->]. apply parent_path_app.
Qed.

Lemma Forall2_last {A} (R : A -> A -> Prop) l r x y :
  Forall2 R (l ++ [x]) (r ++ [y]) -> R x y.
Proof.
  revert r. induction l as [|a l IH]; intros [|b r] H; simpl in H.
  - inversion H; assumption.
  - inversion H as [|? ? ? ? _ Htail]; subst.
    destruct r; inversion Htail.
  - inversion H as [|? ? ? ? _ Htail]; subst.
    destruct l; inversion Htail.
  - inversion H; subst. eapply IH; eassumption.
Qed.

Lemma same_object_refl obj : same_object obj obj = true.
Proof. apply String.eqb_refl. Qed.

Lemma same_object_sym left right :
  same_object left right = same_object right left.
Proof. apply String.eqb_sym. Qed.

(** X21. [object_distance] is symmetric: measured from the other object,
    the distance is the same with the two parent components exchanged and
    the two collection components exchanged; and the one run ends when
    the other does. *)
Theorem object_distance_symmetric (fuel : nat) (left right : SceneObject)
  (collection_child_to_parent : gmap string (option string)) :
  object_distance fuel right left collection_child_to_parent
  = option_map (fun '(a, b, c, d) => (b, a, d, c))
      (object_distance fuel left right collection_child_to_parent).
Proof.
  unfold object_distance.
  destruct (collection_path_of fuel collection_child_to_parent left)
    as [lc|],
    (collection_path_of fuel collection_child_to_parent right) as [rc|];
    simpl; try reflexivity.
  rewrite (pop_common_prefix_swap String.eqb String.eqb_sym lc rc).
  rewrite (pop_common_prefix_swap same_object same_object_sym
             (parent_path left []) (parent_path right [])).
  reflexivity.
Qed.

Lemma object_distance_parent_components fuel left right m a b c d :
  object_distance fuel left right m = Some (a, b, c, d) ->
  a = length (pop_common_prefix same_object
                (parent_path left []) (parent_path right [])).1
  /\ b = length (pop_common_prefix same_object
                   (parent_path left []) (parent_path right [])).2.
Proof.
  unfold object_distance.
  destruct (collection_path_of fuel m left); [|discriminate].
  destruct (collection_path_of fuel m right); [|discriminate].
  intros [= <- <- _ _]. split; reflexivity.
Qed.

Lemma object_distance_same_name fuel left right m c d :
  object_distance fuel left right m = Some (0, 0, c, d)%nat ->
  name left = name right.
Proof.
  intros Hdistance.
  apply object_distance_parent_components in Hdistance as [Ha Hb].
  symmetry in Ha, Hb. apply length_zero_iff_nil in Ha, Hb.
  pose proof (pop_common_prefix_empty _ _ _ Ha Hb) as Hpaths.
  destruct (parent_path_last left) as [l Hl], (parent_path_last right)
    as [r Hr].
  rewrite Hl, Hr in Hpaths. apply Forall2_last in Hpaths.
  apply String.eqb_eq, Hpaths.
Qed.

Lemma object_distance_self fuel obj m distance :
  object_distance fuel obj obj m = Some distance ->
  distance = (0, 0, 0, 0)%nat.
Proof.
  unfold object_distance.
  destruct (collection_path_of fuel m obj) as [path|]; [|discriminate].
  rewrite !pop_common_prefix_same
    by (apply String.eqb_refl || apply same_object_refl).
  intros [= <-]. reflexivity.
Qed.

(** X22. An object is at distance zero of itself, and of an object of
    another name at a distance whose parent components are not both zero;
    a child is at distance one of its parent, which is at distance zero of
    the child. *)
Theorem object_distance_zero_and_parent (fuel : nat)
  (left right : SceneObject)
  (collection_child_to_parent : gmap string (option string))
  (distance : nat * nat * nat * nat) :
  object_distance fuel left right collection_child_to_parent
  = Some distance ->
  (left = right -> distance = (0, 0, 0, 0)%nat)
  /\ (name left <> name right ->
      (distance.1.1.1, distance.1.1.2) <> (0, 0)%nat)
  /\ (parent left = Some right ->
      (distance.1.1.1, distance.1.1.2) = (1, 0)%nat).
Proof.
  intros Hdistance. split; [|split].
  - intros <-. eapply object_distance_self, Hdistance.
  - intros Hname Hzero. apply Hname.
    destruct distance as [[[a b] c] d]. simpl in Hzero.
    injection Hzero as -> ->.
    eapply object_distance_same_name, Hdistance.
  - intros Hparent. destruct distance as [[[a b] c] d]. simpl.
    apply object_distance_parent_components in Hdistance as [-> ->].
    rewrite (parent_path_child _ _ Hparent).
    rewrite pop_common_prefix_app by apply same_object_refl.
    reflexivity.
Qed.

Lemma object_distance_zero_and_parent_witness :
  exists distance,
    object_distance 4 body_mesh first_armature nested_child_to_parent
    = Some distance
    /\ (distance.1.1.1, distance.1.1.2) = (1, 0)%nat.
Proof.
  assert (Hdistance :
            object_distance 4 body_mesh first_armature nested_child_to_parent
            = Some (1, 0, 0, 0)%nat) by (vm_compute; reflexivity).
  exists (1, 0, 0, 0)%nat. split; [exact Hdistance|].
  exact (proj2 (proj2 (object_distance_zero_and_parent
                         4 body_mesh first_armature nested_child_to_parent
                         _ Hdistance)) eq_refl).
Defined.

(** ** The collections of the scene *)

Lemma collection_induction (P : Collection -> Prop) :
  (forall c, Forall P (collection_children c) -> P c) -> forall c, P c.
Proof.
  intros Hstep. fix IH 1. intros [n children]. apply Hstep. simpl.
  induction children as [|child children IHchildren]; constructor;
    [apply IH|exact IHchildren].
Qed.

Lemma collections_of_unfold c :
  collections_of c = c :: flat_map collections_of (collection_children c).
Proof. destruct c; reflexivity. Qed.

Lemma collections_of_self c : c ∈ collections_of c.
Proof. rewrite collections_of_unfold. left. Qed.

Lemma elem_of_flat_map {A B} (f : A -> list B) l y :
  y ∈ flat_map f l <-> exists x, x ∈ l /\ y ∈ f x.
Proof.
  rewrite list_elem_of_In, in_flat_map. split; intros (x & Hx & Hy); exists x;
    (split; [apply list_elem_of_In, Hx|apply list_elem_of_In, Hy]).
Qed.

Lemma collections_of_child root : forall parent_collection child,
  parent_collection ∈ collections_of root ->
  child ∈ collection_children parent_collection ->
  child ∈ collections_of root.
Proof.
  induction root as [root IH] using collection_induction.
  intros p c Hp Hc. rewrite collections_of_unfold in Hp |- *.
  right. apply elem_of_flat_map.
  apply elem_of_cons in Hp as [->|Hp].
  - exists c. split; [exact Hc|apply collections_of_self].
  - apply elem_of_flat_map in Hp as (x & Hx & Hp). exists x.
    split; [exact Hx|].
    rewrite Forall_forall in IH. eapply IH; eassumption.
Qed.

Lemma length_flat_map_elem {A B} (f : A -> list B) l x :
  x ∈ l -> (length (f x) <= length (flat_map f l))%nat.
Proof.
  induction l as [|y l IH]; intros Hx; [inversion Hx|]. simpl.
  rewrite length_app. apply elem_of_cons in Hx as [->|Hx]; [lia|].
  specialize (IH Hx). lia.
Qed.

Lemma collections_of_child_smaller parent_collection child :
  child ∈ collection_children parent_collection ->
  (length (collections_of child)
   < length (collections_of parent_collection))%nat.
Proof.
  intros Hc. rewrite (collections_of_unfold parent_collection). simpl.
  apply Nat.lt_succ_r, length_flat_map_elem, Hc.
Qed.

Lemma collections_of_smaller root : forall c,
  c ∈ collections_of root ->
  (length (collections_of c) <= length (collections_of root))%nat.
Proof.
  induction root as [root IH] using collection_induction.
  intros c Hc. rewrite (collections_of_unfold root) in Hc.
  apply elem_of_cons in Hc as [->|Hc]; [lia|].
  apply elem_of_flat_map in Hc as (x & Hx & Hc).
  rewrite Forall_forall in IH. specialize (IH x Hx c Hc).
  pose proof (collections_of_child_smaller root x Hx). lia.
Qed.

Lemma collections_of_positive c : (0 < length (collections_of c))%nat.
Proof. rewrite collections_of_unfold. simpl. lia. Qed.

(** ** The loops of [current_armature] end *)

Lemma push_children root parent_collection :
  parent_collection ∈ collections_of root ->
  forall children state,
    (forall child, child ∈ children ->
                   child ∈ collection_children parent_collection) ->
    Forall (fun c => c ∈ collections_of root) state.1 ->
    child_to_parent_of root state.2 ->
    let pushed :=
      fold_left
        (fun state child =>
           (child :: state.1,
            <[collection_name child :=
                Some (collection_name parent_collection)]> state.2))
        children state in
    Forall (fun c => c ∈ collections_of root) pushed.1
    /\ child_to_parent_of root pushed.2
    /\ list_sum (map (fun c => length (collections_of c)) pushed.1)
       = (length (flat_map collections_of children)
          + list_sum (map (fun c => length (collections_of c)) state.1))%nat.
Proof.
  intros Hparent children.
  induction children as [|child children IH]; intros state Hchildren
    Hstack Hdict; cbv zeta; simpl; [auto|].
  assert (Hchild : child ∈ collection_children parent_collection)
    by (apply Hchildren; left).
  edestruct (IH (child :: state.1,
                 <[collection_name child :=
                     Some (collection_name parent_collection)]> state.2))
    as (Hstack' & Hdict' & Hsize).
  - intros c Hc. apply Hchildren. right. exact Hc.
  - simpl. constructor; [|exact Hstack].
    eapply collections_of_child; eassumption.
  - simpl. intros c v Hlookup.
    destruct (decide (c = collection_name child)) as [->|Hne].
    + rewrite lookup_insert_eq in Hlookup. injection Hlookup as <-.
      exists child. split; [eapply collections_of_child; eassumption|].
      split; [reflexivity|]. intros p [= <-].
      exists parent_collection. auto.
    + rewrite lookup_insert_ne in Hlookup by congruence.
      apply Hdict, Hlookup.
  - split; [exact Hstack'|]. split; [exact Hdict'|].
    rewrite Hsize. simpl. rewrite length_app. lia.
Qed.

Lemma collect_child_to_parent_ends root : forall fuel collections m,
  Forall (fun c => c ∈ collections_of root) collections ->
  child_to_parent_of root m ->
  (list_sum (map (fun c => length (collections_of c)) collections)
   <= fuel)%nat ->
  exists m',
    collect_child_to_parent fuel collections m = Some m'
    /\ child_to_parent_of root m'.
Proof.
  induction fuel as [|fuel IH]; intros [|c collections] m Hstack Hdict Hfuel.
  - exists m. auto.
  - simpl in Hfuel. pose proof (collections_of_positive c). lia.
  - exists m. auto.
  - simpl. apply Forall_cons in Hstack as [Hc Hstack].
    destruct (push_children root c Hc (collection_children c)
                (collections, m)) as (Hstack' & Hdict' & Hsize); auto.
    apply IH; [exact Hstack'|exact Hdict'|].
    rewrite Hsize. simpl in Hfuel.
    rewrite (collections_of_unfold c) in Hfuel. simpl in *. lia.
Qed.

Lemma collection_path_ends root m :
  names_identify root -> child_to_parent_of root m ->
  forall n fuel c path,
    c ∈ collections_of root ->
    (length (collections_of root) - length (collections_of c) < n)%nat ->
    (n <= fuel)%nat ->
    is_Some (collection_path fuel m (Some (collection_name c)) path).
Proof.
  intros Hnames Hdict.
  induction n as [|n IH]; intros fuel c path Hc Hn Hfuel; [lia|].
  destruct fuel as [|fuel]; [lia|]. simpl.
  destruct (m !! collection_name c) as [[p|]|] eqn:Hlookup; simpl;
    try (destruct fuel; simpl; eauto; fail).
  destruct (Hdict _ _ Hlookup) as (child & Hchild & Hname & Hparent).
  destruct (Hparent p eq_refl) as (pc & Hpc & Hin & <-).
  assert (child = c) as -> by (apply Hnames; assumption).
  apply IH; [exact Hpc| |lia].
  pose proof (collections_of_child_smaller pc c Hin).
  pose proof (collections_of_smaller root pc Hpc). lia.
Qed.

Lemma collection_path_of_ends root m fuel obj :
  names_identify root -> child_to_parent_of root m ->
  (length (collections_of root) <= fuel)%nat ->
  is_Some (collection_path_of fuel m obj).
Proof.
  intros Hnames Hdict Hfuel. unfold collection_path_of.
  destruct (filter _ (users_collection obj)) as [|c l] eqn:Hfilter;
    [eauto|].
  assert (Hc : c ∈ filter (fun collection => is_Some (m !! collection))
                     (users_collection obj)) by (rewrite Hfilter; left).
  apply list_elem_of_filter in Hc as [[v Hv] _].
  destruct (Hdict _ _ Hv) as (child & Hchild & <- & _).
  eapply (collection_path_ends root m Hnames Hdict
            (length (collections_of root))); [exact Hchild| |exact Hfuel].
  pose proof (collections_of_positive child).
  pose proof (collections_of_positive root). lia.
Qed.

Lemma object_distance_ends root m fuel left right :
  names_identify root -> child_to_parent_of root m ->
  (length (collections_of root) <= fuel)%nat ->
  is_Some (object_distance fuel left right m).
Proof.
  intros Hnames Hdict Hfuel. unfold object_distance.
  destruct (collection_path_of_ends root m fuel left Hnames Hdict Hfuel)
    as [lc ->].
  destruct (collection_path_of_ends root m fuel right Hnames Hdict Hfuel)
    as [rc ->].
  eauto.
Qed.

Lemma collection_names_identify root :
  NoDup (map collection_name (collections_of root)) -> names_identify root.
Proof.
  intros Hnodup c1 c2. generalize (collections_of root) Hnodup.
  induction l as [|z l IH]; intros Hl Hx Hy Hname; [inversion Hx|].
  simpl in Hl. apply NoDup_cons in Hl as [Hz Hl].
  apply elem_of_cons in Hx as [->|Hx], Hy as [->|Hy].
  - reflexivity.
  - exfalso. apply Hz. rewrite Hname. apply list_elem_of_fmap. eauto.
  - exfalso. apply Hz. rewrite <- Hname. apply list_elem_of_fmap. eauto.
  - apply IH; assumption.
Qed.

Lemma nested_scene_names_identify : names_identify nested_scene_collection.
Proof.
  apply collection_names_identify, (bool_decide_unpack _).
  vm_compute. exact I.
Qed.

(** ** The distances of the candidates and their order *)

Lemma set_distance_entries obj distance : forall object_to_distance,
  (forall key value,
      (key, value) ∈ set_distance obj distance object_to_distance ->
      (key, value) ∈ object_to_distance
      \/ (value = distance /\ same_object key obj = true
          /\ (key = obj \/ key ∈ map fst object_to_distance)))
  /\ (exists key,
         (key, distance) ∈ set_distance obj distance object_to_distance
         /\ same_object key obj = true)
  /\ (forall key value,
         (key, value) ∈ object_to_distance ->
         exists value',
           (key, value') ∈ set_distance obj distance object_to_distance).
Proof.
  induction object_to_distance as [|[k v] l (IHin & IHkey & IHkeep)]; simpl.
  - split; [|split].
    + intros key value Hin. apply list_elem_of_singleton in Hin.
      injection Hin as -> ->. right. rewrite same_object_refl. auto.
    + exists obj. rewrite same_object_refl. split; [left|reflexivity].
    + intros key value Hin. inversion Hin.
  - destruct (same_object k obj) eqn:Hsame; (split; [|split]).
    + intros key value Hin. apply elem_of_cons in Hin as [Heq|Hin].
      * injection Heq as -> ->. right. split; [reflexivity|].
        split; [exact Hsame|]. right. left.
      * left. right. exact Hin.
    + exists k. split; [left|exact Hsame].
    + intros key value Hin. apply elem_of_cons in Hin as [Heq|Hin].
      * injection Heq as -> ->. exists distance. left.
      * exists value. right. exact Hin.
    + intros key value Hin. apply elem_of_cons in Hin as [Heq|Hin].
      * left. rewrite Heq. left.
      * apply IHin in Hin as [Hin|(Hv & Hk & Hor)]; [left; right; exact Hin|].
        right. split; [exact Hv|]. split; [exact Hk|].
        destruct Hor as [Hor|Hor]; [left; exact Hor|right; right; exact Hor].
    + destruct IHkey as (key & Hin & Hk). exists key.
      split; [right; exact Hin|exact Hk].
    + intros key value Hin. apply elem_of_cons in Hin as [Heq|Hin].
      * exists value. rewrite Heq. left.
      * destruct (IHkeep _ _ Hin) as [value' Hin']. exists value'.
        right. exact Hin'.
Qed.

Lemma object_distances_ends root m fuel active :
  names_identify root -> child_to_parent_of root m ->
  (length (collections_of root) <= fuel)%nat ->
  forall objects object_to_distance,
  exists result,
    object_distances fuel active m objects object_to_distance = Some result
    /\ (forall key value,
           (key, value) ∈ result ->
           (key ∈ map fst object_to_distance \/ key ∈ objects)
           /\ ((key, value) ∈ object_to_distance
               \/ exists obj,
                    obj ∈ objects /\ same_object key obj = true
                    /\ object_distance fuel active obj m = Some value))
    /\ (forall obj, obj ∈ objects ->
          exists key value,
            (key, value) ∈ result /\ same_object key obj = true)
    /\ (forall key value,
           (key, value) ∈ object_to_distance ->
           exists value', (key, value') ∈ result).
Proof.
  intros Hnames Hdict Hfuel.
  induction objects as [|obj objects IH]; intros acc; simpl.
  - exists acc. split; [reflexivity|]. split; [|split].
    + intros key value Hin. split; [|left; exact Hin].
      left. apply list_elem_of_fmap. exists (key, value). auto.
    + intros obj Hobj. inversion Hobj.
    + intros key value Hin. exists value. exact Hin.
  - destruct (object_distance_ends root m fuel active obj Hnames Hdict Hfuel)
      as [distance Hdistance].
    rewrite Hdistance.
    destruct (set_distance_entries obj distance acc)
      as (Hin & (key0 & Hkey0 & Hsame0) & Hkeep).
    destruct (IH (set_distance obj distance acc))
      as (result & -> & Hresult & Hcover & Hkeep').
    exists result. split; [reflexivity|]. split; [|split].
    + intros key value Hentry.
      destruct (Hresult _ _ Hentry) as [Hkey Hvalue]. split.
      * destruct Hkey as [Hkey|Hkey]; [|right; right; exact Hkey].
        apply list_elem_of_fmap in Hkey as ([k v] & -> & Hkv). simpl.
        apply Hin in Hkv as [Hkv|(_ & _ & [->|Hk])].
        -- left. apply list_elem_of_fmap. exists (k, v). auto.
        -- right. left.
        -- left. exact Hk.
      * destruct Hvalue as [Hvalue|(o & Ho & Hsame & Hd)].
        -- apply Hin in Hvalue as [Hvalue|(-> & Hsame & _)];
             [left; exact Hvalue|].
           right. exists obj. split; [left|]. auto.
        -- right. exists o. split; [right; exact Ho|]. auto.
    + intros o Ho. apply elem_of_cons in Ho as [->|Ho].
      * destruct (Hkeep' _ _ Hkey0) as [value' Hin']. eauto.
      * apply Hcover, Ho.
    + intros key value Hentry.
      destruct (Hkeep _ _ Hentry) as [value' Hentry'].
      eapply Hkeep', Hentry'.
Qed.

Lemma insert_sorted_elem x : forall l y,
  y ∈ insert_sorted x l <-> y = x \/ y ∈ l.
Proof.
  induction l as [|z l IH]; intros y; simpl.
  - rewrite list_elem_of_singleton. split; [auto|].
    intros [H|H]; [exact H|inversion H].
  - destruct (entry_ltb z x).
    + rewrite !elem_of_cons, IH. tauto.
    + rewrite !elem_of_cons. tauto.
Qed.

Lemma sorted_elem l : forall y, y ∈ sorted l <-> y ∈ l.
Proof.
  induction l as [|x l IH]; intros y; simpl; [reflexivity|].
  rewrite insert_sorted_elem, elem_of_cons, IH. reflexivity.
Qed.

Lemma sorted_head_least a : forall l,
  a ∈ l ->
  (forall y, y ∈ l ->
     entry_ltb y a = false /\ (y = a \/ entry_ltb a y = true)) ->
  head (sorted l) = Some a.
Proof.
  induction l as [|x l IH]; intros Ha Hleast; [inversion Ha|]. simpl.
  assert (Hx : entry_ltb x a = false /\ (x = a \/ entry_ltb a x = true))
    by (apply Hleast; left).
  apply elem_of_cons in Ha as [->|Ha].
  - destruct (sorted l) as [|y t] eqn:Hsorted; [reflexivity|]. simpl.
    assert (Hy : y ∈ l) by (apply sorted_elem; rewrite Hsorted; left).
    destruct (Hleast y) as [-> _]; [right; exact Hy|]. reflexivity.
  - assert (Hhead : head (sorted l) = Some a).
    { apply IH; [exact Ha|]. intros y Hy. apply Hleast. right. exact Hy. }
    destruct (sorted l) as [|y t]; [discriminate|].
    simpl in Hhead. injection Hhead as ->. simpl.
    destruct Hx as [Hxa [->|Hax]].
    + rewrite Hxa. reflexivity.
    + rewrite Hax. reflexivity.
Qed.

Lemma distance_compare_zero a b c d :
  (a, b) <> (0, 0)%nat ->
  distance_compare (0, 0, 0, 0)%nat (a, b, c, d) = Lt
  /\ distance_compare (a, b, c, d) (0, 0, 0, 0)%nat = Gt.
Proof.
  intros Hne. unfold distance_compare.
  destruct a as [|a]; simpl; [|auto].
  destruct b as [|b]; simpl; [congruence|auto].
Qed.

Lemma child_to_parent_of_scene root :
  child_to_parent_of root {[ collection_name root := None ]}.
Proof.
  intros c v Hlookup. apply lookup_singleton_Some in Hlookup as [<- <-].
  exists root. split; [apply collections_of_self|].
  split; [reflexivity|discriminate].
Qed.

Lemma collect_child_to_parent_of_scene root fuel :
  (length (collections_of root) <= fuel)%nat ->
  exists m,
    collect_child_to_parent fuel [root] {[ collection_name root := None ]}
    = Some m
    /\ child_to_parent_of root m.
Proof.
  intros Hfuel. apply collect_child_to_parent_ends.
  - constructor; [apply collections_of_self|constructor].
  - apply child_to_parent_of_scene.
  - simpl. lia.
Qed.

(** ** The current armature *)

Lemma current_armature_result (fuel : nat) (context : Context) :
  names_identify (scene_collection context) ->
  (length (collections_of (scene_collection context)) <= fuel)%nat ->
  exists result,
    current_armature fuel context = Some result
    /\ (result = None
        <-> armature_objects (object_candidates context) = [])
    /\ (forall obj,
           result = Some obj ->
           obj ∈ armature_objects (object_candidates context))
    /\ (length (armature_objects (object_candidates context)) = 1%nat
        \/ active_object_of context = None ->
        result = head (armature_objects (object_candidates context))).
Proof.
  intros Hnames Hfuel. unfold current_armature, active_object_of.
  destruct (armature_objects (object_candidates context))
    as [|first_object [|second_object objects]] eqn:Hobjects.
  - exists None. repeat split; auto. intros obj Hobj. discriminate.
  - exists (Some first_object). split; [reflexivity|].
    split; [split; discriminate|].
    split; [intros obj [= <-]; left|reflexivity].
  - destruct (match active_object context with
              | Some obj => Some obj
              | None => view_layer_active context
              end) as [active|].
    2:{ exists (Some first_object). split; [reflexivity|].
        split; [split; discriminate|].
        split; [intros obj [= <-]; left|reflexivity]. }
    cbv zeta.
    destruct (collect_child_to_parent_of_scene (scene_collection context)
                fuel Hfuel) as (m & -> & Hdict).
    destruct (object_distances_ends (scene_collection context) m fuel active
                Hnames Hdict Hfuel
                (first_object :: second_object :: objects) [])
      as (result & -> & Hresult & Hcover & _).
    destruct (Hcover first_object) as (key & value & Hentry & _); [left|].
    set (entries := map (fun '(obj, distance) => (distance, name obj, obj))
                      result).
    assert (Hentries : forall x, x ∈ sorted entries ->
                                 x.2 ∈ first_object :: second_object
                                        :: objects).
    { intros x Hx. apply (proj1 (sorted_elem _ _)) in Hx.
      unfold entries in Hx.
      apply list_elem_of_fmap in Hx as ([k v] & -> & Hkv). simpl.
      destruct (Hresult _ _ Hkv) as [[Hk|Hk] _]; [inversion Hk|exact Hk]. }
    destruct (sorted entries) as [|x t] eqn:Hsorted.
    { assert (Hin : (value, name key, key) ∈ sorted entries).
      { apply sorted_elem, list_elem_of_fmap. exists (key, value). auto. }
      rewrite Hsorted in Hin. inversion Hin. }
    exists (Some x.2). split; [reflexivity|].
    split; [split; discriminate|].
    split; [intros obj [= <-]; apply Hentries; left|].
    intros [Hone|Hnone]; [simpl in Hone; lia|discriminate].
Qed.

(** X23. With more steps than there are collections in the scene,
    [current_armature] returns: [None] when no candidate object is an
    armature and never otherwise, and else one of the candidate armatures,
    which is the first of them when it is the only one or when there is
    no active object. *)
Theorem current_armature_is_a_candidate (fuel : nat) (context : Context) :
  names_identify (scene_collection context) ->
  (length (collections_of (scene_collection context)) <= fuel)%nat ->
  exists result,
    current_armature fuel context = Some result
    /\ (result = None
        <-> armature_objects (object_candidates context) = [])
    /\ (forall obj,
           result = Some obj ->
           obj ∈ armature_objects (object_candidates context))
    /\ (length (armature_objects (object_candidates context)) = 1%nat
        \/ active_object_of context = None ->
        result = head (armature_objects (object_candidates context))).
Proof. apply current_armature_result. Qed.

Lemma current_armature_is_a_candidate_witness :
  exists result,
    current_armature 4 nested_context = Some result /\ result <> None.
Proof.
  destruct (current_armature_is_a_candidate 4 nested_context)
    as (result & Hrun & Hnone & _);
    [exact nested_scene_names_identify|vm_compute; lia|].
  exists result. split; [exact Hrun|].
  intros Hresult. apply Hnone in Hresult. vm_compute in Hresult.
  discriminate.
Defined.

Lemma ltb_irreflexive s : String.ltb s s = false.
Proof.
  unfold String.ltb. pose proof (String.compare_antisym s s) as Hanti.
  destruct (String.compare s s); simpl in Hanti; congruence.
Qed.

Lemma distance_compare_same d : distance_compare d d = Eq.
Proof.
  destruct d as [[[a b] c] e]. unfold distance_compare.
  rewrite !Nat.compare_refl. reflexivity.
Qed.

Lemma names_unique (l : list SceneObject) x y :
  NoDup (map name l) -> x ∈ l -> y ∈ l -> name x = name y -> x = y.
Proof.
  induction l as [|z l IH]; intros Hnodup Hx Hy Hname; [inversion Hx|].
  simpl in Hnodup. apply NoDup_cons in Hnodup as [Hz Hnodup].
  apply elem_of_cons in Hx as [->|Hx], Hy as [->|Hy].
  - reflexivity.
  - exfalso. apply Hz. rewrite Hname. apply list_elem_of_fmap. eauto.
  - exfalso. apply Hz. rewrite <- Hname. apply list_elem_of_fmap. eauto.
  - apply IH; assumption.
Qed.

(** X24. When the active object is one of the candidate armatures, whose
    names differ, [current_armature] returns it: it is at distance zero of
    itself, every other candidate is further, and the names only order
    candidates at the same distance. *)
Theorem current_armature_prefers_active
  (fuel : nat) (context : Context) (active : SceneObject) :
  names_identify (scene_collection context) ->
  (length (collections_of (scene_collection context)) <= fuel)%nat ->
  NoDup (map name (armature_objects (object_candidates context))) ->
  active_object_of context = Some active ->
  active ∈ armature_objects (object_candidates context) ->
  current_armature fuel context = Some (Some active).
Proof.
  intros Hnames Hfuel Hnodup Hactive Hin.
  unfold current_armature. unfold active_object_of in Hactive.
  rewrite Hactive.
  destruct (armature_objects (object_candidates context))
    as [|first_object [|second_object objects]] eqn:Hobjects.
  - inversion Hin.
  - apply list_elem_of_singleton in Hin as ->. reflexivity.
  - rewrite <- Hobjects in *. clear Hobjects. cbv zeta.
    destruct (collect_child_to_parent_of_scene (scene_collection context)
                fuel Hfuel) as (m & -> & Hdict).
    destruct (object_distances_ends (scene_collection context) m fuel active
                Hnames Hdict Hfuel
                (armature_objects (object_candidates context)) [])
      as (result & -> & Hresult & Hcover & _).
    assert (Hentry : forall key value,
               (key, value) ∈ result ->
               key ∈ armature_objects (object_candidates context)
               /\ object_distance fuel active key m = Some value).
    { intros key value Hkv.
      destruct (Hresult _ _ Hkv) as [[Hk|Hk] [Hv|(obj & Hobj & Hsame & Hd)]];
        try (inversion Hk; fail); try (inversion Hv; fail).
      split; [exact Hk|].
      apply String.eqb_eq in Hsame.
      rewrite (names_unique _ key obj Hnodup Hk Hobj Hsame). exact Hd. }
    assert (Hhead :
              head (sorted
                      (map (fun '(obj, distance) => (distance, name obj, obj))
                         result))
              = Some ((0, 0, 0, 0)%nat, name active, active)).
    { apply sorted_head_least.
      - destruct (Hcover active Hin) as (key & value & Hkv & Hsame).
        destruct (Hentry _ _ Hkv) as [Hk Hd].
        apply String.eqb_eq in Hsame.
        pose proof (names_unique _ key active Hnodup Hk Hin Hsame) as ->.
        apply object_distance_self in Hd as ->.
        apply list_elem_of_fmap. exists (active, (0, 0, 0, 0)%nat). auto.
      - intros y Hy. apply list_elem_of_fmap in Hy as ([k v] & -> & Hkv).
        destruct (Hentry _ _ Hkv) as [Hk Hd].
        destruct (decide (name active = name k)) as [Hname|Hname].
        + pose proof (names_unique _ active k Hnodup Hin Hk Hname) as <-.
          apply object_distance_self in Hd as ->.
          split; [|left; reflexivity].
          unfold entry_ltb. cbn [fst snd].
          rewrite distance_compare_same. apply ltb_irreflexive.
        + destruct v as [[[a b] c] d].
          assert (Hne : (a, b) <> (0, 0)%nat).
          { intros [= -> ->]. apply Hname.
            eapply object_distance_same_name, Hd. }
          destruct (distance_compare_zero a b c d Hne) as [Hlt Hgt].
          unfold entry_ltb. cbn [fst snd]. rewrite Hlt, Hgt. auto. }
    destruct (sorted _) as [|x t]; [discriminate|].
    simpl in Hhead. injection Hhead as ->. reflexivity.
Qed.

Lemma current_armature_prefers_active_witness :
  current_armature 4 nested_context = Some (Some second_armature).
Proof.
  apply current_armature_prefers_active.
  - exact nested_scene_names_identify.
  - vm_compute. lia.
  - apply (bool_decide_unpack _). vm_compute. exact I.
  - reflexivity.
  - apply list_elem_of_filter. split; [reflexivity|]. right. right. left.
Defined.

(** ** The version of the current armature *)

Lemma is_vrm0_not_vrm1 spec_version :
  is_vrm0 spec_version = true -> is_vrm1 spec_version = false.
Proof.
  unfold is_vrm0, is_vrm1. intros Hv. apply String.eqb_eq in Hv as ->.
  reflexivity.
Qed.

Lemma is_vrm1_not_vrm0 spec_version :
  is_vrm1 spec_version = true -> is_vrm0 spec_version = false.
Proof.
  unfold is_vrm0, is_vrm1. intros Hv. apply String.eqb_eq in Hv as ->.
  reflexivity.
Qed.

Lemma current_armature_versions (this other : string -> bool)
  (fuel : nat) (context : Context) :
  (forall v, this v = true -> other v = false) ->
  names_identify (scene_collection context) ->
  (length (collections_of (scene_collection context)) <= fuel)%nat ->
  armatures_use_live_data context ->
  let answer (is_version : string -> bool) : option (exn + bool) :=
    match live_armatures (data_armatures context) with
    | [] => Some (inr false)
    | _ =>
        if forallb
             (fun armature_data =>
                match vrm_addon_extension armature_data with
                | Some spec_version => is_version spec_version
                | None => false
                end)
             (live_armatures (data_armatures context))
           && existsb is_armature (object_candidates context)
        then Some (inr true)
        else
          match current_armature fuel context with
          | None => None
          | Some None => Some (inr false)
          | Some (Some armature) =>
              match data armature ≫= vrm_addon_extension with
              | Some spec_version => Some (inr (is_version spec_version))
              | None => Some (inl AttributeError)
              end
          end
    end in
  answer this = Some (inr true) ->
  answer other = Some (inr false) /\ armature_exists context = true.
Proof.
  intros Hexclusive Hnames Hfuel Hlive. cbv zeta.
  destruct (current_armature_result fuel context Hnames Hfuel)
    as (result & -> & Hnone & Hcandidate & _).
  destruct (live_armatures (data_armatures context)) as [|d0 live] eqn:Hdata;
    [discriminate|].
  rewrite <- Hdata in *.
  assert (Hused : existsb (fun armature => negb (users armature =? 0)%nat)
                    (data_armatures context) = true).
  { assert (Hd0 : d0 ∈ live_armatures (data_armatures context))
      by (rewrite Hdata; left).
    apply list_elem_of_filter in Hd0 as [Hd0 Hin].
    apply existsb_exists. exists d0. split; [apply list_elem_of_In, Hin|].
    apply negb_true_iff, Nat.eqb_neq, Hd0. }
  assert (Hversion : forall armature_data v,
             armature_data ∈ live_armatures (data_armatures context) ->
             vrm_addon_extension armature_data = Some v ->
             this v = true ->
             forallb
               (fun armature_data =>
                  match vrm_addon_extension armature_data with
                  | Some spec_version => other spec_version
                  | None => false
                  end)
               (live_armatures (data_armatures context)) = false).
  { intros d v Hd Hv Hthis.
    destruct (forallb _ _) eqn:Hall; [|reflexivity].
    rewrite forallb_forall in Hall.
    specialize (Hall d (proj1 (list_elem_of_In _ _) Hd)).
    rewrite Hv, (Hexclusive v Hthis) in Hall. discriminate. }
  destruct (forallb _ _ && existsb is_armature (object_candidates context))
    eqn:Hfirst.
  - intros _. apply andb_prop in Hfirst as [Hall Hexists].
    rewrite forallb_forall in Hall.
    split; [|unfold armature_exists; rewrite Hused, Hexists; reflexivity].
    assert (Hd0 : d0 ∈ live_armatures (data_armatures context))
      by (rewrite Hdata; left).
    pose proof (Hall d0 (proj1 (list_elem_of_In _ _) Hd0)) as Hthis.
    destruct (vrm_addon_extension d0) as [v0|] eqn:Hv0; [|discriminate].
    rewrite (Hversion d0 v0 Hd0 Hv0 Hthis). simpl.
    destruct result as [armature|]; [|reflexivity].
    destruct (Hlive armature (Hcandidate _ eq_refl)) as (d & -> & Hd).
    simpl. pose proof (Hall d (proj1 (list_elem_of_In _ _) Hd)) as Hthis'.
    destruct (vrm_addon_extension d) as [v|]; [|discriminate].
    rewrite (Hexclusive v Hthis'). reflexivity.
  - destruct result as [armature|]; [|discriminate].
    assert (Harmature : armature
                        ∈ armature_objects (object_candidates context))
      by (apply Hcandidate; reflexivity).
    destruct (Hlive armature Harmature) as (d & -> & Hd). simpl.
    destruct (vrm_addon_extension d) as [v|] eqn:Hv; [|discriminate].
    intros [= Hthis]. rewrite (Hversion d v Hd Hv Hthis). simpl.
    rewrite (Hexclusive v Hthis). split; [reflexivity|].
    unfold armature_exists. rewrite Hused. simpl.
    apply list_elem_of_filter in Harmature as [Htype Hin].
    apply existsb_exists. exists armature.
    split; [apply list_elem_of_In, Hin|exact Htype].
Qed.

Lemma nested_scene_armatures : armatures_use_live_data nested_context.
Proof.
  intros obj Hobj. apply list_elem_of_filter in Hobj as [Harmature Hobj].
  repeat (apply elem_of_cons in Hobj as [->|Hobj]);
    [| discriminate Harmature | | inversion Hobj];
    eexists; (split; [reflexivity|]);
    apply list_elem_of_filter; (split; [simpl; lia|]).
  - left.
  - right. left.
Qed.

(** X25. The current armature is never at once of VRM 0.0 and of VRM 1.0:
    when the data of every candidate armature is data in use, a yes of
    [current_armature_is_vrm0] comes with a no of
    [current_armature_is_vrm1], and the other way round; and either yes
    comes with a yes of [armature_exists]. *)
Theorem current_armature_versions_exclusive
  (fuel : nat) (context : Context) :
  names_identify (scene_collection context) ->
  (length (collections_of (scene_collection context)) <= fuel)%nat ->
  armatures_use_live_data context ->
  (current_armature_is_vrm0 fuel context = Some (inr true) ->
   current_armature_is_vrm1 fuel context = Some (inr false)
   /\ armature_exists context = true)
  /\ (current_armature_is_vrm1 fuel context = Some (inr true) ->
      current_armature_is_vrm0 fuel context = Some (inr false)
      /\ armature_exists context = true).
Proof.
  intros Hnames Hfuel Hlive. split.
  - apply (current_armature_versions is_vrm0 is_vrm1 fuel context
             is_vrm0_not_vrm1 Hnames Hfuel Hlive).
  - apply (current_armature_versions is_vrm1 is_vrm0 fuel context
             is_vrm1_not_vrm0 Hnames Hfuel Hlive).
Qed.

Lemma current_armature_versions_exclusive_witness :
  current_armature_is_vrm1 4 nested_context = Some (inr true)
  /\ current_armature_is_vrm0 4 nested_context = Some (inr false)
  /\ armature_exists nested_context = true.
Proof.
  assert (Hvrm1 : current_armature_is_vrm1 4 nested_context
                  = Some (inr true)) by (vm_compute; reflexivity).
  split; [exact Hvrm1|].
  apply (current_armature_versions_exclusive 4 nested_context);
    [exact nested_scene_names_identify|vm_compute; lia
    |exact nested_scene_armatures|exact Hvrm1].
Defined.

(** ** The objects to export *)

Lemma export_objects_loop export_invisibles : forall todo objects,
  fold_left
    (fun objects obj =>
       if bool_decide (type obj ∈ exclusion_types) then objects
       else if negb export_invisibles && negb (visible obj) then objects
       else objects ++ [obj])
    todo objects
  = objects
    ++ List.filter
         (fun obj =>
            negb (bool_decide (type obj ∈ exclusion_types))
            && (export_invisibles || visible obj))
         todo.
Proof.
  induction todo as [|obj todo IH]; intros objects; simpl.
  - rewrite app_nil_r. reflexivity.
  - rewrite IH.
    destruct (bool_decide (type obj ∈ exclusion_types)); simpl;
      [reflexivity|].
    destruct export_invisibles, (visible obj); simpl;
      rewrite <- ?app_assoc; reflexivity.
Qed.

(** X26. [export_objects] keeps the order of the objects it chooses from
    and exports neither a light nor a camera. An object that is not
    visible is exported only with [export_invisibles]; with
    [export_only_selections] that option does not add the objects that
    are not selected, it only keeps the selected ones that are hidden. *)
Theorem export_objects_selection (context : Context)
  (export_invisibles export_only_selections : bool) :
  let chosen :=
    if export_only_selections then selected_objects context
    else if export_invisibles then data_objects context
    else selectable_objects context in
  export_objects context export_invisibles export_only_selections
  = List.filter
      (fun obj =>
         negb (bool_decide (type obj ∈ exclusion_types))
         && (export_invisibles || visible obj))
      chosen
  /\ forall obj,
       obj ∈ export_objects context export_invisibles export_only_selections
       <-> obj ∈ chosen
           /\ type obj <> "LIGHT" /\ type obj <> "CAMERA"
           /\ (export_invisibles = true \/ visible obj = true).
Proof.
  cbv zeta. unfold export_objects. rewrite export_objects_loop. simpl.
  split; [reflexivity|]. intros obj.
  rewrite list_elem_of_In, filter_In, <- list_elem_of_In.
  rewrite andb_true_iff, negb_true_iff, bool_decide_eq_false, orb_true_iff.
  unfold exclusion_types.
  rewrite !not_elem_of_cons. 
  split; [intros (Hin & (Hl & Hc & _) & Hv); auto|].
  intros (Hin & Hl & Hc & Hv). repeat split; auto. apply not_elem_of_nil.
Qed.
